(** * TerraClimate extraction pipeline: shallow embedding and verification

    The development follows the layout of the Python sources:
    [config.py], [spatial_index.py], [extract.py], [transform.py],
    [main.py] and [validate.py].  Conventions of the embedding:

    - latitudes, longitudes, the tolerance and the climate values are
      IEEE doubles in the source; they are Rocq's primitive binary64
      floats here, with the source's own operations ([-], [abs], [<] on
      coordinates; [+], [-], [/] on climate values) and [nan] as the
      pandas missing value;
    - a Python [dict] is an association list in insertion order;
    - exceptions are an explicit error result, and the file system, the
      THREDDS server and the console are fields of an explicit [World]
      threaded through every effectful function. *)

From Stdlib Require Import List String Ascii Bool Arith ZArith.
From Stdlib Require Import Floats Lia.
Import ListNotations.

Local Open Scope string_scope.
Local Open Scope list_scope.

(* ================================================================== *)
(** * Python runtime: exceptions and the world *)
(* ================================================================== *)

(** The exceptions the modelled code can raise. *)
Inductive PyError : Type :=
| FileNotFoundError (path : string)
| OSError (url : string)
| UnpicklingError
| KeyError (key : string)
| IndexError (msg : string)
| ValueError (msg : string)
| AttributeError (msg : string)
| SystemExit (code : Z).

Inductive Result (A : Type) : Type :=
| Ok (a : A)
| Err (e : PyError).

Arguments Ok {A} a.
Arguments Err {A} e.

Definition is_ok {A} (r : Result A) : bool :=
  match r with Ok _ => true | Err _ => false end.

(** [str(e)], the message written to the failure log. *)
Definition error_message (e : PyError) : string :=
  match e with
  | FileNotFoundError p => p
  | OSError u => u
  | UnpicklingError => "invalid load key"
  | KeyError k => k
  | IndexError m => m
  | ValueError m => m
  | AttributeError m => m
  | SystemExit _ => ""
  end.

(** ** Python dictionaries (insertion ordered) *)

Definition PyDict (V : Type) : Type := list (string * V).

Fixpoint dict_get {V} (d : PyDict V) (k : string) : option V :=
  match d with
  | [] => None
  | (k', v) :: d' => if String.eqb k' k then Some v else dict_get d' k
  end.

(** [d[k] = v]: an existing key keeps its position and takes the new
    value, a new key goes last. *)
Fixpoint dict_set {V} (d : PyDict V) (k : string) (v : V) : PyDict V :=
  match d with
  | [] => [(k, v)]
  | (k', v') :: d' =>
      if String.eqb k' k then (k', v) :: d' else (k', v') :: dict_set d' k v
  end.

Definition dict_keys {V} (d : PyDict V) : list string := map fst d.

Definition dict_items {V} (d : PyDict V) : list (string * V) := d.

(* ================================================================== *)
(** * config.py *)
(* ================================================================== *)

Definition ACCESSIONS_FILE : string := "availableplantsforclimate.csv".

Definition CLIMATE_VARIABLES : list string :=
  ["aet"; "def"; "pet"; "ppt"; "q"; "soil"; "srad"; "swe";
   "tmax"; "tmin"; "vap"; "ws"; "vpd"; "PDSI"].

Definition THREDDS_BASE_URL : string :=
  "http://thredds.northwestknowledge.net:8080/thredds/dodsC".

(** [TERRACLIMATE_URL_TEMPLATE.format(var=var)] *)
Definition TERRACLIMATE_URL (var : string) : string :=
  THREDDS_BASE_URL ++ "/agg_terraclimate_" ++ var ++ "_1958_CurrentYear_GLOBE.nc".

(** [1/48]: the quotient of two integers is the correctly rounded
    double. *)
Definition SPATIAL_TOLERANCE : float := (1 / 48)%float.

Definition LOG_EXTRACTION_FAILURES : bool := true.

(** [START_YEAR] and [END_YEAR] are module globals that [main] overwrites
    from the command line, so they are part of the mutable world below. *)

(* ================================================================== *)
(** * Data model *)
(* ================================================================== *)

(** A row of the accession table as read from the CSV file: an empty
    coordinate cell is [None]; pandas holds it as NaN. *)
Record AccessionRow : Type := mkRow {
  CS_number : string;
  latitude : option float;
  longitude : option float
}.

(** A row with both coordinates, as left by [dropna]. *)
Record Accession : Type := mkAccession {
  acc_id : string;
  acc_lat : float;
  acc_lon : float
}.

Definition Cell : Type := (nat * nat)%type.

Definition SpatialIndex : Type := PyDict Cell.

(** One step of the shared time axis. *)
Record Timestamp : Type := mkTime { year : Z; month : Z }.

Inductive Dim : Type := Time | Lat | Lon.

(** A three dimensional variable of a NetCDF file: [da_values] is nested
    in the order given by [da_dims], as xarray keeps it. *)
Record DataArray : Type := mkArray {
  da_dims : Dim * Dim * Dim;
  da_values : list (list (list float))
}.

Record Dataset : Type := mkDataset {
  ds_lat : list float;
  ds_lon : list float;
  ds_time : list Timestamp;
  ds_vars : PyDict DataArray
}.

(** The content of [cache/spatial_index.pkl]: a pickled index, or bytes
    that [pickle.load] rejects. *)
Inductive CacheFile : Type :=
| Pickled (idx : SpatialIndex)
| Corrupt.

(** Observable effects, in the order they happen. *)
Inductive Event : Type :=
| EvOpenDataset (url : string)
| EvCacheRead
| EvCacheWrite
| EvFailedAccessions (ids : list string)
| EvExtractionError (var : string) (e : PyError)
| EvValidationReport
| EvSave (name format : string).

Record World : Type := mkWorld {
  accessions_csv : option (list AccessionRow);
  cache_file : option CacheFile;
  thredds : PyDict Dataset;
  START_YEAR : option Z;
  END_YEAR : option Z;
  failures_log : list (string * string);
  events : list Event
}.

Definition set_cache (w : World) (c : option CacheFile) : World :=
  mkWorld (accessions_csv w) c (thredds w) (START_YEAR w) (END_YEAR w)
          (failures_log w) (events w).

Definition set_years (w : World) (s e : option Z) : World :=
  mkWorld (accessions_csv w) (cache_file w) (thredds w) s e
          (failures_log w) (events w).

Definition append_log (w : World) (line : string * string) : World :=
  mkWorld (accessions_csv w) (cache_file w) (thredds w) (START_YEAR w)
          (END_YEAR w) (failures_log w ++ [line]) (events w).

Definition emit (w : World) (ev : Event) : World :=
  mkWorld (accessions_csv w) (cache_file w) (thredds w) (START_YEAR w)
          (END_YEAR w) (failures_log w) (events w ++ [ev]).

(** ** Effectful computations: state passing with exceptions *)

Definition M (A : Type) : Type := World -> Result A * World.

Definition ret {A} (a : A) : M A := fun w => (Ok a, w).

Definition raise {A} (e : PyError) : M A := fun w => (Err e, w).

Definition bind {A B} (c : M A) (k : A -> M B) : M B :=
  fun w =>
    match c w with
    | (Ok a, w') => k a w'
    | (Err e, w') => (Err e, w')
    end.

Definition lift {A} (r : Result A) : M A := fun w => (r, w).

Definition tell (ev : Event) : M unit := fun w => (Ok tt, emit w ev).

Notation "x <- c ;; k" := (bind c (fun x => k))
  (at level 61, c at next level, right associativity).
Notation "c ;;; k" := (bind c (fun _ => k))
  (at level 61, right associativity).

(** Pure counterpart on results. *)
Definition rbind {A B} (r : Result A) (k : A -> Result B) : Result B :=
  match r with Ok a => k a | Err e => Err e end.

Fixpoint rmap {A B} (f : A -> Result B) (l : list A) : Result (list B) :=
  match l with
  | [] => Ok []
  | x :: l' =>
      rbind (f x) (fun y => rbind (rmap f l') (fun ys => Ok (y :: ys)))
  end.

(** [xr.open_dataset(url)] *)
Definition open_dataset (url : string) : M Dataset :=
  tell (EvOpenDataset url) ;;;
  fun w =>
    match dict_get (thredds w) url with
    | Some ds => (Ok ds, w)
    | None => (Err (OSError url), w)
    end.

(* ================================================================== *)
(** * spatial_index.py *)
(* ================================================================== *)

(** [pd.isna] on a coordinate cell: an empty cell, or a NaN. *)
Definition isna (c : option float) : bool :=
  match c with
  | Some x => is_nan x
  | None => true
  end.

(** [df.dropna(subset=['latitude', 'longitude'])] *)
Fixpoint dropna (rows : list AccessionRow) : list Accession :=
  match rows with
  | [] => []
  | r :: rows' =>
      match latitude r, longitude r with
      | Some la, Some lo =>
          if is_nan la || is_nan lo then dropna rows'
          else mkAccession (CS_number r) la lo :: dropna rows'
      | _, _ => dropna rows'
      end
  end.

(** [load_accessions()], on a CSV file that carries the three expected
    columns. *)
Definition load_accessions : M (list Accession) :=
  fun w =>
    match accessions_csv w with
    | None => (Err (FileNotFoundError ACCESSIONS_FILE), w)
    | Some rows => (Ok (dropna rows), w)
    end.

Definition get_grid_coordinates (nc_file : Dataset)
  : list float * list float :=
  (ds_lat nc_file, ds_lon nc_file).

Definition get_time_coordinates (nc_file : Dataset) : list Timestamp :=
  ds_time nc_file.

(** [np.abs(grid - x)]: the subtraction and the absolute value of
    doubles, element by element. *)
Definition abs_diff (grid : list float) (x : float) : list float :=
  map (fun g => abs (g - x)%float) grid.

(** [np.where(mask)[0]] *)
Fixpoint np_where_from (i : nat) (mask : list bool) : list nat :=
  match mask with
  | [] => []
  | b :: mask' =>
      if b then i :: np_where_from (S i) mask' else np_where_from (S i) mask'
  end.

Definition np_where (mask : list bool) : list nat := np_where_from 0 mask.

(** [np.argmin]: the first position holding the minimum.  NumPy's loop
    keeps the running minimum [best] and moves on every element [x] for
    which [x >= best] is false; a NaN, once met, is the answer. *)
Fixpoint argmin_from (best_i : nat) (best : float) (i : nat) (l : list float)
  : nat :=
  match l with
  | [] => best_i
  | x :: l' =>
      if is_nan best then best_i
      else if (best <=? x)%float then argmin_from best_i best (S i) l'
      else argmin_from i x (S i) l'
  end.

Definition np_argmin (l : list float) : nat :=
  match l with
  | [] => 0%nat
  | x :: l' => argmin_from 0 x 1 l'
  end.

(** [a[indices]] for a list of positions. *)
Definition take_at (a : list float) (indices : list nat) : list float :=
  map (fun i => nth i a 0%float) indices.

Definition find_nearest_grid_cell (lat lon : float)
    (grid_lats grid_lons : list float) (tolerance : float) : option Cell :=
  let lat_matches :=
    map (fun d => (d <? tolerance)%float) (abs_diff grid_lats lat) in
  let lon_matches :=
    map (fun d => (d <? tolerance)%float) (abs_diff grid_lons lon) in
  let lat_indices := np_where lat_matches in
  let lon_indices := np_where lon_matches in
  if (List.length lat_indices =? 0)%nat || (List.length lon_indices =? 0)%nat then None
  else if (1 <? List.length lat_indices)%nat || (1 <? List.length lon_indices)%nat then
    let lat_idx :=
      nth (np_argmin (abs_diff (take_at grid_lats lat_indices) lat))
          lat_indices 0%nat in
    let lon_idx :=
      nth (np_argmin (abs_diff (take_at grid_lons lon_indices) lon))
          lon_indices 0%nat in
    Some (lat_idx, lon_idx)
  else
    Some (nth 0 lat_indices 0%nat, nth 0 lon_indices 0%nat).

(** The loop of [build_spatial_index] (lines 139-153): the index and the
    list of accessions without a grid cell. *)
Fixpoint index_accessions (rows : list Accession)
    (grid_lats grid_lons : list float)
    (spatial_index : SpatialIndex) (failed_accessions : list string)
  : SpatialIndex * list string :=
  match rows with
  | [] => (spatial_index, failed_accessions)
  | row :: rows' =>
      match find_nearest_grid_cell (acc_lat row) (acc_lon row)
                                   grid_lats grid_lons SPATIAL_TOLERANCE with
      | Some indices =>
          index_accessions rows' grid_lats grid_lons
            (dict_set spatial_index (acc_id row) indices) failed_accessions
      | None =>
          index_accessions rows' grid_lats grid_lons
            spatial_index (failed_accessions ++ [acc_id row])
      end
  end.

Definition pickle_load : M SpatialIndex :=
  tell EvCacheRead ;;;
  fun w =>
    match cache_file w with
    | Some (Pickled idx) => (Ok idx, w)
    | Some Corrupt => (Err UnpicklingError, w)
    | None => (Err (FileNotFoundError "spatial_index.pkl"), w)
    end.

Definition pickle_dump (idx : SpatialIndex) : M unit :=
  fun w => (Ok tt, emit (set_cache w (Some (Pickled idx))) EvCacheWrite).

Definition cache_exists : M bool :=
  fun w => (Ok (match cache_file w with Some _ => true | None => false end), w).

Definition build_spatial_index (use_cache : bool) : M SpatialIndex :=
  present <- cache_exists ;;
  if use_cache && present then pickle_load
  else
    accessions_df <- load_accessions ;;
    let sample_var := nth 0 CLIMATE_VARIABLES "" in
    let sample_url := TERRACLIMATE_URL sample_var in
    ds <- open_dataset sample_url ;;
    let '(grid_lats, grid_lons) := get_grid_coordinates ds in
    let '(spatial_index, failed_accessions) :=
      index_accessions accessions_df grid_lats grid_lons [] [] in
    (match failed_accessions with
     | [] => ret tt
     | _ => tell (EvFailedAccessions failed_accessions)
     end) ;;;
    (if use_cache then pickle_dump spatial_index else ret tt) ;;;
    ret spatial_index.

(* ================================================================== *)
(** * extract.py *)
(* ================================================================== *)

(** The key columns of every table: [accession_id], [year], [month]. *)
Definition Key : Type := (string * Z * Z)%type.

(** A long-format table: the three key columns and one value column,
    named after the variable. *)
Record LongTable : Type := mkLong {
  lt_var : string;
  lt_rows : list (Key * float)
}.

(** The two Python values that carry a time axis.  A pandas
    [DatetimeIndex] has the [.year] and [.month] accessors; a NumPy array
    of [datetime64] has neither. *)
Inductive TimeAxis : Type :=
| DatetimeIndex (ts : list Timestamp)
| NdArray (ts : list Timestamp).

Definition axis_values (a : TimeAxis) : list Timestamp :=
  match a with DatetimeIndex ts => ts | NdArray ts => ts end.

Definition dt_year (a : TimeAxis) : Result (list Z) :=
  match a with
  | DatetimeIndex ts => Ok (map year ts)
  | NdArray _ =>
      Err (AttributeError "'numpy.ndarray' object has no attribute 'year'")
  end.

Definition dt_month (a : TimeAxis) : Result (list Z) :=
  match a with
  | DatetimeIndex ts => Ok (map month ts)
  | NdArray _ =>
      Err (AttributeError "'numpy.ndarray' object has no attribute 'month'")
  end.

(** [pd.to_datetime(nc_file['time'].values)] *)
Definition time_index_of (nc_file : Dataset) : TimeAxis :=
  DatetimeIndex (get_time_coordinates nc_file).

(** [a[mask]] with a boolean mask. *)
Fixpoint compress {A} (mask : list bool) (l : list A) : list A :=
  match mask, l with
  | b :: mask', x :: l' =>
      if b then x :: compress mask' l' else compress mask' l'
  | _, _ => []
  end.

Definition axis_compress (mask : list bool) (a : TimeAxis) : TimeAxis :=
  match a with
  | DatetimeIndex ts => DatetimeIndex (compress mask ts)
  | NdArray ts => NdArray (compress mask ts)
  end.

(** [np.repeat(a, n)]: every element [n] times in a row. *)
Definition np_repeat {A} (a : list A) (n : nat) : list A :=
  flat_map (fun x => repeat x n) a.

(** [np.tile(a, n)]: the whole array [n] times; the result is a NumPy
    array whatever the argument was. *)
Definition np_tile (a : TimeAxis) (n : nat) : TimeAxis :=
  NdArray (List.concat (repeat (axis_values a) n)).

(** The position along each stored dimension of the logical point
    (time [t], lat [r], lon [c]). *)
Definition coord (d : Dim) (t r c : nat) : nat :=
  match d with Time => t | Lat => r | Lon => c end.

Definition get3 (v : list (list (list float))) (i j k : nat) : option float :=
  match nth_error v i with
  | Some plane =>
      match nth_error plane j with
      | Some line => nth_error line k
      | None => None
      end
  | None => None
  end.

Definition da_get (a : DataArray) (t r c : nat) : Result float :=
  let '(d0, d1, d2) := da_dims a in
  match get3 (da_values a) (coord d0 t r c) (coord d1 t r c) (coord d2 t r c) with
  | Some x => Ok x
  | None => Err (IndexError "index out of bounds")
  end.

Definition da_size_time (a : DataArray) : nat :=
  match da_dims a with
  | (Time, _, _) => List.length (da_values a)
  | (_, Time, _) => List.length (hd [] (da_values a))
  | _ => List.length (hd [] (hd [] (da_values a)))
  end.

Definition dict_like_label : string :=
  "cannot use a dict-like object for selection on a dimension that does not have a MultiIndex".

(** [ds.sel(time=time_mask)]: [time_mask] is the pandas [Series] built by
    [pd.Series(True, index=time_index)].  xarray takes a Series for a
    dict-like label and refuses it on the index of [time], which is not
    a MultiIndex: the call raises whatever the mask holds. *)
Definition ds_sel_time (time_mask : list bool) (ds : Dataset)
  : Result Dataset :=
  Err (ValueError dict_like_label).

(** [ds[variable]] *)
Definition ds_getitem (ds : Dataset) (variable : string) : Result DataArray :=
  match dict_get (ds_vars ds) variable with
  | Some a => Ok a
  | None => Err (KeyError variable)
  end.

(** [a.isel(lat=lat_idx, lon=lon_idx).values]: the series along time. *)
Definition da_isel_point (a : DataArray) (lat_idx lon_idx : nat)
  : Result (list float) :=
  rmap (fun t => da_get a t lat_idx lon_idx) (seq 0 (da_size_time a)).

(** [a.isel(lat=DataArray(lat_indices, dims='accession'),
            lon=DataArray(lon_indices, dims='accession')).values]:
    pointwise indexing.  The new dimension takes the place of the first
    indexed dimension and the sliced dimension [time] keeps its place, so
    the result is (time, accession) when [time] is stored first and
    (accession, time) otherwise. *)
Definition da_isel_points (a : DataArray) (lat_indices lon_indices : list nat)
  : Result (list (list float)) :=
  let cells := combine lat_indices lon_indices in
  let times := seq 0 (da_size_time a) in
  match da_dims a with
  | (Time, _, _) =>
      rmap (fun t => rmap (fun rc => da_get a t (fst rc) (snd rc)) cells) times
  | _ =>
      rmap (fun rc => rmap (fun t => da_get a t (fst rc) (snd rc)) times) cells
  end.

(** [pd.DataFrame({'accession_id': ..., 'year': ..., 'month': ...,
    variable: ...})] from four columns of one length. *)
Fixpoint zip_rows (ids : list string) (years months : list Z)
    (data : list float) : list (Key * float) :=
  match ids, years, months, data with
  | i :: ids', y :: years', m :: months', x :: data' =>
      ((i, y, m), x) :: zip_rows ids' years' months' data'
  | _, _, _, _ => []
  end.

Definition data_frame (ids : list string) (years months : list Z)
    (variable : string) (data : list float) : Result LongTable :=
  if ((List.length ids =? List.length years)%nat
      && (List.length years =? List.length months)%nat
      && (List.length months =? List.length data)%nat)%bool
  then Ok (mkLong variable (zip_rows ids years months data))
  else Err (ValueError "All arrays must be of the same length").

Definition extract_timeseries_for_accession (nc_dataset : Dataset)
    (accession_id : string) (lat_idx lon_idx : nat) (variable : string)
    (time_index : TimeAxis) : Result LongTable :=
  rbind (ds_getitem nc_dataset variable) (fun a =>
  rbind (da_isel_point a lat_idx lon_idx) (fun data =>
  rbind (dt_year time_index) (fun years =>
  rbind (dt_month time_index) (fun months =>
  data_frame (repeat accession_id (List.length years)) years months
             variable data)))).

(** [pd.concat(all_data, ignore_index=True)] of frames with the same
    columns. *)
Definition pd_concat (variable : string) (all_data : list LongTable)
  : Result LongTable :=
  match all_data with
  | [] => Err (ValueError "No objects to concatenate")
  | _ => Ok (mkLong variable (List.concat (map lt_rows all_data)))
  end.

Definition year_mask (time_index : TimeAxis) (start_year end_year : option Z)
  : list bool :=
  map (fun t =>
         (match start_year with Some s => (s <=? year t)%Z | None => true end)
         && (match end_year with Some e => (year t <=? e)%Z | None => true end))
      (axis_values time_index).

(** The body of the [with] block of [extract_variable_sequential], on the
    opened data set. *)
Definition extract_from_dataset (ds : Dataset) (variable : string)
    (spatial_index : SpatialIndex) (start_year end_year : option Z)
  : Result LongTable :=
  let time_index := time_index_of ds in
  rbind
    (match start_year, end_year with
     | None, None => Ok (ds, time_index)
     | _, _ =>
         let time_mask := year_mask time_index start_year end_year in
         rbind (ds_sel_time time_mask ds) (fun ds =>
           Ok (ds, axis_compress time_mask time_index))
     end)
    (fun filtered =>
       let '(ds, time_index) := filtered in
       match axis_values time_index with
       | [] =>
           Err (IndexError "index 0 is out of bounds for axis 0 with size 0")
       | _ =>
           rbind (rmap (fun item =>
                    let '(accession_id, (lat_idx, lon_idx)) := item in
                    extract_timeseries_for_accession
                      ds accession_id lat_idx lon_idx variable time_index)
                  (dict_items spatial_index))
                 (pd_concat variable)
       end).

Definition extract_variable_sequential (variable : string)
    (spatial_index : SpatialIndex) (start_year end_year : option Z)
  : M LongTable :=
  let url := TERRACLIMATE_URL variable in
  ds <- open_dataset url ;;
  lift (extract_from_dataset ds variable spatial_index start_year end_year).

Definition extract_variable_parallel_accessions (variable : string)
    (spatial_index : SpatialIndex) : M LongTable :=
  extract_variable_sequential variable spatial_index None None.

(** [except Exception] does not catch [SystemExit]. *)
Definition is_Exception (e : PyError) : bool :=
  match e with SystemExit _ => false | _ => true end.

(** The body of the [try] block of [extract_all_variables]. *)
Definition extract_one (var : string) (spatial_index : SpatialIndex)
    (sequential : bool) : M LongTable :=
  fun w =>
    (if sequential
     then extract_variable_sequential var spatial_index
                                      (START_YEAR w) (END_YEAR w)
     else extract_variable_parallel_accessions var spatial_index) w.

(** The loop of [extract_all_variables] (lines 176-196). *)
Fixpoint extract_each (variables : list string) (spatial_index : SpatialIndex)
    (sequential : bool) (results : PyDict LongTable) : M (PyDict LongTable) :=
  match variables with
  | [] => ret results
  | var :: rest =>
      fun w =>
        match extract_one var spatial_index sequential w with
        | (Ok df, w') =>
            extract_each rest spatial_index sequential
                         (dict_set results var df) w'
        | (Err e, w') =>
            if is_Exception e then
              let w1 := emit w' (EvExtractionError var e) in
              let w2 := if LOG_EXTRACTION_FAILURES
                        then append_log w1 (var, error_message e) else w1 in
              extract_each rest spatial_index sequential results w2
            else (Err e, w')
        end
  end.

Definition extract_all_variables (variables : option (list string))
    (use_cached_index sequential : bool) : M (PyDict LongTable) :=
  let variables :=
    match variables with None => CLIMATE_VARIABLES | Some vs => vs end in
  spatial_index <- build_spatial_index use_cached_index ;;
  extract_each variables spatial_index sequential [].

(** Lines 223-244 of [extract_vectorized_all_locations]: the three arrays
    handed to the data frame constructor. *)
Definition vectorized_arrays (ds : Dataset) (variable : string)
    (spatial_index : SpatialIndex)
  : Result (list string * TimeAxis * list float) :=
  let time_index := time_index_of ds in
  let accession_ids := dict_keys spatial_index in
  let lat_indices := map (fun kv => fst (snd kv)) spatial_index in
  let lon_indices := map (fun kv => snd (snd kv)) spatial_index in
  rbind (ds_getitem ds variable) (fun a =>
  rbind (da_isel_points a lat_indices lon_indices) (fun data =>
    let n_accessions := List.length accession_ids in
    let n_times := List.length (axis_values time_index) in
    let accession_array := np_repeat accession_ids n_times in
    let time_array := np_tile time_index n_accessions in
    let data_array := List.concat data in
    Ok (accession_array, time_array, data_array))).

Definition extract_vectorized_all_locations (variable : string)
    (spatial_index : SpatialIndex) : M LongTable :=
  let url := TERRACLIMATE_URL variable in
  ds <- open_dataset url ;;
  lift (
    rbind (vectorized_arrays ds variable spatial_index) (fun arrays =>
      let '(accession_array, time_array, data_array) := arrays in
      rbind (dt_year time_array) (fun years =>
      rbind (dt_month time_array) (fun months =>
      data_frame accession_array years months variable data_array)))).

(* ================================================================== *)
(** * transform.py *)
(* ================================================================== *)

(** A wide table: the key columns [accession_id], [year], [month] and the
    value columns [wf_columns]; every row holds one cell per value
    column. *)
Record WideFrame : Type := mkWide {
  wf_columns : list string;
  wf_rows : list (Key * list float)
}.

(** Values of the grouping columns of an aggregated table. *)
Inductive Scalar : Type :=
| SStr (s : string)
| SInt (z : Z).

(** An aggregated table: [agg_columns] are the flattened column names,
    grouping columns first; a row is its group and its statistics. *)
Record AggFrame : Type := mkAgg {
  agg_columns : list string;
  agg_rows : list (list Scalar * list float)
}.

Inductive GwasTable : Type :=
| Monthly (df : WideFrame)
| Aggregated (df : AggFrame).

Inductive Stat : Type := Mean | Std | Min | Max | Median.

Definition stat_name (s : Stat) : string :=
  match s with
  | Mean => "mean" | Std => "std" | Min => "min" | Max => "max"
  | Median => "median"
  end.

(** The pandas reductions named in an [agg] dictionary, applied to the
    values of one column within one group.  Their numerical algorithms
    belong to pandas and stay abstract. *)
Class Reducers : Type := { reduce : Stat -> list float -> float }.

(** ** Ordering of keys, as [merge] and [groupby] sort them *)

Definition scalar_eq_dec (a b : Scalar) : {a = b} + {a <> b}.
Proof.
  decide equality; [apply string_dec | apply Z.eq_dec].
Defined.

Definition group_eq_dec : forall a b : list Scalar, {a = b} + {a <> b} :=
  list_eq_dec scalar_eq_dec.

Definition key_eq_dec (a b : Key) : {a = b} + {a <> b}.
Proof.
  decide equality; [apply Z.eq_dec | decide equality;
                                      [apply Z.eq_dec | apply string_dec]].
Defined.

Definition key_eqb (a b : Key) : bool :=
  if key_eq_dec a b then true else false.

Definition group_eqb (a b : list Scalar) : bool :=
  if group_eq_dec a b then true else false.

Definition scalar_leb (a b : Scalar) : bool :=
  match a, b with
  | SStr x, SStr y => String.leb x y
  | SInt x, SInt y => (x <=? y)%Z
  | SStr _, SInt _ => true
  | SInt _, SStr _ => false
  end.

Fixpoint group_leb (a b : list Scalar) : bool :=
  match a, b with
  | [], _ => true
  | _ :: _, [] => false
  | x :: a', y :: b' =>
      if scalar_eq_dec x y then group_leb a' b' else scalar_leb x y
  end.

Definition key_scalars (k : Key) : list Scalar :=
  let '(i, y, m) := k in [SStr i; SInt y; SInt m].

Definition key_leb (a b : Key) : bool :=
  group_leb (key_scalars a) (key_scalars b).

Fixpoint insert_sorted {A} (leb : A -> A -> bool) (x : A) (l : list A)
  : list A :=
  match l with
  | [] => [x]
  | y :: l' => if leb x y then x :: l else y :: insert_sorted leb x l'
  end.

Definition isort {A} (leb : A -> A -> bool) (l : list A) : list A :=
  fold_right (insert_sorted leb) [] l.

(** ** Cells of a row, by column name *)

Definition has_column (cols : list string) (name : string) : bool :=
  existsb (String.eqb name) cols.

Fixpoint row_get (cols : list string) (cells : list float) (name : string)
  : option float :=
  match cols, cells with
  | c :: cols', x :: cells' =>
      if String.eqb c name then Some x else row_get cols' cells' name
  | _, _ => None
  end.

Definition cell (cols : list string) (cells : list float) (name : string)
  : float :=
  match row_get cols cells name with Some x => x | None => nan end.

(** [df[name] = values]: an existing column is overwritten in place, a
    new one is appended. *)
Definition cols_set (cols : list string) (name : string) : list string :=
  if has_column cols name then cols else cols ++ [name].

Fixpoint row_set (cols : list string) (cells : list float) (name : string)
    (v : float) : list float :=
  match cols, cells with
  | c :: cols', x :: cells' =>
      if String.eqb c name then v :: cells'
      else x :: row_set cols' cells' name v
  | _, _ => cells ++ [v]
  end.

Definition assign (df : WideFrame) (name : string)
    (f : list float -> float) : WideFrame :=
  mkWide (cols_set (wf_columns df) name)
         (map (fun r => (fst r, row_set (wf_columns df) (snd r) name (f (snd r))))
              (wf_rows df)).

(** ** merge_variables_wide_format *)

Definition rows_with {X} (k : Key) (rows : list (Key * X)) : list X :=
  map snd (filter (fun r => key_eqb (fst r) k) rows).

Definition or_default {X} (d : X) (l : list X) : list X :=
  match l with [] => [d] | _ => l end.

(** [left.merge(right[['accession_id', 'year', 'month', var]],
    on=['accession_id', 'year', 'month'], how='outer')]: the keys of both
    sides, sorted; under each key every left row paired with every right
    row, a missing side filled with NaN. *)
Definition outer_merge (left : WideFrame) (var : string)
    (right : list (Key * float)) : WideFrame :=
  let keys :=
    isort key_leb
          (nodup key_eq_dec (map fst (wf_rows left) ++ map fst right)) in
  let width := List.length (wf_columns left) in
  mkWide (wf_columns left ++ [var])
    (flat_map (fun k =>
       let ls := or_default (repeat nan width) (rows_with k (wf_rows left)) in
       let rs := or_default nan (rows_with k right) in
       flat_map (fun cells => map (fun x => (k, cells ++ [x])) rs) ls)
     keys).

(** [df[['accession_id', 'year', 'month', var]]] *)
Definition select_var (df : LongTable) (var : string)
  : Result (list (Key * float)) :=
  if String.eqb (lt_var df) var then Ok (lt_rows df) else Err (KeyError var).

Fixpoint merge_each (result_df : WideFrame) (rest : PyDict LongTable)
  : Result WideFrame :=
  match rest with
  | [] => Ok result_df
  | (var, df) :: rest' =>
      rbind (select_var df var) (fun right =>
      merge_each (outer_merge result_df var right) rest')
  end.

Definition wide_of_long (df : LongTable) : WideFrame :=
  mkWide [lt_var df] (map (fun r => (fst r, [snd r])) (lt_rows df)).

Definition merge_variables_wide_format (variable_data : PyDict LongTable)
  : Result WideFrame :=
  match variable_data with
  | [] => Err (IndexError "list index out of range")
  | (first_var, df) :: rest => merge_each (wide_of_long df) rest
  end.

(** ** create_temporal_features *)

Definition season_map (m : Z) : option string :=
  if ((m =? 12) || (m =? 1) || (m =? 2))%Z then Some "Winter"
  else if ((m =? 3) || (m =? 4) || (m =? 5))%Z then Some "Spring"
  else if ((m =? 6) || (m =? 7) || (m =? 8))%Z then Some "Summer"
  else if ((m =? 9) || (m =? 10) || (m =? 11))%Z then Some "Fall"
  else None.

(** [pd.to_datetime(df[['year', 'month']].assign(day=1)).dt.quarter] *)
Definition quarter_of (m : Z) : Result Z :=
  if ((1 <=? m) && (m <=? 12))%Z then Ok ((m - 1) / 3 + 1)%Z
  else Err (ValueError "cannot assemble the datetimes: month must be in 1..12").

(** The columns added by [create_temporal_features]: [season] (NaN, here
    [None], for a month outside the map) and [quarter]. *)
Record TemporalFeatures : Type := mkFeatures {
  season : option (list (option string));
  quarter : option (list Z)
}.

Definition create_temporal_features (df : WideFrame)
    (add_season add_quarter : bool) : Result TemporalFeatures :=
  let months := map (fun r => snd (fst r)) (wf_rows df) in
  let season := if add_season then Some (map season_map months) else None in
  if add_quarter
  then rbind (rmap quarter_of months) (fun qs => Ok (mkFeatures season (Some qs)))
  else Ok (mkFeatures season None).

(** ** groupby(...).agg(...).reset_index() and column flattening *)

Definition underscore : ascii := "_"%char.

Fixpoint lstrip_underscore (s : string) : string :=
  match s with
  | String c s' => if Ascii.eqb c underscore then lstrip_underscore s' else s
  | EmptyString => EmptyString
  end.

Fixpoint rstrip_underscore (s : string) : string :=
  match s with
  | EmptyString => EmptyString
  | String c s' =>
      match rstrip_underscore s' with
      | EmptyString =>
          if Ascii.eqb c underscore then EmptyString
          else String c EmptyString
      | r => String c r
      end
  end.

(** ['_'.join(col).strip('_') if col[1] else col[0]] *)
Definition flatten_column (col : string * string) : string :=
  if String.eqb (snd col) "" then fst col
  else lstrip_underscore (rstrip_underscore (fst col ++ "_" ++ snd col)).

(** The same expression on a plain column name, which is what
    [result_df.columns.values] holds when no column was aggregated:
    [col[1]] is then the second character of the name (an IndexError when
    there is none) and ['_'.join(col)] puts an underscore between its
    characters. *)
Fixpoint join_characters (s : string) : string :=
  match s with
  | EmptyString => EmptyString
  | String c EmptyString => String c EmptyString
  | String c s' => String c (String underscore (join_characters s'))
  end.

Definition flatten_label (col : string) : Result string :=
  match col with
  | String _ (String _ _) =>
      Ok (lstrip_underscore (rstrip_underscore (join_characters col)))
  | _ => Err (IndexError "string index out of range")
  end.

(** [{var: stats for var in variables}] *)
Definition make_agg_dict (variables : list string) (stats : list Stat)
  : PyDict (list Stat) :=
  fold_left (fun d var => dict_set d var stats) variables [].

Definition group_rows (g : list Scalar)
    (rows : list (list Scalar * list float)) : list (list float) :=
  map snd (filter (fun r => group_eqb (fst r) g) rows).

(** Rows whose group key holds a NaN ([None]) are dropped, groups are
    sorted, and each group yields one row with, for every variable of
    [agg_dict] and every statistic asked for it, the reduction of that
    column over the group.  The columns of the result are labelled by the
    pairs (variable, statistic) of a MultiIndex, the grouping columns
    paired with the empty string; with an empty [agg_dict] the result
    has the grouping columns only, under their plain names. *)
Definition groupby_agg {R : Reducers} (cols : list string)
    (keyed : list (option (list Scalar) * list float))
    (group_cols : list string) (agg_dict : PyDict (list Stat))
  : Result AggFrame :=
  match find (fun kv => negb (has_column cols (fst kv))) agg_dict with
  | Some kv => Err (KeyError (fst kv))
  | None =>
      let present :=
        flat_map (fun r => match fst r with
                           | Some g => [(g, snd r)]
                           | None => []
                           end) keyed in
      let groups := isort group_leb (nodup group_eq_dec (map fst present)) in
      rbind
        (match agg_dict with
         | [] => rmap flatten_label group_cols
         | _ =>
             Ok (map flatten_column
                   (map (fun c => (c, "")) group_cols
                    ++ flat_map (fun kv => map (fun s => (fst kv, stat_name s))
                                               (snd kv)) agg_dict))
         end)
        (fun columns =>
           Ok (mkAgg columns
                 (map (fun g =>
                         (g, flat_map (fun kv =>
                                map (fun s =>
                                       reduce s
                                         (map (fun cells =>
                                                 cell cols cells (fst kv))
                                              (group_rows g present)))
                                    (snd kv)) agg_dict))
                      groups)))
  end.

Definition compute_temporal_aggregates {R : Reducers} (df : WideFrame)
    (variables : list string) (aggregation_period : string)
  : Result AggFrame :=
  let agg_dict := make_agg_dict variables [Mean; Std; Min; Max] in
  if String.eqb aggregation_period "year" then
    groupby_agg (wf_columns df)
      (map (fun r => let '(i, y, m) := fst r in
                     (Some [SStr i; SInt y], snd r)) (wf_rows df))
      ["accession_id"; "year"] agg_dict
  else if String.eqb aggregation_period "season" then
    rbind (create_temporal_features df true false) (fun ft =>
    groupby_agg (wf_columns df)
      (map (fun rs => let '(i, y, m) := fst (fst rs) in
                      (match snd rs with
                       | Some s => Some [SStr i; SInt y; SStr s]
                       | None => None
                       end, snd (fst rs)))
           (combine (wf_rows df)
                    (match season ft with Some l => l | None => [] end)))
      ["accession_id"; "year"; "season"] agg_dict)
  else if String.eqb aggregation_period "quarter" then
    rbind (create_temporal_features df false true) (fun ft =>
    groupby_agg (wf_columns df)
      (map (fun rq => let '(i, y, m) := fst (fst rq) in
                      (Some [SStr i; SInt y; SInt (snd rq)], snd (fst rq)))
           (combine (wf_rows df)
                    (match quarter ft with Some l => l | None => [] end)))
      ["accession_id"; "year"; "quarter"] agg_dict)
  else
    Err (ValueError ("Unknown aggregation period: " ++ aggregation_period)).

Definition compute_climate_summaries {R : Reducers} (df : WideFrame)
    (variables : list string) : Result AggFrame :=
  let summary_stats := [Mean; Std; Min; Max; Median] in
  let agg_dict := make_agg_dict variables summary_stats in
  groupby_agg (wf_columns df)
    (map (fun r => let '(i, y, m) := fst r in (Some [SStr i], snd r))
         (wf_rows df))
    ["accession_id"] agg_dict.

(** ** add_derived_climate_indices *)

(** The double the literal [0.1] denotes. *)
Definition point_one : float := 0x1.999999999999ap-4%float.

Definition add_derived_climate_indices (df : WideFrame) : WideFrame :=
  let col df name := fun cells => cell (wf_columns df) cells name in
  let df :=
    if has_column (wf_columns df) "pet" && has_column (wf_columns df) "ppt"
    then assign df "aridity_index"
                (fun r => col df "pet" r / (col df "ppt" r + point_one))%float
    else df in
  let df :=
    if has_column (wf_columns df) "ppt" && has_column (wf_columns df) "aet"
    then assign df "water_balance"
                (fun r => col df "ppt" r - col df "aet" r)%float
    else df in
  let df :=
    if has_column (wf_columns df) "tmax" && has_column (wf_columns df) "tmin"
    then assign df "temp_range"
                (fun r => col df "tmax" r - col df "tmin" r)%float
    else df in
  let df :=
    if has_column (wf_columns df) "soil" && has_column (wf_columns df) "def"
    then assign df "moisture_availability"
                (fun r => col df "soil" r - col df "def" r)%float
    else df in
  df.

(** ** prepare_for_gwas *)

Definition non_climate_columns : list string :=
  ["accession_id"; "year"; "month"; "season"; "quarter"].

Definition climate_columns (df : WideFrame) : list string :=
  filter (fun c => negb (has_column non_climate_columns c)) (wf_columns df).

Definition prepare_for_gwas {R : Reducers} (variable_data : PyDict LongTable)
    (aggregation : string) (add_derived : bool) : Result GwasTable :=
  rbind (merge_variables_wide_format variable_data) (fun df =>
    let climate_vars := climate_columns df in
    let '(df, climate_vars) :=
      if add_derived
      then let df := add_derived_climate_indices df in (df, climate_columns df)
      else (df, climate_vars) in
    if String.eqb aggregation "summary" then
      rbind (compute_climate_summaries df climate_vars)
            (fun out => Ok (Aggregated out))
    else if String.eqb aggregation "annual" then
      rbind (compute_temporal_aggregates df climate_vars "year")
            (fun out => Ok (Aggregated out))
    else if String.eqb aggregation "seasonal" then
      rbind (compute_temporal_aggregates df climate_vars "season")
            (fun out => Ok (Aggregated out))
    else if String.eqb aggregation "monthly" then
      Ok (Monthly df)
    else
      Err (ValueError ("Unknown aggregation type: " ++ aggregation))).

(** [save_dataframe(df, name, format=format)]: one file per format. *)
Definition save_dataframe (name format : string) : M unit :=
  (if String.eqb format "parquet" || String.eqb format "both"
   then tell (EvSave name "parquet") else ret tt) ;;;
  (if String.eqb format "csv" || String.eqb format "both"
   then tell (EvSave name "csv") else ret tt).

(* ================================================================== *)
(** * main.py *)
(* ================================================================== *)

(** The options as typed on the command line. *)
Record CommandLine : Type := mkCommandLine {
  opt_variables : option string;
  opt_aggregation : option string;
  opt_format : option string;
  opt_no_validation : bool;
  opt_rebuild_index : bool;
  opt_start_year : option Z;
  opt_end_year : option Z
}.

(** The namespace returned by [parse_args]. *)
Record Args : Type := mkArgs {
  args_variables : option string;
  args_aggregation : string;
  args_format : string;
  args_no_validation : bool;
  args_rebuild_index : bool;
  args_derived : bool;
  args_start_year : option Z;
  args_end_year : option Z
}.

Definition OUTPUT_FORMAT : string := "parquet".

Definition aggregation_choices : list string :=
  ["summary"; "annual"; "seasonal"; "monthly"].

Definition format_choices : list string := ["parquet"; "csv"; "both"].

(** [parse_args()] on the options that were read: argparse leaves through
    [SystemExit(2)] on a value outside [choices].  The order of the
    options and the help option are in [read_argv] below. *)
Definition parse_args (cl : CommandLine) : Result Args :=
  let aggregation :=
    match opt_aggregation cl with Some a => a | None => "summary" end in
  let format :=
    match opt_format cl with Some f => f | None => OUTPUT_FORMAT end in
  if negb (has_column aggregation_choices aggregation) then Err (SystemExit 2)
  else if negb (has_column format_choices format) then Err (SystemExit 2)
  else Ok (mkArgs (opt_variables cl) aggregation format
                  (opt_no_validation cl) (opt_rebuild_index cl) true
                  (opt_start_year cl) (opt_end_year cl)).

(** [s.split(',')] *)
Fixpoint split_commas (s : string) : list string :=
  match s with
  | EmptyString => [EmptyString]
  | String c s' =>
      if Ascii.eqb c ","%char then EmptyString :: split_commas s'
      else match split_commas s' with
           | [] => [String c EmptyString]
           | h :: t => String c h :: t
           end
  end.

Definition is_space (c : ascii) : bool :=
  let n := nat_of_ascii c in
  (n =? 32)%nat || ((9 <=? n)%nat && (n <=? 13)%nat).

Fixpoint lstrip (s : string) : string :=
  match s with
  | String c s' => if is_space c then lstrip s' else s
  | EmptyString => EmptyString
  end.

Fixpoint rstrip (s : string) : string :=
  match s with
  | EmptyString => EmptyString
  | String c s' =>
      match rstrip s' with
      | EmptyString => if is_space c then EmptyString else String c EmptyString
      | r => String c r
      end
  end.

Definition strip (s : string) : string := lstrip (rstrip s).

(** [validate_extraction(variable_data, save_report=True)]: the checks
    are advisory; what is kept of them is that the report is written. *)
Definition validate_extraction (variable_data : PyDict LongTable) : M unit :=
  tell EvValidationReport.

Fixpoint save_each (variable_data : PyDict LongTable) (format : string)
  : M unit :=
  match variable_data with
  | [] => ret tt
  | (var_name, df) :: rest =>
      save_dataframe (var_name ++ "_monthly") format ;;; save_each rest format
  end.

(** A truthy optional integer: present and not zero. *)
Definition truthy (z : option Z) : bool :=
  match z with Some v => negb (v =? 0)%Z | None => false end.

(** The body of [main] once the arguments are parsed. *)
Definition run_pipeline {R : Reducers} (args : Args) : M unit :=
  (fun w =>
     (Ok tt,
      set_years w
        (if truthy (args_start_year args) then args_start_year args
         else START_YEAR w)
        (if truthy (args_end_year args) then args_end_year args
         else END_YEAR w))) ;;;
  let variables :=
    match args_variables args with
    | Some s => if String.eqb s "" then None
                else Some (map strip (split_commas s))
    | None => None
    end in
  fun w =>
    let body : M unit :=
      spatial_index <- build_spatial_index (negb (args_rebuild_index args)) ;;
      variable_data <- extract_all_variables variables true true ;;
      match variable_data with
      | [] => raise (SystemExit 1)
      | _ =>
          (if args_no_validation args then ret tt
           else validate_extraction variable_data) ;;;
          final_df <- lift (prepare_for_gwas variable_data
                              (args_aggregation args) (args_derived args)) ;;
          let output_name : string :=
            if String.eqb (args_aggregation args) "summary"
            then "climate_data_for_gwas"
            else ("climate_data_" ++ args_aggregation args)%string in
          save_dataframe output_name (args_format args) ;;;
          (if String.eqb (args_aggregation args) "monthly"
           then save_each variable_data (args_format args) else ret tt)
      end in
    match body w with
    | (Ok _, w') => (Ok tt, w')
    | (Err e, w') =>
        if is_Exception e then (Err (SystemExit 1), w') else (Err e, w')
    end.

Definition main {R : Reducers} (cl : CommandLine) : M unit :=
  args <- lift (parse_args cl) ;;
  run_pipeline args.

(** ** The command line as argparse reads it *)

(** [parser.parse_args()] reads [sys.argv] from left to right, one option
    at a time.  A token is an option of the parser with its value, the
    help option [-h]/[--help] that every parser has, or anything else
    argparse refuses on sight (an unknown option, a missing value, a year
    that is no integer). *)
Inductive Token : Type :=
| TVariables (s : string)
| TAggregation (s : string)
| TFormat (s : string)
| TNoValidation
| TRebuildIndex
| TDerived
| TStartYear (z : Z)
| TEndYear (z : Z)
| THelp
| TRefused.

(** An option is stored as it is read, a repeated option overwriting its
    earlier value; a value outside the [choices] of its option ends the
    program with status 2 and the help option with status 0, both at the
    place where they stand.  [--derived] stores the value it has by
    default. *)
Definition read_token (cl : CommandLine) (tok : Token) : Result CommandLine :=
  match tok with
  | TVariables s =>
      Ok (mkCommandLine (Some s) (opt_aggregation cl) (opt_format cl)
                        (opt_no_validation cl) (opt_rebuild_index cl)
                        (opt_start_year cl) (opt_end_year cl))
  | TAggregation s =>
      if has_column aggregation_choices s
      then Ok (mkCommandLine (opt_variables cl) (Some s) (opt_format cl)
                             (opt_no_validation cl) (opt_rebuild_index cl)
                             (opt_start_year cl) (opt_end_year cl))
      else Err (SystemExit 2)
  | TFormat s =>
      if has_column format_choices s
      then Ok (mkCommandLine (opt_variables cl) (opt_aggregation cl) (Some s)
                             (opt_no_validation cl) (opt_rebuild_index cl)
                             (opt_start_year cl) (opt_end_year cl))
      else Err (SystemExit 2)
  | TNoValidation =>
      Ok (mkCommandLine (opt_variables cl) (opt_aggregation cl) (opt_format cl)
                        true (opt_rebuild_index cl)
                        (opt_start_year cl) (opt_end_year cl))
  | TRebuildIndex =>
      Ok (mkCommandLine (opt_variables cl) (opt_aggregation cl) (opt_format cl)
                        (opt_no_validation cl) true
                        (opt_start_year cl) (opt_end_year cl))
  | TDerived => Ok cl
  | TStartYear z =>
      Ok (mkCommandLine (opt_variables cl) (opt_aggregation cl) (opt_format cl)
                        (opt_no_validation cl) (opt_rebuild_index cl)
                        (Some z) (opt_end_year cl))
  | TEndYear z =>
      Ok (mkCommandLine (opt_variables cl) (opt_aggregation cl) (opt_format cl)
                        (opt_no_validation cl) (opt_rebuild_index cl)
                        (opt_start_year cl) (Some z))
  | THelp => Err (SystemExit 0)
  | TRefused => Err (SystemExit 2)
  end.

Fixpoint read_argv (argv : list Token) (cl : CommandLine)
  : Result CommandLine :=
  match argv with
  | [] => Ok cl
  | tok :: rest => rbind (read_token cl tok) (read_argv rest)
  end.

Definition no_options : CommandLine :=
  mkCommandLine None None None false false None None.

(** [main()] as the interpreter runs it, on the tokens of [sys.argv]. *)
Definition main_from_argv {R : Reducers} (argv : list Token) : M unit :=
  cl <- lift (read_argv argv no_options) ;;
  main cl.

(* ================================================================== *)
(** * A reference instance of the reductions *)
(* ================================================================== *)

(** Textbook reductions over the non-missing values, in double precision
    and in the order of the rows.  They make the tables computable in
    examples; no theorem below depends on them beyond an example. *)

Definition skipna (l : list float) : list float :=
  filter (fun x => negb (PrimFloat.is_nan x)) l.

Definition fsum (l : list float) : float := fold_left PrimFloat.add l 0%float.

Definition fcount (l : list float) : float :=
  fold_left (fun n _ => (n + 1)%float) l 0%float.

Definition fmean (l : list float) : float := (fsum l / fcount l)%float.

Definition fmin (l : list float) : float :=
  match l with
  | [] => nan
  | x :: l' => fold_left (fun m y => if PrimFloat.ltb y m then y else m) l' x
  end.

Definition fmax (l : list float) : float :=
  match l with
  | [] => nan
  | x :: l' => fold_left (fun m y => if PrimFloat.ltb m y then y else m) l' x
  end.

Definition fmedian (l : list float) : float :=
  let s := isort PrimFloat.leb l in
  let n := List.length s in
  match n with
  | O => nan
  | _ =>
      if Nat.even n
      then ((nth (n / 2 - 1) s nan + nth (n / 2) s nan) / 2)%float
      else nth (n / 2) s nan
  end.

Definition fstd (l : list float) : float :=
  match l with
  | [] | [_] => nan
  | _ =>
      let m := fmean l in
      PrimFloat.sqrt
        (fsum (map (fun x => ((x - m) * (x - m))%float) l)
         / (fcount l - 1))%float
  end.

#[export] Instance textbook_reducers : Reducers := {|
  reduce s l :=
    let v := skipna l in
    match s with
    | Mean => fmean v
    | Std => fstd v
    | Min => fmin v
    | Max => fmax v
    | Median => fmedian v
    end
|}.

(* ================================================================== *)
(** * Specification vocabulary and example inputs *)
(* ================================================================== *)

(** The absolute difference of a grid value and a coordinate as the
    source measures it: the double [np.abs(g - x)].  Every comparison
    below is the comparison of doubles. *)
Definition distance (g x : float) : float := abs (g - x)%float.

(** [p] is the first position of [l] that holds its minimum: no element
    is smaller, and no earlier element is as small. *)
Definition first_min (l : list float) (p : nat) : Prop :=
  exists x, nth_error l p = Some x
    /\ (forall k y, nth_error l k = Some y -> (y <? x)%float = false)
    /\ (forall k y, (k < p)%nat -> nth_error l k = Some y ->
                    (y <=? x)%float = false).

(** The positions of [grid] within [tol] of [x], as the source computes
    them. *)
Definition candidates (grid : list float) (x tol : float) : list nat :=
  np_where (map (fun d => (d <? tol)%float) (abs_diff grid x)).

(** [r] is a position of [grid] within [tol] of [x], nearest to [x] (no
    grid value is nearer), and the lowest such position (no lower
    position is as near). *)
Definition axis_nearest (grid : list float) (x tol : float) (r : nat) : Prop :=
  exists g, nth_error grid r = Some g
    /\ (distance g x <? tol)%float = true
    /\ (forall i gi, nth_error grid i = Some gi ->
                     (distance gi x <? distance g x)%float = false)
    /\ (forall i gi, (i < r)%nat -> nth_error grid i = Some gi ->
                     (distance gi x <=? distance g x)%float = false).

(** Three grid values 1/128 degree apart: finer than the tolerance, so a
    coordinate has several candidates. *)
Definition fine_axis : list float := [0; 0.0078125; 0.015625]%float.

(** The cell the loop of [build_spatial_index] computes for one row. *)
Definition cell_of (a : Accession) (grid_lats grid_lons : list float)
  : option Cell :=
  find_nearest_grid_cell (acc_lat a) (acc_lon a) grid_lats grid_lons
                         SPATIAL_TOLERANCE.

(** The cell of the last row of [rows] that carries [id] and has a cell. *)
Fixpoint last_indexed (rows : list Accession)
    (grid_lats grid_lons : list float) (id : string) : option Cell :=
  match rows with
  | [] => None
  | a :: rows' =>
      match last_indexed rows' grid_lats grid_lons id with
      | Some c => Some c
      | None =>
          if String.eqb (acc_id a) id then cell_of a grid_lats grid_lons
          else None
      end
  end.

(** Some value of [grid] is within the configured tolerance of [x]. *)
Definition within_tolerance (grid : list float) (x : float) : Prop :=
  exists i g, nth_error grid i = Some g
              /\ (distance g x <? SPATIAL_TOLERANCE)%float = true.

(** The rows [dropna] keeps. *)
Definition has_coordinates (r : AccessionRow) : bool :=
  negb (isna (latitude r)) && negb (isna (longitude r)).

(** The source [build_spatial_index] reads the grid from: the one of
    [CLIMATE_VARIABLES[0]]. *)
Definition sample_url : string := TERRACLIMATE_URL "aet".

(** What is asked of an index and a failure list after indexing [rows]:
    every accession is on exactly one side. *)
Definition partitioned (rows : list Accession)
    (grid_lats grid_lons : list float)
    (idx : SpatialIndex) (failed : list string) : Prop :=
  forall a, In a rows ->
    (within_tolerance grid_lats (acc_lat a)
     /\ within_tolerance grid_lons (acc_lon a)
     /\ (exists c, dict_get idx (acc_id a) = Some c)
     /\ ~ In (acc_id a) failed)
    \/ (~ (within_tolerance grid_lats (acc_lat a)
           /\ within_tolerance grid_lons (acc_lon a))
        /\ dict_get idx (acc_id a) = None
        /\ In (acc_id a) failed).

(** [cache_file.exists()] *)
Definition cache_present (w : World) : bool :=
  match cache_file w with Some _ => true | None => false end.

(** The world after a rebuild that indexed [idx] and failed on [failed]. *)
Definition world_after_rebuild (use_cache : bool) (w : World)
    (idx : SpatialIndex) (failed : list string) : World :=
  let w1 := emit w (EvOpenDataset sample_url) in
  let w2 := match failed with
            | [] => w1
            | _ => emit w1 (EvFailedAccessions failed)
            end in
  if use_cache then emit (set_cache w2 (Some (Pickled idx))) EvCacheWrite
  else w2.

(** A one-cell grid served for the sample variable. *)
Definition unit_grid_dataset : Dataset :=
  mkDataset [0%float] [0%float] [mkTime 1958 1] [].

(** A fresh world: the catalog [rows], no cache, the one-cell grid. *)
Definition world_of_catalog (rows : list AccessionRow) : World :=
  mkWorld (Some rows) None [(sample_url, unit_grid_dataset)] None None [] [].

(** The same id on a row at the grid cell and on a row ten degrees away. *)
Definition duplicate_id_catalog : list AccessionRow :=
  [mkRow "A" (Some 0%float) (Some 0%float);
   mkRow "A" (Some 10%float) (Some 10%float)].

(** One id on four rows: at the first grid latitude, without a latitude,
    at the second grid latitude, and ten degrees away. *)
Definition two_row_axis : list float := [0; 1 / 24]%float.

Definition repeated_id_catalog : list AccessionRow :=
  [mkRow "A" (Some 0%float) (Some 0%float);
   mkRow "A" None (Some 0%float);
   mkRow "A" (Some (1 / 24)%float) (Some 0%float);
   mkRow "A" (Some 10%float) (Some 0%float)].

Definition repeated_id_world : World :=
  mkWorld (Some repeated_id_catalog) None
          [(sample_url, mkDataset two_row_axis [0%float] [mkTime 1958 1] [])]
          None None [] [].

(** Two accessions, the second one out of reach of the grid. *)
Definition two_point_catalog : list AccessionRow :=
  [mkRow "A" (Some 0.0078125%float) (Some 0%float);
   mkRow "B" (Some 10%float) (Some 0%float)].

(** What the [try] block yields for [var], as a function of the server and
    of the year range alone. *)
Definition outcome (server : PyDict Dataset) (start_year end_year : option Z)
    (var : string) (spatial_index : SpatialIndex) (sequential : bool)
  : Result LongTable :=
  match dict_get server (TERRACLIMATE_URL var) with
  | Some ds =>
      if sequential
      then extract_from_dataset ds var spatial_index start_year end_year
      else extract_from_dataset ds var spatial_index None None
  | None => Err (OSError (TERRACLIMATE_URL var))
  end.

(** A result that, when it is an error, is one [except Exception]
    catches. *)
Definition catchable {A} (r : Result A) : Prop :=
  forall e, r = Err e -> is_Exception e = true.

(** A source of [tmax] with one cell and two time steps. *)
Definition tmax_dataset : Dataset :=
  mkDataset [0%float] [0%float] [mkTime 1958 1; mkTime 1958 2]
            [("tmax", mkArray (Time, Lat, Lon) [[[21%float]]; [[23%float]]])].

(** A server that has [tmax] but not the sample variable [aet]; no cache
    yet. *)
Definition world_without_aet : World :=
  mkWorld (Some two_point_catalog) None
          [(TERRACLIMATE_URL "tmax", tmax_dataset)] None None [] [].

(** The same catalog, with the grid served under [aet] and only [tmax]
    missing. *)
Definition world_without_tmax : World :=
  mkWorld (Some two_point_catalog) None
          [(sample_url,
            mkDataset [0%float] [0%float] [mkTime 1958 1]
                      [("aet", mkArray (Time, Lat, Lon) [[[5%float]]])])]
          None None [] [].

(** The dictionary, the log lines and the events the loop of
    [extract_all_variables] produces from the outcome of each variable. *)
Definition collect (out : string -> Result LongTable) (vars : list string)
    (results : PyDict LongTable) : PyDict LongTable :=
  fold_left (fun d v => match out v with
                        | Ok df => dict_set d v df
                        | Err _ => d
                        end) vars results.

Definition logged (out : string -> Result LongTable) (vars : list string)
  : list (string * string) :=
  flat_map (fun v => match out v with
                     | Ok _ => []
                     | Err e => [(v, error_message e)]
                     end) vars.

Definition traced (out : string -> Result LongTable) (vars : list string)
  : list Event :=
  flat_map (fun v => EvOpenDataset (TERRACLIMATE_URL v)
                     :: match out v with
                        | Ok _ => []
                        | Err e => [EvExtractionError v e]
                        end) vars.

(** The keys of the rows of a table. *)
Definition long_keys (t : LongTable) : list Key := map fst (lt_rows t).

Definition wide_keys (df : WideFrame) : list Key := map fst (wf_rows df).

(** The cell a merged row may hold for one input table: a value the table
    has under the row's key, or NaN when the table lacks the key. *)
Definition cell_from (k : Key) (vt : string * LongTable) (x : float) : Prop :=
  In (k, x) (lt_rows (snd vt)) \/ (~ In k (long_keys (snd vt)) /\ x = nan).

(** Every table of the mapping carries the column of its variable. *)
Definition columns_named (vd : PyDict LongTable) : Prop :=
  Forall (fun vt => lt_var (snd vt) = fst vt) vd.

(** Three tables: the key (A, 1958, 2) is in the table of [ppt] only, the
    key (C, 1958, 1) in the table of [aet] only. *)
Definition example_tables : PyDict LongTable :=
  [("ppt", mkLong "ppt" [(("A", 1958%Z, 1%Z), 100%float);
                         (("A", 1958%Z, 2%Z), 80%float);
                         (("B", 1958%Z, 1%Z), 5%float)]);
   ("aet", mkLong "aet" [(("A", 1958%Z, 1%Z), 40%float);
                         (("C", 1958%Z, 1%Z), 7%float)]);
   ("pet", mkLong "pet" [(("A", 1958%Z, 1%Z), 50%float)])].

(** What holds of the frame after the tables [done] have been merged. *)
Definition merged (done : PyDict LongTable) (df : WideFrame) : Prop :=
  wf_columns df = dict_keys done
  /\ (forall k cells, In (k, cells) (wf_rows df) ->
                      Forall2 (cell_from k) done cells)
  /\ (forall k, In k (wide_keys df)
                <-> exists vt, In vt done /\ In k (long_keys (snd vt))).

(** Every row holds one cell per value column. *)
Definition rectangular (df : WideFrame) : Prop :=
  forall r, In r (wf_rows df) -> List.length (snd r) = List.length (wf_columns df).

(** One guarded assignment of [add_derived_climate_indices]. *)
Definition derive (name a b : string) (f : float -> float -> float)
    (df : WideFrame) : WideFrame :=
  if has_column (wf_columns df) a && has_column (wf_columns df) b
  then assign df name
         (fun r => f (cell (wf_columns df) r a) (cell (wf_columns df) r b))
  else df.

(** Whether [add_derived_climate_indices] assigns column [n] on a frame
    with the columns [cols]. *)
Definition assigned (cols : list string) (n : string) : bool :=
  (String.eqb n "aridity_index"
   && has_column cols "pet" && has_column cols "ppt")
  || (String.eqb n "water_balance"
      && has_column cols "ppt" && has_column cols "aet")
  || (String.eqb n "temp_range"
      && has_column cols "tmax" && has_column cols "tmin")
  || (String.eqb n "moisture_availability"
      && has_column cols "soil" && has_column cols "def").

(** One row with ppt=100, aet=40, pet=50, tmax=30, tmin=10. *)
Definition climate_row : Key * list float :=
  (("A", 1958%Z, 1%Z), [100; 40; 50; 30; 10]%float).

Definition climate_frame : WideFrame :=
  mkWide ["ppt"; "aet"; "pet"; "tmax"; "tmin"] [climate_row].

(** The double the literal [100.1] denotes. *)
Definition hundred_point_one : float := 0x1.9066666666666p+6%float.

(** A frame that already has a column named like a derived index. *)
Definition frame_with_water_balance : WideFrame :=
  mkWide ["ppt"; "aet"; "water_balance"]
         [(("A", 1958%Z, 1%Z), [100; 40; 999]%float)].

(** How one guarded assignment relates an input row to its output row. *)
Definition derive_row (name a b : string) (f : float -> float -> float)
    (cols cols' : list string) (r r' : Key * list float) : Prop :=
  fst r' = fst r
  /\ forall n,
       cell cols' (snd r') n
       = if has_column cols a && has_column cols b && String.eqb n name
         then f (cell cols (snd r) a) (cell cols (snd r) b)
         else cell cols (snd r) n.

(** The cell of column [n] in a row of [add_derived_climate_indices df],
    from the cells of the input row. *)
Definition derived_cell (cols : list string) (cells : list float) (n : string)
  : float :=
  if String.eqb n "aridity_index"
     && has_column cols "pet" && has_column cols "ppt"
  then (cell cols cells "pet" / (cell cols cells "ppt" + point_one))%float
  else if String.eqb n "water_balance"
          && has_column cols "ppt" && has_column cols "aet"
  then (cell cols cells "ppt" - cell cols cells "aet")%float
  else if String.eqb n "temp_range"
          && has_column cols "tmax" && has_column cols "tmin"
  then (cell cols cells "tmax" - cell cols cells "tmin")%float
  else if String.eqb n "moisture_availability"
          && has_column cols "soil" && has_column cols "def"
  then (cell cols cells "soil" - cell cols cells "def")%float
  else cell cols cells n.

(** The grouping keys of the three aggregation modes. *)
Definition point_key (k : Key) : option (list Scalar) :=
  let '(i, y, m) := k in Some [SStr i].

Definition year_key (k : Key) : option (list Scalar) :=
  let '(i, y, m) := k in Some [SStr i; SInt y].

Definition season_key (k : Key) : option (list Scalar) :=
  let '(i, y, m) := k in
  match season_map m with
  | Some s => Some [SStr i; SInt y; SStr s]
  | None => None
  end.

Definition keyed_by (key : Key -> option (list Scalar)) (df : WideFrame)
  : list (option (list Scalar) * list float) :=
  map (fun r => (key (fst r), snd r)) (wf_rows df).

(** The rows of group [g]. *)
Definition members (g : list Scalar)
    (keyed : list (option (list Scalar) * list float)) : list (list float) :=
  map snd (filter (fun r => match fst r with
                            | Some g' => group_eqb g' g
                            | None => false
                            end) keyed).

(** [out] has one row per group of [keyed]; its columns are the grouping
    columns and then, for every variable of [vars] once, one column per
    statistic of [stats]; and each such cell is that statistic of the
    variable over the rows of the group. *)
Definition grouped_statistics {R : Reducers} (stats : list Stat)
    (cols vars group_cols : list string)
    (keyed : list (option (list Scalar) * list float)) (out : AggFrame)
  : Prop :=
  exists order,
    NoDup order
    /\ (forall v, In v order <-> In v vars)
    /\ agg_columns out
       = group_cols
         ++ flat_map (fun v => map (fun s => flatten_column (v, stat_name s))
                                   stats) order
    /\ NoDup (map fst (agg_rows out))
    /\ (forall g, In g (map fst (agg_rows out))
                  <-> exists cells, In (Some g, cells) keyed)
    /\ (forall g cells, In (g, cells) (agg_rows out) ->
          cells = flat_map (fun v =>
                    map (fun s => reduce s (map (fun c => cell cols c v)
                                                (members g keyed)))
                        stats) order).

(** The column names of a result of [prepare_for_gwas]: the flattened
    names of an aggregated table, the key and value columns of a monthly
    one. *)
Definition table_columns (r : Result GwasTable) : list string :=
  match r with
  | Ok (Aggregated out) => agg_columns out
  | Ok (Monthly df) => ["accession_id"; "year"; "month"] ++ wf_columns df
  | Err _ => []
  end.

(** One variable, two points, two seasons. *)
Definition ppt_tables : PyDict LongTable :=
  [("ppt", mkLong "ppt" [(("A", 1958%Z, 1%Z), 100%float);
                         (("A", 1958%Z, 7%Z), 80%float);
                         (("B", 1958%Z, 1%Z), 5%float)])].

(** A mapping whose only variable bears the name [season], which
    [prepare_for_gwas] does not count among the climate columns. *)
Definition season_tables : PyDict LongTable :=
  [("season", mkLong "season" [(("A", 1958%Z, 1%Z), 1%float)])].

(** Lines 233-245 of [prepare_for_gwas]: the merged frame, with the derived
    indices when asked for. *)
Definition prepared (variable_data : PyDict LongTable) (add_derived : bool)
  : Result WideFrame :=
  rbind (merge_variables_wide_format variable_data) (fun df =>
    Ok (if add_derived then add_derived_climate_indices df else df)).

(** The merge of [ppt_tables]. *)
Definition ppt_frame : WideFrame :=
  mkWide ["ppt"] [(("A", 1958%Z, 1%Z), [100%float]);
                  (("A", 1958%Z, 7%Z), [80%float]);
                  (("B", 1958%Z, 1%Z), [5%float])].

(** A run that asks for the unknown mode [weekly]. *)
Definition weekly_args : Args :=
  mkArgs (Some "aet") "weekly" "parquet" false false true None None.

Definition weekly_command_line : CommandLine :=
  mkCommandLine (Some "aet") (Some "weekly") None false false None None.

(** Two indexed points on neighbouring cells of a source stored in the
    order (time, lat, lon), with two time steps. *)
Definition two_cell_index : SpatialIndex :=
  [("A", (0%nat, 0%nat)); ("B", (0%nat, 1%nat))].

Definition time_first_dataset : Dataset :=
  mkDataset [0%float] [0; 1 / 24]%float
            [mkTime 1958 1; mkTime 1958 2]
            [("tmax", mkArray (Time, Lat, Lon)
                              [[[1; 2]]; [[3; 4]]]%float)].

Definition time_first_world : World :=
  mkWorld None None [(TERRACLIMATE_URL "tmax", time_first_dataset)]
          None None [] [].

(* ================================================================== *)
(** * spatial_index.py: the header of the accession file *)
(* ================================================================== *)

(** [load_accessions] above reads a file that carries the three expected
    columns.  Here are lines 28-41 of spatial_index.py on whatever frame
    [pd.read_csv] returns: a cell is a number, a string or missing, and
    every row has one cell per column. *)
Inductive CsvCell : Type :=
| CNum (x : float)
| CStr (s : string)
| CMissing.

Record CsvFrame : Type := mkCsv {
  csv_columns : list string;
  csv_rows : list (list CsvCell)
}.

Definition expected_cols : list string :=
  ["CS_number"; "latitude"; "longitude"].

(** [row[name]] *)
Fixpoint csv_get (cols : list string) (cells : list CsvCell) (name : string)
  : option CsvCell :=
  match cols, cells with
  | c :: cols', x :: cells' =>
      if String.eqb c name then Some x else csv_get cols' cells' name
  | _, _ => None
  end.

Definition is_missing (c : option CsvCell) : bool :=
  match c with
  | Some CMissing => true
  | Some (CNum x) => is_nan x
  | _ => false
  end.

(** [df.columns = new_columns]: the lengths must agree (the message goes
    on with the two lengths). *)
Definition set_columns (df : CsvFrame) (new_columns : list string)
  : Result CsvFrame :=
  if (List.length new_columns =? List.length (csv_columns df))%nat
  then Ok (mkCsv new_columns (csv_rows df))
  else Err (ValueError "Length mismatch").

(** [df.dropna(subset=subset)]: a label of [subset] that is no column is
    a KeyError; otherwise the rows with a missing cell under one of the
    labels go. *)
Definition dropna_subset (subset : list string) (df : CsvFrame)
  : Result CsvFrame :=
  match find (fun c => negb (has_column (csv_columns df) c)) subset with
  | Some c => Err (KeyError c)
  | None =>
      Ok (mkCsv (csv_columns df)
            (filter (fun cells =>
                       forallb (fun c => negb (is_missing
                                                 (csv_get (csv_columns df) cells c)))
                               subset)
                    (csv_rows df)))
  end.

(** The body of [load_accessions] after [pd.read_csv]. *)
Definition load_accessions_frame (df : CsvFrame) : Result CsvFrame :=
  rbind
    (if negb (forallb (has_column (csv_columns df)) expected_cols) then
       if (3 <=? List.length (csv_columns df))%nat
       then set_columns df (firstn (List.length (csv_columns df)) expected_cols)
       else Ok df
     else Ok df)
    (dropna_subset ["latitude"; "longitude"]).

(* ================================================================== *)
(** * validate.py *)
(* ================================================================== *)

(** The fields of the report of [check_temporal_coverage] that are
    computed from the table. *)
Record CoverageReport : Type := mkCoverage {
  min_year : Z;
  max_year : Z;
  expected_months : Z;
  accessions_with_complete_coverage : nat;
  accessions_with_incomplete_coverage : nat;
  incomplete_accessions : PyDict nat
}.

Definition year_month_eq_dec (a b : Z * Z) : {a = b} + {a <> b}.
Proof. decide equality; apply Z.eq_dec. Defined.

(** [df.groupby('accession_id').apply(lambda x:
    len(x[['year', 'month']].drop_duplicates()))]: for every point of the
    table, in sorted order, the number of its distinct (year, month)
    pairs. *)
Definition coverage (rows : list (Key * float)) : PyDict nat :=
  map (fun id =>
         (id,
          List.length
            (nodup year_month_eq_dec
               (map (fun r => (snd (fst (fst r)), snd (fst r)))
                    (filter (fun r => String.eqb (fst (fst (fst r))) id)
                            rows)))))
      (isort String.leb (nodup string_dec (map (fun r => fst (fst (fst r))) rows))).

(** [check_temporal_coverage(df)] on a table of the extraction, which has
    the columns [year] and [month].  The expected number of months is at
    least 12 on a table with rows, so the branch for a falsy
    [expected_months] is not taken; on a table without rows the minimum
    of the years is NaN and its conversion to [int] raises. *)
Definition check_temporal_coverage (df : LongTable) : Result CoverageReport :=
  let cov := coverage (lt_rows df) in
  match map (fun r => snd (fst (fst r))) (lt_rows df) with
  | [] => Err (ValueError "cannot convert float NaN to integer")
  | y :: years =>
      let min_year := fold_left Z.min years y in
      let max_year := fold_left Z.max years y in
      let expected_months := ((max_year - min_year + 1) * 12)%Z in
      let incomplete :=
        filter (fun c => (Z.of_nat (snd c) <? expected_months)%Z) cov in
      Ok (mkCoverage min_year max_year expected_months
            (List.length
               (filter (fun c => (Z.of_nat (snd c) =? expected_months)%Z) cov))
            (List.length incomplete)
            incomplete)
  end.

(* ================================================================== *)
(** * Further vocabulary and example inputs *)
(* ================================================================== *)

(** Throughout, a variable is the name of a climate variable: a table
    keeps its value column apart from the key columns [accession_id],
    [year] and [month], so a variable named like one of these is outside
    the model. *)

(** Some value of [grid] is within [tol] of [x]. *)
Definition reachable (grid : list float) (x tol : float) : Prop :=
  exists i g, nth_error grid i = Some g /\ (distance g x <? tol)%float = true.

(** A cache left by an earlier run, for an accession that is not in the
    catalog any more. *)
Definition stale_cache_world : World :=
  mkWorld (Some two_point_catalog) (Some (Pickled [("Z", (0%nat, 0%nat))]))
          [(sample_url,
            mkDataset [0%float] [0%float] [mkTime 1958 1]
                      [("aet", mkArray (Time, Lat, Lon) [[[5%float]]])])]
          None None [] [].

(** The typed row that the cells of a frame with the expected columns
    stand for. *)
Definition coordinate (c : CsvCell) : option (option float) :=
  match c with
  | CNum x => Some (Some x)
  | CMissing => Some None
  | CStr _ => None
  end.

Definition accession_row (cells : list CsvCell) : option AccessionRow :=
  match cells with
  | [CStr id; la; lo] =>
      match coordinate la, coordinate lo with
      | Some la', Some lo' => Some (mkRow id la' lo')
      | _, _ => None
      end
  | _ => None
  end.

(** A file with other headers, in three and in four columns. *)
Definition three_column_file : CsvFrame :=
  mkCsv ["id"; "lat"; "lon"]
        [[CStr "A"; CNum 0; CNum 0]; [CStr "B"; CMissing; CNum 1]].

Definition four_column_file : CsvFrame :=
  mkCsv ["id"; "lat"; "lon"; "name"]
        [[CStr "A"; CNum 0; CNum 0; CStr "Col-0"]].

(** The test of the year filter of [extract_variable_sequential]. *)
Definition in_year_range (start_year end_year : option Z) (t : Timestamp)
  : bool :=
  (match start_year with Some s => (s <=? year t)%Z | None => true end)
  && (match end_year with Some e => (year t <=? e)%Z | None => true end).

(** The time steps the filter keeps. *)
Definition kept_times (start_year end_year : option Z)
    (times : list Timestamp) : list Timestamp :=
  filter (in_year_range start_year end_year) times.

(** The keys of the rows of one point: one per time step. *)
Definition point_keys (id : string) (times : list Timestamp) : list Key :=
  map (fun t => (id, year t, month t)) times.

(** A source of [tmax] over three years, on a grid of two cells. *)
Definition three_year_array : DataArray :=
  mkArray (Time, Lat, Lon) [[[1; 2]]; [[3; 4]]; [[5; 6]]]%float.

Definition three_year_dataset : Dataset :=
  mkDataset [0%float] [0; 1 / 24]%float
            [mkTime 1958 12; mkTime 1959 1; mkTime 1960 1]
            [("tmax", three_year_array)].

Definition three_year_world : World :=
  mkWorld None None [(TERRACLIMATE_URL "tmax", three_year_dataset)]
          None None [] [].

(** The same catalog and sources, with the index already in the cache. *)
Definition cached_world_without_tmax : World :=
  set_cache world_without_tmax (Some (Pickled [("A", (0%nat, 0%nat))])).

(** The three-year source and a cached index, with the range 1959-1959
    configured. *)
Definition ranged_world : World :=
  mkWorld None (Some (Pickled two_cell_index))
          [(TERRACLIMATE_URL "tmax", three_year_dataset)]
          (Some 1959%Z) (Some 1959%Z) [] [].

(** The grouping key of the period [quarter]. *)
Definition quarter_key (k : Key) : option (list Scalar) :=
  let '(i, y, m) := k in Some [SStr i; SInt y; SInt ((m - 1) / 3 + 1)].

Definition valid_month (m : Z) : bool := ((1 <=? m) && (m <=? 12))%Z.

(** A year and month that [pd.to_datetime] assembles into a timestamp:
    a calendar month of a year that nanosecond timestamps reach. *)
Definition valid_date (k : Key) : bool :=
  let '(i, y, m) := k in
  ((1678 <=? y) && (y <=? 2261))%Z && valid_month m.

(** The merged frame of [ppt_tables] with a thirteenth month added. *)
Definition frame_with_month_13 : WideFrame :=
  mkWide ["ppt"] [(("A", 1958%Z, 1%Z), [100%float]);
                  (("A", 1958%Z, 13%Z), [80%float])].

(** Lines 116-120 of [main]: the year range after the command line has
    been applied. *)
Definition override_years (args : Args) (w : World) : World :=
  set_years w
    (if truthy (args_start_year args) then args_start_year args
     else START_YEAR w)
    (if truthy (args_end_year args) then args_end_year args
     else END_YEAR w).

(** A run for [tmax] alone, and the same run from the year 1959 on. *)
Definition tmax_command_line : CommandLine :=
  mkCommandLine (Some "tmax") None None false false None None.

Definition start_year_command_line : CommandLine :=
  mkCommandLine (Some "tmax") None None false false (Some 1959%Z) None.


(** Lines 122-128: the variables asked for, [None] for all of them. *)
Definition requested_variables (args : Args) : option (list string) :=
  match args_variables args with
  | Some s => if String.eqb s "" then None
              else Some (map strip (split_commas s))
  | None => None
  end.

(** Lines 176-180: the name of the final table. *)
Definition output_name (args : Args) : string :=
  if String.eqb (args_aggregation args) "summary"
  then "climate_data_for_gwas"
  else "climate_data_" ++ args_aggregation args.

(** The tables saved so far by [save_dataframe]: base name and format,
    in order. *)
Definition saved (w : World) : list (string * string) :=
  flat_map (fun ev => match ev with
                      | EvSave name format => [(name, format)]
                      | _ => []
                      end) (events w).

(** The files one call of [save_dataframe] writes. *)
Definition files (name format : string) : list (string * string) :=
  (if String.eqb format "parquet" || String.eqb format "both"
   then [(name, "parquet")] else [])
  ++ (if String.eqb format "csv" || String.eqb format "both"
      then [(name, "csv")] else []).

(** Lines 151-188: the world after validation and saving, from the one
    extraction left. *)
Definition after_saving (args : Args) (variable_data : PyDict LongTable)
    (w : World) : World :=
  snd (((if args_no_validation args then ret tt
         else validate_extraction variable_data) ;;;
        save_dataframe (output_name args) (args_format args) ;;;
        (if String.eqb (args_aggregation args) "monthly"
         then save_each variable_data (args_format args) else ret tt)) w).

(** A command line for the monthly table of [aet] and [tmax], in both
    formats. *)
Definition monthly_command_line : CommandLine :=
  mkCommandLine (Some "aet, tmax") (Some "monthly") (Some "both")
                false false None None.

(** Strings of blanks, strings without a comma, and names: not empty,
    without a comma, with a visible character at either end. *)
Definition visible (c : ascii) : bool :=
  let n := nat_of_ascii c in (33 <=? n)%nat && (n <=? 126)%nat.

Fixpoint blank (s : string) : bool :=
  match s with
  | EmptyString => true
  | String c s' => is_space c && blank s'
  end.

Fixpoint comma_free (s : string) : bool :=
  match s with
  | EmptyString => true
  | String c s' => negb (Ascii.eqb c ","%char) && comma_free s'
  end.

Fixpoint ends_tight (s : string) : bool :=
  match s with
  | EmptyString => false
  | String c EmptyString => visible c
  | String c s' => ends_tight s'
  end.

Definition starts_tight (s : string) : bool :=
  match s with
  | EmptyString => false
  | String c _ => visible c
  end.

Definition variable_name (s : string) : bool :=
  comma_free s && starts_tight s && ends_tight s.

(** A name as it may be typed between two commas: with blanks around. *)
Definition padded (token name : string) : Prop :=
  exists l r, blank l = true /\ blank r = true /\ token = (l ++ name ++ r)%string.

(** The calendar months of the years [lo] to [hi]. *)
Definition calendar (lo hi : Z) : list (Z * Z) :=
  list_prod (map (fun k => (lo + Z.of_nat k)%Z) (seq 0 (Z.to_nat (hi - lo + 1))))
            (map Z.of_nat (seq 1 12)).

(** Point A has every month of 1958 and 1959 but one; point B has a
    single month. *)
Definition coverage_table : LongTable :=
  mkLong "ppt"
    (map (fun m => (("A", 1958%Z, m), 1%float))
         [1; 2; 3; 4; 5; 6; 7; 8; 9; 10; 11; 12]%Z
     ++ map (fun m => (("A", 1959%Z, m), 1%float))
            [1; 2; 3; 4; 5; 6; 7; 8; 9; 10; 11]%Z
     ++ [(("B", 1958%Z, 1%Z), 1%float)]).

(** A cache file that [pickle.load] rejects, beside a readable catalog
    and sample source. *)
Definition corrupt_cache_world : World :=
  set_cache stale_cache_world (Some Corrupt).

(** A command line that asks for a rebuild of the index. *)
Definition rebuild_command_line : CommandLine :=
  mkCommandLine (Some "aet") None None false true None None.

(** Two variables served over the same three years, with the index in
    the cache. *)
Definition two_variable_world : World :=
  mkWorld None (Some (Pickled two_cell_index))
          [(TERRACLIMATE_URL "tmax", three_year_dataset);
           (TERRACLIMATE_URL "tmin",
            mkDataset [0%float] [0; 1 / 24]%float
                      [mkTime 1958 12; mkTime 1959 1; mkTime 1960 1]
                      [("tmin", mkArray (Time, Lat, Lon)
                                        [[[0; 1]]; [[2; 3]]; [[4; 5]]]%float)])]
          None None [] [].

(* ================================================================== *)
(** * Verification *)
(* ================================================================== *)

(* ------------------------------------------------------------------ *)
(** ** Facts about spatial_index.py: the nearest grid cell *)

Ltac conjs := repeat match goal with |- _ /\ _ => split end.

(** The comparisons of doubles, through their specification [SFcompare]:
    [<] and [<=] order the values that are not NaN. *)
Section FloatOrder.

Ltac sf_cases :=
  repeat match goal with
         | s : bool |- _ => destruct s
         end;
  simpl in *; try congruence;
  repeat match goal with
         | |- context [(?a ?= ?b)%Z] => destruct (Z.compare_spec a b)
         | H : context [(?a ?= ?b)%Z] |- _ => destruct (Z.compare_spec a b)
         | |- context [PosDef.Pos.compare_cont Eq ?a ?b] =>
             change (PosDef.Pos.compare_cont Eq a b) with (Pos.compare a b);
             destruct (Pos.compare_spec a b)
         | H : context [PosDef.Pos.compare_cont Eq ?a ?b] |- _ =>
             change (PosDef.Pos.compare_cont Eq a b) with (Pos.compare a b) in H;
             destruct (Pos.compare_spec a b)
         end;
  simpl in *; try congruence; try lia.

Lemma SFcompare_lt_trans a b c :
  SFcompare a b = Some Lt -> SFcompare b c = Some Lt -> SFcompare a c = Some Lt.
Proof.
  destruct a as [sa|sa| |sa ma ea], b as [sb|sb| |sb mb eb],
           c as [sc|sc| |sc mc ec]; simpl; intros H1 H2; try congruence;
    sf_cases.
Qed.

Lemma SFcompare_eq_lt_trans a b c :
  SFcompare a b = Some Eq -> SFcompare b c = Some Lt -> SFcompare a c = Some Lt.
Proof.
  destruct a as [sa|sa| |sa ma ea], b as [sb|sb| |sb mb eb],
           c as [sc|sc| |sc mc ec]; simpl; intros H1 H2; try congruence;
    sf_cases.
Qed.

Lemma SFcompare_antisym a b :
  SFcompare b a = option_map CompOpp (SFcompare a b).
Proof.
  destruct a as [sa|sa| |sa ma ea], b as [sb|sb| |sb mb eb]; simpl;
    try reflexivity; sf_cases.
Qed.

Lemma SFcompare_comparable a b :
  SFcompare a a = Some Eq -> SFcompare b b = Some Eq ->
  exists c, SFcompare a b = Some c.
Proof.
  destruct a as [sa|sa| |sa ma ea], b as [sb|sb| |sb mb eb]; simpl;
    intros H1 H2; try discriminate; eauto.
Qed.

Lemma ltb_Lt (x y : float) :
  (x <? y)%float = true <-> SFcompare (Prim2SF x) (Prim2SF y) = Some Lt.
Proof.
  rewrite ltb_spec. unfold SFltb.
  destruct (SFcompare (Prim2SF x) (Prim2SF y)) as [[]|]; split; congruence.
Qed.

Lemma leb_Le (x y : float) :
  (x <=? y)%float = true
  <-> SFcompare (Prim2SF x) (Prim2SF y) = Some Lt
      \/ SFcompare (Prim2SF x) (Prim2SF y) = Some Eq.
Proof.
  rewrite leb_spec. unfold SFleb.
  destruct (SFcompare (Prim2SF x) (Prim2SF y)) as [[]|]; split;
    try tauto; try congruence; intros [H | H]; congruence.
Qed.

Lemma is_nan_Eq (x : float) :
  is_nan x = false <-> SFcompare (Prim2SF x) (Prim2SF x) = Some Eq.
Proof.
  unfold is_nan. rewrite negb_false_iff, eqb_spec. unfold SFeqb.
  destruct (SFcompare (Prim2SF x) (Prim2SF x)) as [[]|]; split; congruence.
Qed.

Lemma ltb_irrefl (x : float) : (x <? x)%float = false.
Proof.
  destruct (x <? x)%float eqn:E; [|reflexivity].
  apply ltb_Lt in E. pose proof (SFcompare_antisym (Prim2SF x) (Prim2SF x)) as H.
  rewrite E in H. discriminate.
Qed.

Lemma ltb_trans (x y z : float) :
  (x <? y)%float = true -> (y <? z)%float = true -> (x <? z)%float = true.
Proof. rewrite !ltb_Lt. apply SFcompare_lt_trans. Qed.

Lemma leb_ltb_trans (x y z : float) :
  (x <=? y)%float = true -> (y <? z)%float = true -> (x <? z)%float = true.
Proof.
  rewrite leb_Le, !ltb_Lt. intros [H | H].
  - apply SFcompare_lt_trans; exact H.
  - apply SFcompare_eq_lt_trans; exact H.
Qed.

Lemma ltb_leb (x y : float) :
  (x <? y)%float = true -> (x <=? y)%float = true.
Proof. rewrite ltb_Lt, leb_Le. auto. Qed.

Lemma ltb_leb_false (x y : float) :
  (x <? y)%float = true -> (y <=? x)%float = false.
Proof.
  intro H. destruct (y <=? x)%float eqn:E; [|reflexivity].
  pose proof (leb_ltb_trans _ _ _ E H) as H'. rewrite ltb_irrefl in H'.
  discriminate.
Qed.

Lemma leb_ltb_false (x y : float) :
  (x <=? y)%float = true -> (y <? x)%float = false.
Proof.
  intro H. destruct (y <? x)%float eqn:E; [|reflexivity].
  rewrite (ltb_leb_false _ _ E) in H. discriminate.
Qed.

Lemma ltb_asym (x y : float) :
  (x <? y)%float = true -> (y <? x)%float = false.
Proof. intro H. apply leb_ltb_false, ltb_leb, H. Qed.

Lemma ltb_not_nan (x y : float) :
  (x <? y)%float = true -> is_nan x = false /\ is_nan y = false.
Proof.
  rewrite ltb_Lt, !is_nan_Eq.
  destruct (Prim2SF x) as [sa|sa| |sa ma ea], (Prim2SF y) as [sb|sb| |sb mb eb];
    simpl; intro H; try discriminate; split; try reflexivity; sf_cases.
Qed.

Lemma leb_total (x y : float) :
  is_nan x = false -> is_nan y = false ->
  (x <=? y)%float = false -> (y <? x)%float = true.
Proof.
  rewrite !is_nan_Eq. intros Hx Hy H. apply ltb_Lt.
  destruct (SFcompare_comparable _ _ Hx Hy) as (c & Hc).
  rewrite SFcompare_antisym, Hc.
  destruct c; simpl; try reflexivity;
    (assert (Hle : (x <=? y)%float = true) by (apply leb_Le; auto));
    congruence.
Qed.

End FloatOrder.

Section NearestCell.

Lemma argmin_from_spec (l : list float) :
  Forall (fun y => is_nan y = false) l ->
  forall bi bv i, is_nan bv = false ->
    (argmin_from bi bv i l = bi
     /\ forall k y, nth_error l k = Some y -> (y <? bv)%float = false)
    \/ (exists k x, argmin_from bi bv i l = (i + k)%nat
          /\ nth_error l k = Some x /\ (x <? bv)%float = true
          /\ (forall k' y, nth_error l k' = Some y -> (y <? x)%float = false)
          /\ (forall k' y, (k' < k)%nat -> nth_error l k' = Some y
                           -> (y <=? x)%float = false)).
Proof.
  induction l as [|x0 l IH]; intros Hall bi bv i Hbv; simpl.
  - left. split; [reflexivity|]. intros [|k] y H; discriminate.
  - inversion Hall as [|? ? Hx0 Hl]; subst. rewrite Hbv.
    destruct (bv <=? x0)%float eqn:E.
    + destruct (IH Hl bi bv (S i) Hbv)
        as [[Hp Hmin] | (k & x & Hp & Hk & Hlt & Hmin & Hfst)].
      * left. split; [exact Hp|].
        intros [|k'] y Hy; simpl in Hy.
        -- injection Hy as <-. apply leb_ltb_false. exact E.
        -- eauto.
      * right. exists (S k), x. rewrite Hp.
        split; [lia|]. split; [exact Hk|]. split; [exact Hlt|]. split.
        -- intros [|k'] y Hy; simpl in Hy.
           ++ injection Hy as <-. destruct (x0 <? x)%float eqn:E'; [|reflexivity].
              pose proof (ltb_trans _ _ _ E' Hlt) as H.
              rewrite (leb_ltb_false _ _ E) in H. discriminate.
           ++ eauto.
        -- intros [|k'] y Hk' Hy; simpl in Hy.
           ++ injection Hy as <-. destruct (x0 <=? x)%float eqn:E'; [|reflexivity].
              pose proof (leb_ltb_trans _ _ _ E' Hlt) as H.
              rewrite (leb_ltb_false _ _ E) in H. discriminate.
           ++ apply (Hfst k'); [lia | assumption].
    + pose proof (leb_total _ _ Hbv Hx0 E) as Hx0lt. right.
      destruct (IH Hl i x0 (S i) Hx0)
        as [[Hp Hmin] | (k & x & Hp & Hk & Hlt & Hmin & Hfst)].
      * exists 0%nat, x0. rewrite Hp, Nat.add_0_r.
        split; [reflexivity|]. split; [reflexivity|]. split; [exact Hx0lt|].
        split.
        -- intros [|k'] y Hy; simpl in Hy.
           ++ injection Hy as <-. apply ltb_irrefl.
           ++ eauto.
        -- intros k' y Hk'. lia.
      * exists (S k), x. rewrite Hp.
        split; [lia|]. split; [exact Hk|].
        split; [eapply ltb_trans; eauto|]. split.
        -- intros [|k'] y Hy; simpl in Hy.
           ++ injection Hy as <-. apply ltb_asym. exact Hlt.
           ++ eauto.
        -- intros [|k'] y Hk' Hy; simpl in Hy.
           ++ injection Hy as <-. apply ltb_leb_false. exact Hlt.
           ++ apply (Hfst k'); [lia | assumption].
Qed.

Lemma np_argmin_first_min (l : list float) :
  Forall (fun y => is_nan y = false) l ->
  l <> [] -> first_min l (np_argmin l).
Proof.
  destruct l as [|x0 l]; [congruence|]. intros Hall _.
  inversion Hall as [|? ? Hx0 Hl]; subst. unfold np_argmin, first_min.
  destruct (argmin_from_spec l Hl 0%nat x0 1%nat Hx0)
    as [[Hp Hmin] | (k & x & Hp & Hk & Hlt & Hmin & Hfst)]; rewrite Hp.
  - exists x0. split; [reflexivity|]. split.
    + intros [|k] y Hy; simpl in Hy.
      * injection Hy as <-. apply ltb_irrefl.
      * eauto.
    + intros k y Hk. lia.
  - exists x. split; [exact Hk|]. split.
    + intros [|k'] y Hy; simpl in Hy.
      * injection Hy as <-. apply ltb_asym. exact Hlt.
      * eauto.
    + intros [|k'] y Hk' Hy; simpl in Hy.
      * injection Hy as <-. apply ltb_leb_false. exact Hlt.
      * apply (Hfst k'); [lia | assumption].
Qed.

(** [np.where] lists exactly the true positions, in increasing order. *)
Lemma np_where_from_sound (mask : list bool) :
  forall s q r, nth_error (np_where_from s mask) q = Some r ->
    exists j, r = (s + j)%nat /\ nth_error mask j = Some true.
Proof.
  induction mask as [|b mask IH]; intros s q r H; simpl in H.
  - destruct q; discriminate.
  - destruct b.
    + destruct q as [|q]; simpl in H.
      * injection H as <-. exists 0%nat. split; [lia | reflexivity].
      * destruct (IH _ _ _ H) as (j & -> & Hj). exists (S j). split; [lia | exact Hj].
    + destruct (IH _ _ _ H) as (j & -> & Hj). exists (S j). split; [lia | exact Hj].
Qed.

Lemma np_where_from_complete (mask : list bool) :
  forall s j, nth_error mask j = Some true ->
    exists q, nth_error (np_where_from s mask) q = Some (s + j)%nat.
Proof.
  induction mask as [|b mask IH]; intros s j H.
  - destruct j; discriminate.
  - destruct j as [|j]; simpl in H.
    + injection H as ->. exists 0%nat. simpl. f_equal. lia.
    + destruct (IH (S s) j H) as (q & Hq).
      replace (s + S j)%nat with (S s + j)%nat by lia.
      simpl. destruct b; [exists (S q) | exists q]; exact Hq.
Qed.

Lemma np_where_from_increasing (mask : list bool) :
  forall s q1 q2 r1 r2, (q1 < q2)%nat ->
    nth_error (np_where_from s mask) q1 = Some r1 ->
    nth_error (np_where_from s mask) q2 = Some r2 -> (r1 < r2)%nat.
Proof.
  induction mask as [|b mask IH]; intros s q1 q2 r1 r2 Hq H1 H2; simpl in *.
  - destruct q1; discriminate.
  - destruct b.
    + destruct q2 as [|q2]; [lia|]. simpl in H2.
      destruct q1 as [|q1]; simpl in H1.
      * injection H1 as <-.
        destruct (np_where_from_sound _ _ _ _ H2) as (j & -> & _). lia.
      * eapply IH; [| exact H1 | exact H2]. lia.
    + eapply IH; eauto.
Qed.

Lemma candidates_sound grid x tol q r :
  nth_error (candidates grid x tol) q = Some r ->
  exists g, nth_error grid r = Some g /\ (distance g x <? tol)%float = true.
Proof.
  unfold candidates, np_where. intro H.
  destruct (np_where_from_sound _ _ _ _ H) as (j & -> & Hj). simpl.
  unfold abs_diff in Hj. rewrite !nth_error_map in Hj.
  destruct (nth_error grid j) as [g|] eqn:Eg; [|discriminate].
  simpl in Hj. injection Hj as Hj. eauto.
Qed.

Lemma candidates_complete grid x tol i g :
  nth_error grid i = Some g -> (distance g x <? tol)%float = true ->
  exists q, nth_error (candidates grid x tol) q = Some i.
Proof.
  intros Hg Hlt. unfold candidates, np_where.
  apply (np_where_from_complete _ 0%nat i).
  unfold abs_diff. rewrite !nth_error_map, Hg. simpl.
  f_equal. exact Hlt.
Qed.

Lemma candidates_increasing grid x tol q1 q2 r1 r2 :
  (q1 < q2)%nat ->
  nth_error (candidates grid x tol) q1 = Some r1 ->
  nth_error (candidates grid x tol) q2 = Some r2 -> (r1 < r2)%nat.
Proof. apply np_where_from_increasing. Qed.

Lemma nearest_candidate grid x tol :
  candidates grid x tol <> [] ->
  axis_nearest grid x tol
    (nth (np_argmin (abs_diff (take_at grid (candidates grid x tol)) x))
         (candidates grid x tol) 0%nat).
Proof.
  set (cs := candidates grid x tol). intro Hne.
  set (f := fun i : nat => distance (nth i grid 0%float) x).
  assert (Hl : abs_diff (take_at grid cs) x = map f cs).
  { unfold abs_diff, take_at. rewrite map_map. reflexivity. }
  rewrite Hl.
  assert (Hne' : map f cs <> []) by (destruct cs; simpl; congruence).
  assert (Hnan : Forall (fun y => is_nan y = false) (map f cs)).
  { apply Forall_forall. intros y Hy. apply in_map_iff in Hy.
    destruct Hy as (r & <- & Hr). apply In_nth_error in Hr.
    destruct Hr as (q & Hq).
    destruct (candidates_sound _ _ _ _ _ Hq) as (g & Hg & Hlt).
    unfold f. rewrite (nth_error_nth _ _ _ Hg).
    apply (ltb_not_nan _ _ Hlt). }
  destruct (np_argmin_first_min _ Hnan Hne') as (xm & Hp & Hmin & Hfst).
  set (p := np_argmin (map f cs)) in *.
  rewrite nth_error_map in Hp.
  destruct (nth_error cs p) as [r|] eqn:Er; [|discriminate].
  simpl in Hp. injection Hp as Hxm.
  rewrite (nth_error_nth _ _ _ Er).
  destruct (candidates_sound _ _ _ _ _ Er) as (g & Hg & Hlt).
  assert (Hfr : f r = distance g x).
  { unfold f. rewrite (nth_error_nth _ _ _ Hg). reflexivity. }
  rewrite Hfr in Hxm. subst xm.
  exists g. split; [exact Hg|]. split; [exact Hlt|].
  assert (Hcand : forall i gi, nth_error grid i = Some gi ->
            (distance gi x <? tol)%float = true ->
            exists q, nth_error cs q = Some i
                      /\ nth_error (map f cs) q = Some (distance gi x)).
  { intros i gi Hi Hlti.
    destruct (candidates_complete _ _ _ _ _ Hi Hlti) as (q & Hq).
    exists q. split; [exact Hq|].
    rewrite nth_error_map. fold cs in Hq. rewrite Hq. simpl.
    unfold f. rewrite (nth_error_nth _ _ _ Hi). reflexivity. }
  split.
  - intros i gi Hi.
    destruct (distance gi x <? tol)%float eqn:Hlti.
    + destruct (Hcand _ _ Hi Hlti) as (q & _ & Hq). eauto.
    + destruct (distance gi x <? distance g x)%float eqn:E; [|reflexivity].
      rewrite (ltb_trans _ _ _ E Hlt) in Hlti. discriminate.
  - intros i gi Hir Hi.
    destruct (distance gi x <? tol)%float eqn:Hlti.
    + destruct (Hcand _ _ Hi Hlti) as (q & Hqi & Hq).
      apply (Hfst q); [|exact Hq].
      destruct (Nat.lt_trichotomy q p) as [Hlt' | [Heq | Hgt]].
      * exact Hlt'.
      * subst q. rewrite Er in Hqi. injection Hqi as Hqi. lia.
      * pose proof (candidates_increasing _ _ _ _ _ _ _ Hgt Er Hqi). lia.
    + destruct (distance gi x <=? distance g x)%float eqn:E; [|reflexivity].
      rewrite (leb_ltb_trans _ _ _ E Hlt) in Hlti. discriminate.
Qed.

Lemma single_candidate grid x tol :
  (1 <? List.length (candidates grid x tol))%nat = false ->
  nth 0 (candidates grid x tol) 0%nat
  = nth (np_argmin (abs_diff (take_at grid (candidates grid x tol)) x))
        (candidates grid x tol) 0%nat.
Proof.
  intro H. apply Nat.ltb_ge in H.
  destruct (candidates grid x tol) as [|c [|c' cs]]; simpl in *;
    [reflexivity | reflexivity | lia].
Qed.

Lemma length_zero_iff_nil {A} (l : list A) :
  (List.length l =? 0)%nat = true <-> l = [].
Proof.
  rewrite Nat.eqb_eq. destruct l; simpl; split; intro H;
    try reflexivity; try discriminate.
Qed.

(** [find_nearest_grid_cell] answers [None] exactly when an axis has no
    grid value within the tolerance; otherwise each coordinate of the cell
    is the nearest candidate of its axis. *)
Lemma find_nearest_grid_cell_cases lat lon grid_lats grid_lons tol :
  (find_nearest_grid_cell lat lon grid_lats grid_lons tol = None
   /\ (candidates grid_lats lat tol = [] \/ candidates grid_lons lon tol = []))
  \/ (exists row col,
        find_nearest_grid_cell lat lon grid_lats grid_lons tol = Some (row, col)
        /\ candidates grid_lats lat tol <> []
        /\ candidates grid_lons lon tol <> []
        /\ axis_nearest grid_lats lat tol row
        /\ axis_nearest grid_lons lon tol col).
Proof.
  unfold find_nearest_grid_cell.
  fold (candidates grid_lats lat tol). fold (candidates grid_lons lon tol).
  destruct (List.length (candidates grid_lats lat tol) =? 0)%nat eqn:Ela.
  { left. split; [reflexivity|]. left. apply length_zero_iff_nil; exact Ela. }
  destruct (List.length (candidates grid_lons lon tol) =? 0)%nat eqn:Elo.
  { left. split; [reflexivity|]. right. apply length_zero_iff_nil; exact Elo. }
  assert (Hla : candidates grid_lats lat tol <> []).
  { intro H. apply length_zero_iff_nil in H. congruence. }
  assert (Hlo : candidates grid_lons lon tol <> []).
  { intro H. apply length_zero_iff_nil in H. congruence. }
  right. simpl.
  destruct ((1 <? List.length (candidates grid_lats lat tol))%nat
            || (1 <? List.length (candidates grid_lons lon tol))%nat) eqn:Em.
  - do 2 eexists. split; [reflexivity|].
    repeat split; auto using nearest_candidate.
  - apply orb_false_iff in Em. destruct Em as [E1 E2].
    do 2 eexists. split; [reflexivity|].
    rewrite (single_candidate _ _ _ E1), (single_candidate _ _ _ E2).
    split; [exact Hla|]. split; [exact Hlo|].
    split; apply nearest_candidate; assumption.
Qed.

(** C2. For a point within the tolerance of some grid latitude and of some
    grid longitude, [find_nearest_grid_cell] returns a cell whose row and
    column are each within the tolerance, each nearest to the point on its
    own axis, and each the lowest position among equally near ones.  The
    differences are the doubles [np.abs(grid - x)] of the source and the
    comparisons are those of doubles. *)
Theorem find_nearest_grid_cell_nearest lat lon grid_lats grid_lons tol :
  (exists i g, nth_error grid_lats i = Some g
               /\ (distance g lat <? tol)%float = true) ->
  (exists j g, nth_error grid_lons j = Some g
               /\ (distance g lon <? tol)%float = true) ->
  exists row col,
    find_nearest_grid_cell lat lon grid_lats grid_lons tol = Some (row, col)
    /\ axis_nearest grid_lats lat tol row
    /\ axis_nearest grid_lons lon tol col.
Proof.
  intros (i & gi & Hi & Hlti) (j & gj & Hj & Hltj).
  destruct (find_nearest_grid_cell_cases lat lon grid_lats grid_lons tol)
    as [[_ [H | H]] | (row & col & Hf & _ & _ & Hr & Hc)].
  - destruct (candidates_complete _ _ _ _ _ Hi Hlti) as (q & Hq).
    rewrite H in Hq. destruct q; discriminate.
  - destruct (candidates_complete _ _ _ _ _ Hj Hltj) as (q & Hq).
    rewrite H in Hq. destruct q; discriminate.
  - exists row, col. auto.
Qed.

Lemma find_nearest_grid_cell_nearest_witness :
  (exists row col,
     find_nearest_grid_cell 0.01171875 0.015625 fine_axis fine_axis
                            SPATIAL_TOLERANCE = Some (row, col)
     /\ axis_nearest fine_axis 0.01171875 SPATIAL_TOLERANCE row
     /\ axis_nearest fine_axis 0.015625 SPATIAL_TOLERANCE col)
  /\ candidates fine_axis 0.01171875 SPATIAL_TOLERANCE = [0; 1; 2]%nat
  /\ candidates fine_axis 0.015625 SPATIAL_TOLERANCE = [0; 1; 2]%nat
  /\ find_nearest_grid_cell 0.01171875 0.015625 fine_axis fine_axis
                            SPATIAL_TOLERANCE = Some (1%nat, 2%nat).
Proof.
  split; [|repeat split; vm_compute; reflexivity].
  apply find_nearest_grid_cell_nearest.
  - exists 0%nat, 0%float. split; [reflexivity | vm_compute; reflexivity].
  - exists 1%nat, 0.0078125%float. split; [reflexivity | vm_compute; reflexivity].
Defined.

(** The measure is the one of the source.  Two grid values at unequal
    distances of a latitude can have the same computed difference, and
    the lower position is then the answer; a coordinate whose computed
    difference equals the tolerance has no cell; and the tolerance is the
    double nearest to 1/48. *)
Lemma computed_differences_examples :
  distance (-0x1p-7) 0x1p-62 = distance 0x1p-7 0x1p-62
  /\ find_nearest_grid_cell 0x1p-62 0 [-0x1p-7; 0x1p-7]%float [0%float]
                            SPATIAL_TOLERANCE = Some (0%nat, 0%nat)
  /\ find_nearest_grid_cell SPATIAL_TOLERANCE 0 [0%float] [0%float]
                            SPATIAL_TOLERANCE = None
  /\ find_nearest_grid_cell 0x1p-70 0 [SPATIAL_TOLERANCE] [0%float]
                            SPATIAL_TOLERANCE = None
  /\ SPATIAL_TOLERANCE = 0x1.5555555555555p-6%float.
Proof. repeat split; vm_compute; reflexivity. Qed.

End NearestCell.

(* ------------------------------------------------------------------ *)
(** ** Dictionaries and the indexing loop *)

Section Dict.
Context {V : Type}.

Lemma dict_get_set_same (d : PyDict V) k v :
  dict_get (dict_set d k v) k = Some v.
Proof.
  induction d as [|[k' v'] d IH]; simpl.
  - rewrite String.eqb_refl. reflexivity.
  - destruct (String.eqb k' k) eqn:E; simpl; rewrite E; auto.
Qed.

Lemma dict_get_set_other (d : PyDict V) k k' v :
  k' <> k -> dict_get (dict_set d k v) k' = dict_get d k'.
Proof.
  intro Hne. induction d as [|[k0 v0] d IH]; simpl.
  - apply String.eqb_neq in Hne. rewrite String.eqb_sym, Hne. reflexivity.
  - destruct (String.eqb k0 k) eqn:E; simpl.
    + apply String.eqb_eq in E. subst k0.
      apply String.eqb_neq in Hne. rewrite String.eqb_sym, Hne. reflexivity.
    + rewrite IH. reflexivity.
Qed.

Lemma dict_keys_set (d : PyDict V) k v k' :
  In k' (dict_keys (dict_set d k v)) <-> k' = k \/ In k' (dict_keys d).
Proof.
  unfold dict_keys. induction d as [|[k0 v0] d IH]; simpl.
  - intuition.
  - destruct (String.eqb k0 k) eqn:E; simpl.
    + apply String.eqb_eq in E. subst k0. intuition.
    + rewrite IH. intuition.
Qed.

Lemma dict_set_NoDup (d : PyDict V) k v :
  NoDup (dict_keys d) -> NoDup (dict_keys (dict_set d k v)).
Proof.
  unfold dict_keys. induction d as [|[k0 v0] d IH]; simpl; intro H.
  - constructor; [intros [] | constructor].
  - inversion H as [|? ? Hnin Hnd]; subst.
    destruct (String.eqb k0 k) eqn:E; simpl.
    + constructor; assumption.
    + constructor; [|auto].
      intro Hin. apply (dict_keys_set d k v k0) in Hin.
      apply String.eqb_neq in E. destruct Hin; [congruence | contradiction].
Qed.

Lemma dict_get_None (d : PyDict V) k :
  dict_get d k = None <-> ~ In k (dict_keys d).
Proof.
  unfold dict_keys. induction d as [|[k0 v0] d IH]; simpl.
  - intuition.
  - destruct (String.eqb k0 k) eqn:E.
    + apply String.eqb_eq in E. subst. split; [discriminate | intuition].
    + apply String.eqb_neq in E. rewrite IH. intuition.
Qed.

Lemma dict_get_In (d : PyDict V) k v :
  dict_get d k = Some v -> In (k, v) d.
Proof.
  induction d as [|[k0 v0] d IH]; simpl; [discriminate|].
  destruct (String.eqb k0 k) eqn:E.
  - apply String.eqb_eq in E. subst. intros [= ->]. auto.
  - auto.
Qed.

Lemma dict_get_NoDup_In (d : PyDict V) k v :
  NoDup (dict_keys d) -> In (k, v) d -> dict_get d k = Some v.
Proof.
  unfold dict_keys. induction d as [|[k0 v0] d IH]; simpl; intros Hnd Hin;
    [contradiction|].
  inversion Hnd as [|? ? Hnin Hnd']; subst.
  destruct Hin as [[= -> ->] | Hin].
  - rewrite String.eqb_refl. reflexivity.
  - destruct (String.eqb k0 k) eqn:E.
    + apply String.eqb_eq in E. subst. exfalso. apply Hnin.
      apply (in_map fst) in Hin. exact Hin.
    + auto.
Qed.

End Dict.

Section IndexLoop.
Variables grid_lats grid_lons : list float.

Lemma index_accessions_get (rows : list Accession) :
  forall idx0 f0 id,
    dict_get (fst (index_accessions rows grid_lats grid_lons idx0 f0)) id
    = match last_indexed rows grid_lats grid_lons id with
      | Some c => Some c
      | None => dict_get idx0 id
      end.
Proof.
  induction rows as [|a rows IH]; intros idx0 f0 id; simpl; [reflexivity|].
  fold (cell_of a grid_lats grid_lons).
  destruct (cell_of a grid_lats grid_lons) as [c|] eqn:Ec; rewrite IH;
    destruct (last_indexed rows grid_lats grid_lons id); try reflexivity.
  - destruct (String.eqb (acc_id a) id) eqn:E.
    + apply String.eqb_eq in E. subst id. apply dict_get_set_same.
    + apply String.eqb_neq in E. apply dict_get_set_other. congruence.
  - destruct (String.eqb (acc_id a) id); reflexivity.
Qed.

Lemma index_accessions_failed (rows : list Accession) :
  forall idx0 f0,
    snd (index_accessions rows grid_lats grid_lons idx0 f0)
    = f0 ++ map acc_id
              (filter (fun a => match cell_of a grid_lats grid_lons with
                                | Some _ => false
                                | None => true
                                end) rows).
Proof.
  induction rows as [|a rows IH]; intros idx0 f0; simpl.
  - rewrite app_nil_r. reflexivity.
  - fold (cell_of a grid_lats grid_lons).
    destruct (cell_of a grid_lats grid_lons); rewrite IH; [reflexivity|].
    simpl. rewrite <- app_assoc. reflexivity.
Qed.

Lemma index_accessions_NoDup (rows : list Accession) :
  forall idx0 f0, NoDup (dict_keys idx0) ->
    NoDup (dict_keys (fst (index_accessions rows grid_lats grid_lons idx0 f0))).
Proof.
  induction rows as [|a rows IH]; intros idx0 f0 H; simpl; [exact H|].
  destruct (find_nearest_grid_cell _ _ _ _ _); apply IH;
    auto using dict_set_NoDup.
Qed.

Lemma last_indexed_absent rows id :
  (forall b, In b rows -> acc_id b <> id) ->
  last_indexed rows grid_lats grid_lons id = None.
Proof.
  induction rows as [|a rows IH]; intro H; simpl; [reflexivity|].
  rewrite IH by (intros; apply H; right; assumption).
  destruct (String.eqb (acc_id a) id) eqn:E; [|reflexivity].
  apply String.eqb_eq in E. exfalso. apply (H a); [left; reflexivity | exact E].
Qed.

Lemma last_indexed_app pre post id :
  last_indexed (pre ++ post) grid_lats grid_lons id
  = match last_indexed post grid_lats grid_lons id with
    | Some c => Some c
    | None => last_indexed pre grid_lats grid_lons id
    end.
Proof.
  induction pre as [|a pre IH]; simpl.
  - destruct (last_indexed post _ _ id); reflexivity.
  - rewrite IH. destruct (last_indexed post _ _ id); reflexivity.
Qed.

Lemma last_indexed_unique rows a :
  NoDup (map acc_id rows) -> In a rows ->
  last_indexed rows grid_lats grid_lons (acc_id a) = cell_of a grid_lats grid_lons.
Proof.
  induction rows as [|b rows IH]; simpl; intros Hnd Hin; [contradiction|].
  inversion Hnd as [|? ? Hnin Hnd']; subst.
  destruct Hin as [-> | Hin].
  - rewrite last_indexed_absent.
    + rewrite String.eqb_refl. reflexivity.
    + intros b Hb Heq. apply Hnin. rewrite <- Heq. apply in_map. exact Hb.
  - rewrite (IH Hnd' Hin).
    destruct (cell_of a grid_lats grid_lons); [reflexivity|].
    destruct (String.eqb (acc_id b) (acc_id a)) eqn:E; [|reflexivity].
    apply String.eqb_eq in E. exfalso. apply Hnin. rewrite E.
    apply in_map. exact Hin.
Qed.

Lemma cell_of_Some_iff a :
  (exists c, cell_of a grid_lats grid_lons = Some c)
  <-> within_tolerance grid_lats (acc_lat a)
      /\ within_tolerance grid_lons (acc_lon a).
Proof.
  unfold cell_of, within_tolerance.
  destruct (find_nearest_grid_cell_cases (acc_lat a) (acc_lon a)
              grid_lats grid_lons SPATIAL_TOLERANCE)
    as [[Hn Hemp] | (row & col & Hf & Hla & Hlo & Hr & Hc)].
  - rewrite Hn. split.
    + intros (c & Hc). discriminate.
    + intros [(i & g & Hi & Hlt) (j & g' & Hj & Hlt')]. exfalso.
      destruct Hemp as [He | He].
      * destruct (candidates_complete _ _ _ _ _ Hi Hlt) as (q & Hq).
        rewrite He in Hq. destruct q; discriminate.
      * destruct (candidates_complete _ _ _ _ _ Hj Hlt') as (q & Hq).
        rewrite He in Hq. destruct q; discriminate.
  - rewrite Hf. split; [intros _ | eauto].
    destruct Hr as (g & Hg & Hlt & _). destruct Hc as (g' & Hg' & Hlt' & _).
    split; eauto.
Qed.

(** With pairwise distinct ids, the loop splits the catalog in two. *)
Lemma index_accessions_partitioned rows :
  NoDup (map acc_id rows) ->
  partitioned rows grid_lats grid_lons
    (fst (index_accessions rows grid_lats grid_lons [] []))
    (snd (index_accessions rows grid_lats grid_lons [] [])).
Proof.
  intros Hnd a Hin.
  rewrite index_accessions_get, index_accessions_failed.
  rewrite (last_indexed_unique _ _ Hnd Hin). simpl.
  destruct (cell_of a grid_lats grid_lons) as [c|] eqn:Ec.
  - left. assert (Hw : exists c, cell_of a grid_lats grid_lons = Some c) by eauto.
    apply cell_of_Some_iff in Hw. destruct Hw as [H1 H2].
    split; [exact H1|]. split; [exact H2|]. split; [eauto|].
    intro Hf. apply in_map_iff in Hf. destruct Hf as (b & Hid & Hb).
    apply filter_In in Hb. destruct Hb as [Hb Hnone].
    assert (b = a).
    { clear - Hnd Hin Hb Hid. induction rows as [|r rows IH]; [contradiction|].
      simpl in Hnd. inversion Hnd as [|? ? Hnin Hnd']; subst.
      destruct Hin as [-> | Hin], Hb as [-> | Hb]; auto.
      - exfalso. apply Hnin. rewrite <- Hid. apply in_map. exact Hb.
      - exfalso. apply Hnin. rewrite Hid. apply in_map. exact Hin. }
    subst b. rewrite Ec in Hnone. discriminate.
  - right. split.
    + intro Hw. apply cell_of_Some_iff in Hw. destruct Hw as (c & Hc). congruence.
    + split; [reflexivity|].
      apply in_map_iff. exists a. split; [reflexivity|].
      apply filter_In. split; [exact Hin|]. rewrite Ec. reflexivity.
Qed.

End IndexLoop.

(* ------------------------------------------------------------------ *)
(** ** build_spatial_index and its cache *)

Lemma build_spatial_index_rebuild use_cache w raw ds :
  accessions_csv w = Some raw ->
  dict_get (thredds w) sample_url = Some ds ->
  use_cache && cache_present w = false ->
  build_spatial_index use_cache w
  = (Ok (fst (index_accessions (dropna raw) (ds_lat ds) (ds_lon ds) [] [])),
     world_after_rebuild use_cache w
       (fst (index_accessions (dropna raw) (ds_lat ds) (ds_lon ds) [] []))
       (snd (index_accessions (dropna raw) (ds_lat ds) (ds_lon ds) [] []))).
Proof.
  intros Hcsv Hds Hc.
  unfold build_spatial_index, bind, cache_exists.
  fold (cache_present w). rewrite Hc.
  unfold load_accessions. rewrite Hcsv.
  change (TERRACLIMATE_URL (nth 0 CLIMATE_VARIABLES "")) with sample_url.
  unfold open_dataset, bind, tell. simpl. rewrite Hds.
  unfold get_grid_coordinates, world_after_rebuild.
  destruct (index_accessions (dropna raw) (ds_lat ds) (ds_lon ds) [] [])
    as [idx failed]. simpl.
  destruct failed; destruct use_cache; reflexivity.
Qed.

Lemma build_spatial_index_cached w cf :
  cache_file w = Some cf ->
  build_spatial_index true w
  = (match cf with Pickled idx => Ok idx | Corrupt => Err UnpicklingError end,
     emit w EvCacheRead).
Proof.
  intro H. unfold build_spatial_index, bind, cache_exists. rewrite H. simpl.
  unfold pickle_load, bind, tell. simpl. rewrite H. destruct cf; reflexivity.
Qed.

(** Every run of [build_spatial_index]: a cache hit, or one of the three
    outcomes of a rebuild. *)
Lemma build_spatial_index_cases use_cache w :
  (exists cf, use_cache = true /\ cache_file w = Some cf
     /\ build_spatial_index use_cache w
        = (match cf with Pickled idx => Ok idx | Corrupt => Err UnpicklingError end,
           emit w EvCacheRead))
  \/ (use_cache && cache_present w = false
      /\ ((accessions_csv w = None
           /\ build_spatial_index use_cache w
              = (Err (FileNotFoundError ACCESSIONS_FILE), w))
          \/ (dict_get (thredds w) sample_url = None
              /\ build_spatial_index use_cache w
                 = (Err (OSError sample_url), emit w (EvOpenDataset sample_url)))
          \/ (exists idx failed,
                build_spatial_index use_cache w
                = (Ok idx, world_after_rebuild use_cache w idx failed)))).
Proof.
  destruct (use_cache && cache_present w) eqn:Hc.
  - left. apply andb_true_iff in Hc. destruct Hc as [-> Hp].
    unfold cache_present in Hp. destruct (cache_file w) as [cf|] eqn:E;
      [|discriminate].
    exists cf. auto using build_spatial_index_cached.
  - right. split; [reflexivity|].
    destruct (accessions_csv w) as [raw|] eqn:Hcsv.
    + destruct (dict_get (thredds w) sample_url) as [ds|] eqn:Hds.
      * right. right. do 2 eexists.
        apply build_spatial_index_rebuild; eauto.
      * right. left. split; [reflexivity|].
        unfold build_spatial_index, bind, cache_exists.
        fold (cache_present w). rewrite Hc.
        unfold load_accessions. rewrite Hcsv.
        change (TERRACLIMATE_URL (nth 0 CLIMATE_VARIABLES "")) with sample_url.
        unfold open_dataset, bind, tell. simpl. rewrite Hds. reflexivity.
    + left. split; [reflexivity|].
      unfold build_spatial_index, bind, cache_exists.
      fold (cache_present w). rewrite Hc.
      unfold load_accessions. rewrite Hcsv. reflexivity.
Qed.

Lemma events_after_rebuild use_cache w idx failed :
  events (world_after_rebuild use_cache w idx failed)
  = events w ++ [EvOpenDataset sample_url]
     ++ match failed with [] => [] | _ => [EvFailedAccessions failed] end
     ++ (if use_cache then [EvCacheWrite] else []).
Proof.
  unfold world_after_rebuild.
  destruct failed, use_cache; simpl; rewrite <- ?app_assoc; reflexivity.
Qed.

Lemma cache_after_rebuild use_cache w idx failed :
  cache_file (world_after_rebuild use_cache w idx failed)
  = if use_cache then Some (Pickled idx) else cache_file w.
Proof.
  unfold world_after_rebuild. destruct failed, use_cache; reflexivity.
Qed.

(** C5. Whatever the world, a call of [build_spatial_index] reads the cache
    exactly when caching is on and the file is there, writes it only at
    the end of a build that succeeded, and after a successful call with
    caching on the next call returns the very same mapping from the
    cache, without rebuilding. *)
Theorem cache_round_trip use_cache w :
  exists new,
    events (snd (build_spatial_index use_cache w)) = events w ++ new
    /\ (In EvCacheRead new <-> use_cache = true /\ cache_file w <> None)
    /\ (In EvCacheWrite new ->
        exists idx, fst (build_spatial_index use_cache w) = Ok idx
                    /\ cache_file (snd (build_spatial_index use_cache w))
                       = Some (Pickled idx))
    /\ (~ In EvCacheWrite new ->
        cache_file (snd (build_spatial_index use_cache w)) = cache_file w)
    /\ (forall idx,
          use_cache = true ->
          fst (build_spatial_index use_cache w) = Ok idx ->
          build_spatial_index true (snd (build_spatial_index use_cache w))
          = (Ok idx, emit (snd (build_spatial_index use_cache w)) EvCacheRead)).
Proof.
  destruct (build_spatial_index_cases use_cache w)
    as [(cf & -> & Hcf & Hb)
       | (Hc & [(Hcsv & Hb) | [(Hds & Hb) | (idx & failed & Hb)]])];
    rewrite Hb; simpl.
  - exists [EvCacheRead]. split; [reflexivity|].
    split; [split; [intros _; split; [reflexivity | congruence] | simpl; auto]|].
    split; [intros [H | []]; discriminate|].
    split; [reflexivity|].
    intros idx _ Hok. destruct cf as [idx'|]; [|discriminate].
    injection Hok as ->.
    apply (build_spatial_index_cached (emit w EvCacheRead) (Pickled idx)).
    exact Hcf.
  - exists []. split; [rewrite app_nil_r; reflexivity|].
    split; [split; [intros [] | intros [-> Hp]]|].
    { simpl in Hc. unfold cache_present in Hc.
      destruct (cache_file w); [discriminate | congruence]. }
    split; [intros []|]. split; [reflexivity|]. intros; discriminate.
  - exists [EvOpenDataset sample_url]. split; [reflexivity|].
    split; [split; [intros [H | []]; discriminate | intros [-> Hp]]|].
    { simpl in Hc. unfold cache_present in Hc.
      destruct (cache_file w); [discriminate | congruence]. }
    split; [intros [H | []]; discriminate|].
    split; [reflexivity|]. intros; discriminate.
  - rewrite events_after_rebuild, cache_after_rebuild.
    eexists. split; [reflexivity|].
    assert (Hread : ~ In EvCacheRead
              ([EvOpenDataset sample_url]
               ++ match failed with [] => [] | _ => [EvFailedAccessions failed] end
               ++ (if use_cache then [EvCacheWrite] else []))).
    { destruct failed, use_cache; simpl; intuition discriminate. }
    assert (Hwrite : In EvCacheWrite
              ([EvOpenDataset sample_url]
               ++ match failed with [] => [] | _ => [EvFailedAccessions failed] end
               ++ (if use_cache then [EvCacheWrite] else []))
              <-> use_cache = true).
    { destruct failed, use_cache; simpl; intuition discriminate. }
    split; [split|].
    + intro Hin. contradiction.
    + intros [-> Hp]. simpl in Hc. unfold cache_present in Hc.
      destruct (cache_file w); [discriminate | congruence].
    + split; [|split].
      * intro Hin. apply Hwrite in Hin. subst use_cache.
        exists idx. split; reflexivity.
      * intro Hnin. destruct use_cache; [|reflexivity].
        exfalso. apply Hnin. apply Hwrite. reflexivity.
      * intros idx' -> Hok. injection Hok as ->.
        apply (build_spatial_index_cached _ (Pickled idx')).
        apply cache_after_rebuild.
Qed.

(* ------------------------------------------------------------------ *)
(** ** The index over a whole catalog *)

(** C3. When the ids of the catalog are pairwise distinct, a rebuild
    completes and splits the catalog in two: an accession with a grid
    value within the tolerance on both axes is bound in the index and is
    not in the failure list; any other accession is in the failure list,
    which is reported, and is not bound in the index. *)
Theorem build_spatial_index_partitions use_cache w raw ds :
  accessions_csv w = Some raw ->
  dict_get (thredds w) sample_url = Some ds ->
  use_cache && cache_present w = false ->
  NoDup (map acc_id (dropna raw)) ->
  exists idx failed,
    build_spatial_index use_cache w
    = (Ok idx, world_after_rebuild use_cache w idx failed)
    /\ partitioned (dropna raw) (ds_lat ds) (ds_lon ds) idx failed
    /\ (failed <> [] ->
        In (EvFailedAccessions failed)
           (events (world_after_rebuild use_cache w idx failed))).
Proof.
  intros Hcsv Hds Hc Hnd.
  exists (fst (index_accessions (dropna raw) (ds_lat ds) (ds_lon ds) [] [])),
         (snd (index_accessions (dropna raw) (ds_lat ds) (ds_lon ds) [] [])).
  split; [apply build_spatial_index_rebuild; assumption|].
  split; [apply index_accessions_partitioned; assumption|].
  intro Hne. rewrite events_after_rebuild.
  apply in_or_app. right. apply in_or_app. right. apply in_or_app. left.
  destruct (snd (index_accessions (dropna raw) (ds_lat ds) (ds_lon ds) [] []));
    [congruence | left; reflexivity].
Qed.

Lemma build_spatial_index_partitions_witness :
  exists idx failed,
    build_spatial_index false (world_of_catalog two_point_catalog)
    = (Ok idx, world_after_rebuild false (world_of_catalog two_point_catalog)
                                   idx failed)
    /\ partitioned (dropna two_point_catalog) [0%float] [0%float] idx failed
    /\ (failed <> [] ->
        In (EvFailedAccessions failed)
           (events (world_after_rebuild false
                      (world_of_catalog two_point_catalog) idx failed))).
Proof.
  apply (build_spatial_index_partitions false
           (world_of_catalog two_point_catalog) two_point_catalog
           unit_grid_dataset).
  - reflexivity.
  - reflexivity.
  - reflexivity.
  - vm_compute. repeat constructor; simpl; intuition discriminate.
Defined.

(** Against C3 as stated.  With a repeated id, the id is bound in the
    index (by its first row) and listed as failed (by its second row).
    And when the index is loaded from the cache no accession is looked
    at: an accession of the catalog within the tolerance of the grid is
    not bound in the returned mapping, whatever the failure list. *)
Lemma catalog_not_partitioned :
  fst (build_spatial_index false (world_of_catalog duplicate_id_catalog))
  = Ok [("A", (0%nat, 0%nat))]
  /\ events (snd (build_spatial_index false
                    (world_of_catalog duplicate_id_catalog)))
     = [EvOpenDataset sample_url; EvFailedAccessions ["A"]]
  /\ ~ partitioned (dropna duplicate_id_catalog) [0%float] [0%float]
                   [("A", (0%nat, 0%nat))] ["A"]
  /\ build_spatial_index true stale_cache_world
     = (Ok [("Z", (0%nat, 0%nat))], emit stale_cache_world EvCacheRead)
  /\ (forall failed,
        ~ partitioned (dropna two_point_catalog) [0%float] [0%float]
                      [("Z", (0%nat, 0%nat))] failed).
Proof.
  split; [vm_compute; reflexivity|].
  split; [vm_compute; reflexivity|].
  split; [|split; [vm_compute; reflexivity|]].
  - intro H.
    destruct (H (mkAccession "A" 0 0)) as [(_ & _ & _ & Hnin) | (_ & Hnone & _)].
    + vm_compute. left. reflexivity.
    + apply Hnin. simpl. left. reflexivity.
    + simpl in Hnone. discriminate.
  - intros failed H.
    destruct (H (mkAccession "A" 0.0078125 0))
      as [(_ & _ & (c & Hc) & _) | (Hout & _)].
    + vm_compute. left. reflexivity.
    + simpl in Hc. discriminate.
    + apply Hout. split.
      * exists 0%nat, 0%float. split; [reflexivity | vm_compute; reflexivity].
      * exists 0%nat, 0%float. split; [reflexivity | vm_compute; reflexivity].
Qed.

Lemma dropna_ids (raw : list AccessionRow) :
  map acc_id (dropna raw) = map CS_number (filter has_coordinates raw).
Proof.
  induction raw as [|r raw IH]; simpl; [reflexivity|].
  unfold has_coordinates, isna.
  destruct (latitude r) as [la|], (longitude r) as [lo|]; simpl;
    try destruct (is_nan la); try destruct (is_nan lo); simpl;
    rewrite ?IH; reflexivity.
Qed.

Lemma last_indexed_Some grid_lats grid_lons rows id c :
  last_indexed rows grid_lats grid_lons id = Some c ->
  exists a, In a rows /\ acc_id a = id /\ cell_of a grid_lats grid_lons = Some c.
Proof.
  induction rows as [|a rows IH]; simpl; [discriminate|].
  destruct (last_indexed rows grid_lats grid_lons id) as [c'|].
  - intros [= ->]. destruct (IH eq_refl) as (b & Hb & Hid & Hc). eauto.
  - destruct (String.eqb (acc_id a) id) eqn:E; [|discriminate].
    apply String.eqb_eq in E. intro H. exists a. auto.
Qed.

Lemma last_indexed_None grid_lats grid_lons rows id :
  last_indexed rows grid_lats grid_lons id = None
  <-> forall a, In a rows -> acc_id a = id ->
                cell_of a grid_lats grid_lons = None.
Proof.
  induction rows as [|a rows IH]; simpl.
  - split; [intros _ a [] | reflexivity].
  - destruct (last_indexed rows grid_lats grid_lons id) as [c|] eqn:E.
    + split; [discriminate|]. intro H.
      destruct (last_indexed_Some _ _ _ _ _ E) as (b & Hb & Hid & Hc).
      rewrite (H b (or_intror Hb) Hid) in Hc. discriminate.
    + destruct IH as [IH _]. specialize (IH eq_refl).
      destruct (String.eqb (acc_id a) id) eqn:Ea.
      * apply String.eqb_eq in Ea. split.
        -- intros H b [<- | Hb] Hid; [exact H | apply IH; assumption].
        -- intro H. apply H; auto.
      * apply String.eqb_neq in Ea. split; [|reflexivity].
        intros _ b [<- | Hb] Hid; [contradiction | apply IH; assumption].
Qed.

(** C10. A rebuild never looks at whether ids repeat: [load_accessions]
    keeps every row that has both coordinates, whatever its id, and the
    build completes.  The returned dictionary holds each id once.  When
    several rows carry one id, the id is bound to the cell of the last
    of them that has a cell: a later row with a cell overwrites the
    binding, a later row without a cell leaves it (and puts the id on the
    failure list).  An id none of whose rows has a cell is not bound. *)
Theorem build_spatial_index_last_row_wins use_cache w raw ds :
  accessions_csv w = Some raw ->
  dict_get (thredds w) sample_url = Some ds ->
  use_cache && cache_present w = false ->
  exists idx w',
    build_spatial_index use_cache w = (Ok idx, w')
    /\ NoDup (dict_keys idx)
    /\ (forall pre a post c,
          dropna raw = pre ++ a :: post ->
          cell_of a (ds_lat ds) (ds_lon ds) = Some c ->
          (forall b, In b post -> acc_id b = acc_id a ->
                     cell_of b (ds_lat ds) (ds_lon ds) = None) ->
          dict_get idx (acc_id a) = Some c)
    /\ (forall id,
          (forall a, In a (dropna raw) -> acc_id a = id ->
                     cell_of a (ds_lat ds) (ds_lon ds) = None) ->
          dict_get idx id = None)
    /\ map acc_id (dropna raw) = map CS_number (filter has_coordinates raw).
Proof.
  intros Hcsv Hds Hc.
  do 2 eexists. split; [apply build_spatial_index_rebuild; eassumption|].
  split; [apply index_accessions_NoDup; constructor|].
  split; [|split; [|apply dropna_ids]].
  - intros pre a post c Hrows Hcell Hlater.
    rewrite index_accessions_get, Hrows, last_indexed_app. simpl.
    apply last_indexed_None in Hlater. rewrite Hlater, String.eqb_refl, Hcell.
    reflexivity.
  - intros id Hnone. rewrite index_accessions_get.
    apply last_indexed_None in Hnone. rewrite Hnone. reflexivity.
Qed.

Lemma build_spatial_index_last_row_wins_witness :
  (exists idx w',
     build_spatial_index false repeated_id_world = (Ok idx, w')
     /\ NoDup (dict_keys idx)
     /\ (forall pre a post c,
           dropna repeated_id_catalog = pre ++ a :: post ->
           cell_of a two_row_axis [0%float] = Some c ->
           (forall b, In b post -> acc_id b = acc_id a ->
                      cell_of b two_row_axis [0%float] = None) ->
           dict_get idx (acc_id a) = Some c)
     /\ (forall id,
           (forall a, In a (dropna repeated_id_catalog) -> acc_id a = id ->
                      cell_of a two_row_axis [0%float] = None) ->
           dict_get idx id = None)
     /\ map acc_id (dropna repeated_id_catalog)
        = map CS_number (filter has_coordinates repeated_id_catalog))
  /\ map (fun a => cell_of a two_row_axis [0%float])
         (dropna repeated_id_catalog)
     = [Some (0%nat, 0%nat); Some (1%nat, 0%nat); None]
  /\ fst (build_spatial_index false repeated_id_world)
     = Ok [("A", (1%nat, 0%nat))]
  /\ events (snd (build_spatial_index false repeated_id_world))
     = [EvOpenDataset sample_url; EvFailedAccessions ["A"]].
Proof.
  split; [|repeat split; vm_compute; reflexivity].
  apply (build_spatial_index_last_row_wins false repeated_id_world
           repeated_id_catalog
           (mkDataset two_row_axis [0%float] [mkTime 1958 1] []));
    reflexivity.
Defined.

(* ------------------------------------------------------------------ *)
(** ** Facts about extract.py: failures of single variables *)

Section Catchable.

Lemma catchable_rbind {A B} (r : Result A) (k : A -> Result B) :
  catchable r -> (forall a, catchable (k a)) -> catchable (rbind r k).
Proof.
  intros Hr Hk e. destruct r as [a|e']; simpl.
  - apply Hk.
  - intros [= <-]. apply Hr. reflexivity.
Qed.

Lemma catchable_rmap {A B} (f : A -> Result B) (l : list A) :
  (forall x, catchable (f x)) -> catchable (rmap f l).
Proof.
  intro Hf. induction l as [|x l IH]; simpl.
  - intros e H. discriminate.
  - apply catchable_rbind; [apply Hf|]. intro y.
    apply catchable_rbind; [exact IH|]. intros ys e H. discriminate.
Qed.

Ltac by_cases :=
  let err := fresh "err" in
  let H := fresh "H" in
  intros err H;
  repeat match type of H with
         | context [match ?x with _ => _ end] => destruct x
         | context [if ?b then _ else _] => destruct b
         end;
  try discriminate; injection H as <-; reflexivity.

Lemma catchable_da_get a t r c : catchable (da_get a t r c).
Proof. unfold da_get. by_cases. Qed.

Lemma catchable_timeseries ds id r c var ti :
  catchable (extract_timeseries_for_accession ds id r c var ti).
Proof.
  unfold extract_timeseries_for_accession.
  apply catchable_rbind; [unfold ds_getitem; by_cases|]. intro a.
  apply catchable_rbind;
    [apply catchable_rmap; intro; apply catchable_da_get|]. intro data.
  apply catchable_rbind; [unfold dt_year; by_cases|]. intro years.
  apply catchable_rbind; [unfold dt_month; by_cases|]. intro months.
  unfold data_frame. by_cases.
Qed.

Lemma catchable_extract_from_dataset ds var idx s e :
  catchable (extract_from_dataset ds var idx s e).
Proof.
  unfold extract_from_dataset. apply catchable_rbind.
  - destruct s, e; unfold ds_sel_time; cbn [rbind]; intros e' H;
      try discriminate; injection H as <-; reflexivity.
  - intros [d t]. destruct (axis_values t).
    + intros e' H. injection H as <-. reflexivity.
    + apply catchable_rbind.
      * apply catchable_rmap. intros [id [r c]]. apply catchable_timeseries.
      * intro frames. unfold pd_concat. by_cases.
Qed.

Lemma catchable_outcome server s e var idx sequential :
  catchable (outcome server s e var idx sequential).
Proof.
  unfold outcome. destruct (dict_get server (TERRACLIMATE_URL var)).
  - destruct sequential; apply catchable_extract_from_dataset.
  - intros e' H. injection H as <-. reflexivity.
Qed.

End Catchable.

Lemma extract_one_outcome var idx sequential w :
  extract_one var idx sequential w
  = (outcome (thredds w) (START_YEAR w) (END_YEAR w) var idx sequential,
     emit w (EvOpenDataset (TERRACLIMATE_URL var))).
Proof.
  unfold extract_one, outcome, extract_variable_parallel_accessions,
    extract_variable_sequential, open_dataset, bind, tell, lift.
  simpl. destruct sequential;
    destruct (dict_get (thredds w) (TERRACLIMATE_URL var)); reflexivity.
Qed.

Lemma extract_each_spec vars idx sequential :
  forall results w,
    exists w',
      extract_each vars idx sequential results w
      = (Ok (collect (fun v => outcome (thredds w) (START_YEAR w) (END_YEAR w)
                                       v idx sequential) vars results), w')
      /\ failures_log w'
         = failures_log w
           ++ logged (fun v => outcome (thredds w) (START_YEAR w) (END_YEAR w)
                                       v idx sequential) vars
      /\ events w'
         = events w
           ++ traced (fun v => outcome (thredds w) (START_YEAR w) (END_YEAR w)
                                       v idx sequential) vars
      /\ thredds w' = thredds w
      /\ START_YEAR w' = START_YEAR w
      /\ END_YEAR w' = END_YEAR w
      /\ cache_file w' = cache_file w.
Proof.
  induction vars as [|v vars IH]; intros results w.
  - exists w. simpl. rewrite !app_nil_r. repeat split; reflexivity.
  - cbn [extract_each]. rewrite extract_one_outcome.
    unfold collect, logged, traced. cbn [fold_left flat_map].
    destruct (outcome (thredds w) (START_YEAR w) (END_YEAR w) v idx sequential)
      as [df|e] eqn:Eo.
    + destruct (IH (dict_set results v df)
                   (emit w (EvOpenDataset (TERRACLIMATE_URL v))))
        as (w' & Hr & Hl & He & Ht & Hs & Hy & Hc).
      exists w'. simpl in *. rewrite Hr, Hl, He, Ht, Hs, Hy, Hc.
      rewrite <- app_assoc. repeat split; reflexivity.
    + rewrite (catchable_outcome _ _ _ _ _ _ e Eo).
      unfold LOG_EXTRACTION_FAILURES.
      destruct (IH results
                   (append_log
                      (emit (emit w (EvOpenDataset (TERRACLIMATE_URL v)))
                            (EvExtractionError v e))
                      (v, error_message e)))
        as (w' & Hr & Hl & He & Ht & Hs & Hy & Hc).
      exists w'. simpl in *. rewrite Hr, Hl, He, Ht, Hs, Hy, Hc.
      rewrite <- !app_assoc. repeat split; reflexivity.
Qed.

Lemma collect_skips out vars bad :
  (forall df, out bad <> Ok df) ->
  forall results,
    collect out vars results
    = collect out (filter (fun v => negb (String.eqb v bad)) vars) results.
Proof.
  intro Hbad. unfold collect.
  induction vars as [|v vars IH]; intro results; simpl; [reflexivity|].
  destruct (String.eqb v bad) eqn:E; simpl.
  - apply String.eqb_eq in E. subst v.
    destruct (out bad) as [df|]; [exfalso; apply (Hbad df); reflexivity|].
    apply IH.
  - apply IH.
Qed.

Lemma collect_absent out vars bad :
  (forall df, out bad <> Ok df) ->
  forall results,
    dict_get results bad = None ->
    dict_get (collect out vars results) bad = None.
Proof.
  intro Hbad. unfold collect.
  induction vars as [|v vars IH]; intros results Hres; simpl; [exact Hres|].
  destruct (out v) as [df|] eqn:Ev; [|auto].
  apply IH. rewrite dict_get_set_other; [exact Hres|].
  intros ->. apply (Hbad df). exact Ev.
Qed.

Lemma logged_In out vars bad e :
  In bad vars -> out bad = Err e -> In (bad, error_message e) (logged out vars).
Proof.
  intros Hin Hout. unfold logged. apply in_flat_map. exists bad.
  split; [exact Hin|]. rewrite Hout. left. reflexivity.
Qed.

Lemma traced_In out vars bad e :
  In bad vars -> out bad = Err e -> In (EvExtractionError bad e) (traced out vars).
Proof.
  intros Hin Hout. unfold traced. apply in_flat_map. exists bad.
  split; [exact Hin|]. rewrite Hout. right. left. reflexivity.
Qed.

(** C4. Once the spatial index is there, a variable whose source does not
    open or whose extraction raises is reported with its message, written
    to the failure log and left out of the result, the run goes on to the
    end, and the result is the one of the same run without that
    variable. *)
Theorem extract_all_variables_isolates_failure
    vars use_cached_index sequential w idx w0 bad e :
  build_spatial_index use_cached_index w = (Ok idx, w0) ->
  In bad vars ->
  fst (extract_one bad idx sequential w0) = Err e ->
  exists results w',
    extract_all_variables (Some vars) use_cached_index sequential w
    = (Ok results, w')
    /\ dict_get results bad = None
    /\ (exists lines, failures_log w' = failures_log w0 ++ lines
                      /\ In (bad, error_message e) lines)
    /\ (exists evs, events w' = events w0 ++ evs
                    /\ In (EvExtractionError bad e) evs)
    /\ fst (extract_all_variables
              (Some (filter (fun v => negb (String.eqb v bad)) vars))
              use_cached_index sequential w)
       = Ok results.
Proof.
  intros Hidx Hin Hbad.
  rewrite extract_one_outcome in Hbad. simpl in Hbad.
  set (out := fun v => outcome (thredds w0) (START_YEAR w0) (END_YEAR w0)
                               v idx sequential) in *.
  assert (Hnot : forall df, out bad <> Ok df).
  { intros df H. unfold out in H. congruence. }
  destruct (extract_each_spec vars idx sequential [] w0)
    as (w' & Hr & Hl & He & _).
  destruct (extract_each_spec
              (filter (fun v => negb (String.eqb v bad)) vars)
              idx sequential [] w0) as (w'' & Hr' & _).
  fold out in Hr, Hl, He, Hr'.
  exists (collect out vars []), w'.
  unfold extract_all_variables, bind. rewrite Hidx, Hr, Hr'.
  split; [reflexivity|].
  split; [apply collect_absent; [exact Hnot | reflexivity]|].
  split; [eexists; split; [exact Hl | apply logged_In; assumption]|].
  split; [eexists; split; [exact He | apply traced_In; assumption]|].
  simpl. f_equal. symmetry. apply collect_skips. exact Hnot.
Qed.

Lemma extract_all_variables_isolates_failure_witness :
  exists results w',
    extract_all_variables (Some ["aet"; "tmax"]) false true world_without_tmax
    = (Ok results, w')
    /\ dict_get results "tmax" = None
    /\ (exists lines,
          failures_log w'
          = failures_log (snd (build_spatial_index false world_without_tmax))
            ++ lines
          /\ In ("tmax", error_message (OSError (TERRACLIMATE_URL "tmax"))) lines)
    /\ (exists evs,
          events w'
          = events (snd (build_spatial_index false world_without_tmax)) ++ evs
          /\ In (EvExtractionError "tmax" (OSError (TERRACLIMATE_URL "tmax"))) evs)
    /\ fst (extract_all_variables
              (Some (filter (fun v => negb (String.eqb v "tmax")) ["aet"; "tmax"]))
              false true world_without_tmax)
       = Ok results.
Proof.
  apply (extract_all_variables_isolates_failure
           ["aet"; "tmax"] false true world_without_tmax
           (fst (index_accessions (dropna two_point_catalog) [0%float] [0%float] [] []))
           (snd (build_spatial_index false world_without_tmax))
           "tmax" (OSError (TERRACLIMATE_URL "tmax"))).
  - vm_compute. reflexivity.
  - simpl. auto.
  - vm_compute. reflexivity.
Defined.

(** Against C4 as stated: with no cache and the source of the sample
    variable [aet] unreachable, the run stops before the first variable;
    nothing is logged and [tmax], whose source is fine, is not
    extracted. *)
Lemma unreachable_sample_source_aborts_run :
  fst (extract_all_variables (Some ["aet"; "tmax"]) true true world_without_aet)
  = Err (OSError sample_url)
  /\ failures_log
       (snd (extract_all_variables (Some ["aet"; "tmax"]) true true
                                   world_without_aet)) = []
  /\ fst (extract_all_variables (Some ["tmax"]) true true world_without_aet)
     = Err (OSError sample_url)
  /\ is_ok (fst (extract_one "tmax" [("A", (0%nat, 0%nat))] true
                             world_without_aet)) = true.
Proof.
  repeat split; vm_compute; reflexivity.
Qed.

(* ------------------------------------------------------------------ *)
(** ** Facts about transform.py: the outer merge *)

Section Sorting.
Context {A : Type} (leb : A -> A -> bool).

Lemma insert_sorted_In (x y : A) (l : list A) :
  In y (insert_sorted leb x l) <-> y = x \/ In y l.
Proof.
  induction l as [|z l IH]; simpl.
  - intuition.
  - destruct (leb x z); simpl; [intuition | rewrite IH; intuition].
Qed.

Lemma isort_In (y : A) (l : list A) : In y (isort leb l) <-> In y l.
Proof.
  unfold isort. induction l as [|x l IH]; simpl; [reflexivity|].
  rewrite insert_sorted_In, IH. intuition.
Qed.

Lemma insert_sorted_NoDup (x : A) (l : list A) :
  ~ In x l -> NoDup l -> NoDup (insert_sorted leb x l).
Proof.
  induction l as [|z l IH]; simpl; intros Hx Hl.
  - constructor; [intros [] | constructor].
  - destruct (leb x z).
    + constructor; assumption.
    + inversion Hl as [|? ? Hz Hl']; subst. constructor.
      * rewrite insert_sorted_In. intuition.
      * apply IH; intuition.
Qed.

Lemma isort_NoDup (l : list A) : NoDup l -> NoDup (isort leb l).
Proof.
  unfold isort. induction l as [|x l IH]; simpl; intro H; [constructor|].
  inversion H; subst. apply insert_sorted_NoDup; [|auto].
  fold (isort leb l). rewrite isort_In. assumption.
Qed.

End Sorting.

Section Merge.

Lemma key_eqb_eq (a b : Key) : key_eqb a b = true <-> a = b.
Proof.
  unfold key_eqb. destruct (key_eq_dec a b); split; congruence.
Qed.

Lemma rows_with_In {X} (k : Key) (rows : list (Key * X)) (x : X) :
  In x (rows_with k rows) <-> In (k, x) rows.
Proof.
  unfold rows_with. rewrite in_map_iff. split.
  - intros ([k' x'] & <- & H). apply filter_In in H. destruct H as [H E].
    simpl in E. apply key_eqb_eq in E. subst. exact H.
  - intro H. exists (k, x). split; [reflexivity|].
    apply filter_In. split; [exact H|]. simpl. apply key_eqb_eq. reflexivity.
Qed.

Lemma rows_with_nil {X} (k : Key) (rows : list (Key * X)) :
  rows_with k rows = [] <-> ~ In k (map fst rows).
Proof.
  split.
  - intros H Hin. apply in_map_iff in Hin. destruct Hin as ([k' x] & Hk & Hin).
    simpl in Hk. subst k'. apply rows_with_In in Hin. rewrite H in Hin.
    exact Hin.
  - intro H. destruct (rows_with k rows) as [|x l] eqn:E; [reflexivity|].
    exfalso. apply H. apply in_map_iff. exists (k, x). split; [reflexivity|].
    apply rows_with_In. rewrite E. left. reflexivity.
Qed.

Lemma or_default_In {X} (d x : X) (l : list X) :
  In x (or_default d l) <-> In x l \/ (l = [] /\ x = d).
Proof.
  destruct l as [|y l]; simpl.
  - split; [intros [<- | []]; right; auto | intros [[] | [_ ->]]; auto].
  - split; [auto | intros [H | [H _]]; [exact H | discriminate]].
Qed.

(** The rows of an outer merge. *)
Lemma outer_merge_rows left var right k cells' :
  In (k, cells') (wf_rows (outer_merge left var right))
  <-> (In k (wide_keys left) \/ In k (map fst right))
      /\ exists cells x,
           cells' = cells ++ [x]
           /\ (In (k, cells) (wf_rows left)
               \/ (~ In k (wide_keys left)
                   /\ cells = repeat nan (List.length (wf_columns left))))
           /\ (In (k, x) right \/ (~ In k (map fst right) /\ x = nan)).
Proof.
  unfold outer_merge, wide_keys. simpl. rewrite in_flat_map. split.
  - intros (k0 & Hk0 & Hin).
    rewrite isort_In, nodup_In, in_app_iff in Hk0.
    apply in_flat_map in Hin. destruct Hin as (cells & Hc & Hin).
    apply in_map_iff in Hin. destruct Hin as (x & [= <- <-] & Hx).
    split; [exact Hk0|]. exists cells, x. split; [reflexivity|].
    apply or_default_In in Hc. apply or_default_In in Hx.
    rewrite rows_with_In, rows_with_nil in Hc.
    rewrite rows_with_In, rows_with_nil in Hx.
    split; [exact Hc | exact Hx].
  - intros (Hk & cells & x & -> & Hc & Hx).
    exists k. split.
    + rewrite isort_In, nodup_In, in_app_iff. exact Hk.
    + apply in_flat_map. exists cells. split.
      * apply or_default_In. rewrite rows_with_In, rows_with_nil. exact Hc.
      * apply in_map_iff. exists x. split; [reflexivity|].
        apply or_default_In. rewrite rows_with_In, rows_with_nil. exact Hx.
Qed.

Lemma outer_merge_keys left var right k :
  In k (wide_keys (outer_merge left var right))
  <-> In k (wide_keys left) \/ In k (map fst right).
Proof.
  unfold wide_keys at 1. rewrite in_map_iff. split.
  - intros ([k' cells'] & Hk & Hin). simpl in Hk. subst k'.
    apply outer_merge_rows in Hin. tauto.
  - intro Hk.
    assert (Hl : exists cells,
               In (k, cells) (wf_rows left)
               \/ (~ In k (wide_keys left)
                   /\ cells = repeat nan (List.length (wf_columns left)))).
    { destruct (in_dec key_eq_dec k (wide_keys left)) as [Hin | Hnin].
      - unfold wide_keys in Hin. apply in_map_iff in Hin.
        destruct Hin as ([k' cells] & Hk' & Hin). simpl in Hk'. subst k'.
        eauto.
      - eauto. }
    assert (Hr : exists x,
               In (k, x) right \/ (~ In k (map fst right) /\ x = nan)).
    { destruct (in_dec key_eq_dec k (map fst right)) as [Hin | Hnin].
      - apply in_map_iff in Hin.
        destruct Hin as ([k' x] & Hk' & Hin). simpl in Hk'. subst k'. eauto.
      - eauto. }
    destruct Hl as (cells & Hl). destruct Hr as (x & Hr).
    exists (k, cells ++ [x]). split; [reflexivity|].
    apply outer_merge_rows. split; [exact Hk|]. eauto 6.
Qed.

Lemma merged_first first_var df :
  lt_var df = first_var -> merged [(first_var, df)] (wide_of_long df).
Proof.
  intro Hv. unfold merged, wide_of_long, wide_keys, dict_keys. simpl.
  split; [rewrite Hv; reflexivity|]. split.
  - intros k cells Hin. apply in_map_iff in Hin.
    destruct Hin as ([k' x] & [= <- <-] & Hin).
    constructor; [|constructor]. left. exact Hin.
  - intro k. rewrite map_map. simpl. fold (long_keys df). split.
    + intro H. exists (first_var, df). auto.
    + intros (vt & [<- | []] & H). exact H.
Qed.

Lemma absent_row_conforms k (done : PyDict LongTable) :
  (forall vt, In vt done -> ~ In k (long_keys (snd vt))) ->
  Forall2 (cell_from k) done (repeat nan (List.length done)).
Proof.
  induction done as [|vt done IH]; intro H; simpl; constructor.
  - right. split; [apply H; left; reflexivity | reflexivity].
  - apply IH. intros vt' Hin. apply H. right. exact Hin.
Qed.

Lemma merged_step done df var t :
  merged done df ->
  merged (done ++ [(var, t)]) (outer_merge df var (lt_rows t)).
Proof.
  intros (Hcols & Hrows & Hkeys). unfold merged. split; [|split].
  - simpl. rewrite Hcols. unfold dict_keys. rewrite map_app. reflexivity.
  - intros k cells' Hin. apply outer_merge_rows in Hin.
    destruct Hin as (_ & cells & x & -> & Hl & Hr).
    apply Forall2_app.
    + destruct Hl as [Hl | [Hnin ->]]; [auto|].
      rewrite Hcols. unfold dict_keys. rewrite length_map.
      apply absent_row_conforms. intros vt Hvt Hk. apply Hnin.
      apply Hkeys. eauto.
    + constructor; [|constructor]. exact Hr.
  - intro k. rewrite outer_merge_keys, Hkeys. split.
    + intros [(vt & Hvt & Hk) | Hk].
      * exists vt. split; [apply in_or_app; left; exact Hvt | exact Hk].
      * exists (var, t). split; [apply in_or_app; right; left; reflexivity|].
        exact Hk.
    + intros (vt & Hvt & Hk). apply in_app_or in Hvt.
      destruct Hvt as [Hvt | [<- | []]]; [left; eauto | right; exact Hk].
Qed.

Lemma merge_each_merged rest :
  forall done df,
    columns_named rest -> merged done df ->
    exists out, merge_each df rest = Ok out /\ merged (done ++ rest) out.
Proof.
  induction rest as [|[var t] rest IH]; intros done df Hn Hm; simpl.
  - exists df. rewrite app_nil_r. auto.
  - inversion Hn as [|? ? Hv Hn']; subst. simpl in Hv.
    unfold select_var. rewrite Hv, String.eqb_refl. simpl.
    destruct (IH (done ++ [(var, t)]) (outer_merge df var (lt_rows t)) Hn'
                 (merged_step _ _ _ _ Hm)) as (out & Ho & Hm').
    exists out. rewrite <- app_assoc in Hm'. auto.
Qed.

Lemma conforming_cell (done : PyDict LongTable) k cells :
  Forall2 (cell_from k) done cells ->
  NoDup (dict_keys done) ->
  forall v t, In (v, t) done ->
    exists x, row_get (dict_keys done) cells v = Some x
              /\ cell_from k (v, t) x.
Proof.
  unfold dict_keys.
  induction 1 as [|[v0 t0] x0 done cells Hc HF IH]; intros Hnd v t Hin;
    [contradiction|].
  simpl in Hnd. inversion Hnd as [|? ? Hnin Hnd']; subst. simpl.
  destruct Hin as [[= -> ->] | Hin].
  - rewrite String.eqb_refl. eauto.
  - destruct (String.eqb v0 v) eqn:E.
    + apply String.eqb_eq in E. subst v0. exfalso. apply Hnin.
      apply in_map_iff. exists (v, t). auto.
    + apply IH; assumption.
Qed.

(** C6. The merge of a non-empty mapping of per-variable tables succeeds;
    its keys are exactly the keys found in some input table; and a key that
    only the table of [A] has yields rows (at least one) that carry a value
    of [A]'s table under column [A] and NaN under every other column. *)
Theorem merge_variables_wide_format_outer_join (variable_data : PyDict LongTable) :
  variable_data <> [] ->
  NoDup (dict_keys variable_data) ->
  columns_named variable_data ->
  exists out,
    merge_variables_wide_format variable_data = Ok out
    /\ wf_columns out = dict_keys variable_data
    /\ (forall k, In k (wide_keys out)
                  <-> exists v t, In (v, t) variable_data /\ In k (long_keys t))
    /\ (forall A tA k,
          In (A, tA) variable_data ->
          In k (long_keys tA) ->
          (forall B tB, In (B, tB) variable_data -> B <> A ->
                        ~ In k (long_keys tB)) ->
          (exists cells, In (k, cells) (wf_rows out))
          /\ forall cells, In (k, cells) (wf_rows out) ->
               (exists a, row_get (wf_columns out) cells A = Some a
                          /\ In (k, a) (lt_rows tA))
               /\ (forall B, In B (wf_columns out) -> B <> A ->
                             row_get (wf_columns out) cells B = Some nan)).
Proof.
  intros Hne Hnd Hnamed.
  destruct variable_data as [|[first_var df] rest]; [congruence|].
  inversion Hnamed as [|? ? Hv Hn']; subst. simpl in Hv.
  destruct (merge_each_merged rest [(first_var, df)] (wide_of_long df) Hn'
              (merged_first _ _ Hv)) as (out & Ho & Hcols & Hrows & Hkeys).
  change ([(first_var, df)] ++ rest) with ((first_var, df) :: rest) in *.
  exists out. split; [exact Ho|]. split; [exact Hcols|]. split.
  - intro k. rewrite Hkeys. split.
    + intros ([v t] & Hin & Hk). eauto.
    + intros (v & t & Hin & Hk). exists (v, t). auto.
  - intros A tA k HA Hk Honly. split.
    + assert (Hin : In k (wide_keys out)).
      { apply Hkeys. exists (A, tA). auto. }
      unfold wide_keys in Hin. apply in_map_iff in Hin.
      destruct Hin as ([k' cells] & Hk' & Hin). simpl in Hk'. subst k'. eauto.
    + intros cells Hin. rewrite Hcols. specialize (Hrows _ _ Hin). split.
      * destruct (conforming_cell _ _ _ Hrows Hnd _ _ HA) as (a & Ha & Hfrom).
        exists a. split; [exact Ha|].
        destruct Hfrom as [Hfrom | [Hnin _]]; [exact Hfrom | contradiction].
      * intros B HB Hneq. unfold dict_keys in HB. apply in_map_iff in HB.
        destruct HB as ([B' tB] & HB' & HB). simpl in HB'. subst B'.
        destruct (conforming_cell _ _ _ Hrows Hnd _ _ HB) as (b & Hb & Hfrom).
        rewrite Hb. f_equal.
        destruct Hfrom as [Hfrom | [_ Hnan]]; [|exact Hnan].
        exfalso. apply (Honly B tB HB Hneq).
        unfold long_keys. apply in_map_iff. exists (k, b). auto.
Qed.

Lemma merge_variables_wide_format_outer_join_witness :
  exists out,
    merge_variables_wide_format example_tables = Ok out
    /\ wf_columns out = dict_keys example_tables
    /\ (forall k, In k (wide_keys out)
                  <-> exists v t, In (v, t) example_tables /\ In k (long_keys t))
    /\ (forall A tA k,
          In (A, tA) example_tables ->
          In k (long_keys tA) ->
          (forall B tB, In (B, tB) example_tables -> B <> A ->
                        ~ In k (long_keys tB)) ->
          (exists cells, In (k, cells) (wf_rows out))
          /\ forall cells, In (k, cells) (wf_rows out) ->
               (exists a, row_get (wf_columns out) cells A = Some a
                          /\ In (k, a) (lt_rows tA))
               /\ (forall B, In B (wf_columns out) -> B <> A ->
                             row_get (wf_columns out) cells B = Some nan)).
Proof.
  apply (merge_variables_wide_format_outer_join example_tables).
  - discriminate.
  - simpl. repeat constructor; simpl; intuition discriminate.
  - repeat constructor.
Defined.

(** The merged example, row by row. *)
Lemma merge_example :
  merge_variables_wide_format example_tables
  = Ok (mkWide ["ppt"; "aet"; "pet"]
          [(("A", 1958%Z, 1%Z), [100; 40; 50]%float);
           (("A", 1958%Z, 2%Z), [80; nan; nan]%float);
           (("B", 1958%Z, 1%Z), [5; nan; nan]%float);
           (("C", 1958%Z, 1%Z), [nan; 7; nan]%float)]).
Proof. vm_compute. reflexivity. Qed.

End Merge.

(* ------------------------------------------------------------------ *)
(** ** Derived climate indices *)

Section Cells.

Lemma has_column_In cols n : has_column cols n = true <-> In n cols.
Proof.
  unfold has_column. rewrite existsb_exists. split.
  - intros (x & Hin & E). apply String.eqb_eq in E. subst. exact Hin.
  - intro H. exists n. split; [exact H | apply String.eqb_refl].
Qed.

Lemma has_column_cons c cols n :
  has_column (c :: cols) n = String.eqb n c || has_column cols n.
Proof. reflexivity. Qed.

Lemma has_column_app cols n m :
  has_column (cols ++ [m]) n = has_column cols n || String.eqb n m.
Proof.
  unfold has_column. rewrite existsb_app. simpl. rewrite orb_false_r.
  reflexivity.
Qed.

Lemma has_column_cols_set cols name n :
  has_column (cols_set cols name) n = has_column cols n || String.eqb n name.
Proof.
  unfold cols_set. destruct (has_column cols name) eqn:E.
  - destruct (String.eqb n name) eqn:En.
    + apply String.eqb_eq in En. subst. rewrite E. reflexivity.
    + rewrite orb_false_r. reflexivity.
  - apply has_column_app.
Qed.

Lemma row_set_length cols name v :
  forall cells, List.length cells = List.length cols ->
    List.length (row_set cols cells name v) = List.length (cols_set cols name).
Proof.
  unfold cols_set.
  induction cols as [|c cols IH]; intros [|x cells] Hlen;
    cbn -[has_column] in *; try discriminate; [reflexivity|].
  rewrite has_column_cons, (String.eqb_sym name c).
  destruct (String.eqb c name) eqn:E; cbn -[has_column]; [congruence|].
  injection Hlen as Hlen. rewrite (IH _ Hlen).
  destruct (has_column cols name); reflexivity.
Qed.

Lemma cell_row_set cols name v n :
  forall cells, List.length cells = List.length cols ->
    cell (cols_set cols name) (row_set cols cells name v) n
    = if String.eqb n name then v else cell cols cells n.
Proof.
  unfold cell, cols_set.
  induction cols as [|c cols IH]; intros [|x cells] Hlen;
    cbn -[has_column] in *; try discriminate.
  - cbn. rewrite (String.eqb_sym name n). destruct (String.eqb n name); reflexivity.
  - injection Hlen as Hlen. specialize (IH _ Hlen).
    rewrite has_column_cons, (String.eqb_sym name c).
    destruct (String.eqb c name) eqn:E; cbn -[has_column].
    + apply String.eqb_eq in E. subst c.
      rewrite (String.eqb_sym name n). destruct (String.eqb n name); reflexivity.
    + destruct (has_column cols name) eqn:Eh; cbn -[has_column];
        destruct (String.eqb c n) eqn:Ecn.
      * apply String.eqb_eq in Ecn. subst c. rewrite E. reflexivity.
      * exact IH.
      * apply String.eqb_eq in Ecn. subst c. rewrite E. reflexivity.
      * exact IH.
Qed.

End Cells.

Section Derived.

Lemma Forall2_map_r {X Y} (P : X -> Y -> Prop) (h : X -> Y) (l : list X) :
  (forall x, In x l -> P x (h x)) -> Forall2 P l (map h l).
Proof.
  induction l as [|x l IH]; intro H; simpl; constructor.
  - apply H. left. reflexivity.
  - apply IH. intros y Hy. apply H. right. exact Hy.
Qed.

Lemma derive_spec name a b f df :
  rectangular df ->
  rectangular (derive name a b f df)
  /\ (forall n,
        has_column (wf_columns (derive name a b f df)) n
        = has_column (wf_columns df) n
          || (has_column (wf_columns df) a && has_column (wf_columns df) b
              && String.eqb n name))
  /\ Forall2 (derive_row name a b f (wf_columns df)
                         (wf_columns (derive name a b f df)))
             (wf_rows df) (wf_rows (derive name a b f df)).
Proof.
  intro Hrect. unfold derive, derive_row.
  destruct (has_column (wf_columns df) a && has_column (wf_columns df) b).
  - split; [|split].
    + intros r' Hin. cbn [wf_rows wf_columns assign] in *.
      apply in_map_iff in Hin. destruct Hin as (r & <- & Hin).
      cbn [snd]. apply row_set_length. apply Hrect. exact Hin.
    + intro n. cbn [wf_columns assign]. apply has_column_cols_set.
    + cbn [wf_rows wf_columns assign]. apply Forall2_map_r. intros r Hin.
      cbn [fst snd]. split; [reflexivity|]. intro n.
      rewrite cell_row_set by (apply Hrect; exact Hin). reflexivity.
  - split; [exact Hrect | split].
    + intro n. rewrite orb_false_r. reflexivity.
    + rewrite <- (map_id (wf_rows df)) at 2.
      apply Forall2_map_r. intros r _. split; reflexivity.
Qed.

Lemma add_derived_as_steps df :
  add_derived_climate_indices df
  = derive "moisture_availability" "soil" "def" PrimFloat.sub
      (derive "temp_range" "tmax" "tmin" PrimFloat.sub
         (derive "water_balance" "ppt" "aet" PrimFloat.sub
            (derive "aridity_index" "pet" "ppt"
                    (fun pet ppt => pet / (ppt + point_one))%float df))).
Proof. reflexivity. Qed.

Lemma Forall2_chain {X} (P Q : X -> X -> Prop) (l1 l2 l3 : list X) :
  Forall2 P l1 l2 -> Forall2 Q l2 l3 ->
  Forall2 (fun x z => exists y, P x y /\ Q y z) l1 l3.
Proof.
  intro H. revert l3. induction H as [|x y l1 l2 Hxy H IH]; intros l3 H3;
    inversion H3; subst; constructor; eauto.
Qed.

Ltac split_name n :=
  destruct (String.eqb_spec n "aridity_index") as [-> | ?];
  [| destruct (String.eqb_spec n "water_balance") as [-> | ?];
     [| destruct (String.eqb_spec n "temp_range") as [-> | ?];
        [| destruct (String.eqb_spec n "moisture_availability") as [-> | ?]]]].

Ltac split_columns cols :=
  repeat match goal with
         | |- context [has_column cols ?s] => destruct (has_column cols s)
         end.

Lemma add_derived_closed_form df :
  rectangular df ->
  (forall n,
     has_column (wf_columns (add_derived_climate_indices df)) n
     = has_column (wf_columns df) n || assigned (wf_columns df) n)
  /\ Forall2 (fun r r' =>
                fst r' = fst r
                /\ forall n,
                     cell (wf_columns (add_derived_climate_indices df)) (snd r') n
                     = derived_cell (wf_columns df) (snd r) n)
             (wf_rows df) (wf_rows (add_derived_climate_indices df)).
Proof.
  intro Hrect. rewrite add_derived_as_steps.
  set (f1 := (fun pet ppt => pet / (ppt + point_one))%float).
  set (df1 := derive "aridity_index" "pet" "ppt" f1 df).
  set (df2 := derive "water_balance" "ppt" "aet" PrimFloat.sub df1).
  set (df3 := derive "temp_range" "tmax" "tmin" PrimFloat.sub df2).
  set (df4 := derive "moisture_availability" "soil" "def" PrimFloat.sub df3).
  destruct (derive_spec "aridity_index" "pet" "ppt" f1 df Hrect)
    as (Hr1 & Hc1 & HF1). fold df1 in Hr1, Hc1, HF1.
  destruct (derive_spec "water_balance" "ppt" "aet" PrimFloat.sub df1 Hr1)
    as (Hr2 & Hc2 & HF2). fold df2 in Hr2, Hc2, HF2.
  destruct (derive_spec "temp_range" "tmax" "tmin" PrimFloat.sub df2 Hr2)
    as (Hr3 & Hc3 & HF3). fold df3 in Hr3, Hc3, HF3.
  destruct (derive_spec "moisture_availability" "soil" "def" PrimFloat.sub df3 Hr3)
    as (_ & Hc4 & HF4). fold df4 in Hc4, HF4.
  set (cols := wf_columns df) in *.
  split.
  - intro n. unfold assigned.
    rewrite Hc4, !Hc3, !Hc2, !Hc1.
    split_name n; cbn [String.eqb Ascii.eqb Bool.eqb];
      repeat match goal with
             | H : ?n <> _ |- _ =>
                 apply String.eqb_neq in H; rewrite H; clear H
             end;
      rewrite ?andb_false_r, ?orb_false_r, ?andb_true_r;
      split_columns cols; reflexivity.
  - pose proof (Forall2_chain _ _ _ _ _
                  (Forall2_chain _ _ _ _ _
                     (Forall2_chain _ _ _ _ _ HF1 HF2) HF3) HF4) as HF.
    eapply Forall2_impl; [|exact HF].
    intros r r4 (r3 & (r2 & (r1 & [Hk1 H1] & [Hk2 H2]) & [Hk3 H3]) & [Hk4 H4]).
    split; [congruence|].
    intro n. unfold derived_cell.
    rewrite H4, !H3, !H2, !H1, !Hc3, !Hc2, !Hc1. unfold f1.
    split_name n; cbn [String.eqb Ascii.eqb Bool.eqb];
      repeat match goal with
             | H : ?n <> _ |- _ =>
                 apply String.eqb_neq in H; rewrite H; clear H
             end;
      rewrite ?andb_false_r, ?orb_false_r, ?andb_true_r;
      split_columns cols; reflexivity.
Qed.

(** C7. On a frame whose rows are complete, [add_derived_climate_indices]
    keeps every row and its key, has a column exactly when the input had
    it or the column is a derived index whose two inputs are present,
    leaves every cell of a column it does not assign as it was, and fills
    the four indices with pet/(ppt + 0.1), ppt - aet, tmax - tmin and
    soil - def of the same row. *)
Theorem add_derived_climate_indices_spec df :
  rectangular df ->
  (forall n,
     has_column (wf_columns (add_derived_climate_indices df)) n
     = has_column (wf_columns df) n || assigned (wf_columns df) n)
  /\ Forall2
       (fun r r' =>
          let old := cell (wf_columns df) (snd r) in
          let new := cell (wf_columns (add_derived_climate_indices df)) (snd r') in
          let has := has_column (wf_columns df) in
          fst r' = fst r
          /\ (forall n, assigned (wf_columns df) n = false -> new n = old n)
          /\ (has "pet" = true -> has "ppt" = true ->
              new "aridity_index" = (old "pet" / (old "ppt" + point_one))%float)
          /\ (has "ppt" = true -> has "aet" = true ->
              new "water_balance" = (old "ppt" - old "aet")%float)
          /\ (has "tmax" = true -> has "tmin" = true ->
              new "temp_range" = (old "tmax" - old "tmin")%float)
          /\ (has "soil" = true -> has "def" = true ->
              new "moisture_availability" = (old "soil" - old "def")%float))
       (wf_rows df) (wf_rows (add_derived_climate_indices df)).
Proof.
  intro Hrect. destruct (add_derived_closed_form df Hrect) as [Hcols HF].
  split; [exact Hcols|].
  eapply Forall2_impl; [|exact HF].
  intros r r' [Hk Hcell]. cbv zeta.
  split; [exact Hk|].
  split; [|repeat split; intros Ha Hb; rewrite Hcell; unfold derived_cell;
            cbn [String.eqb Ascii.eqb Bool.eqb]; rewrite ?Ha, ?Hb;
            cbn [andb]; try reflexivity].
  - intros n Hn. rewrite Hcell. unfold derived_cell, assigned in *.
    apply orb_false_iff in Hn. destruct Hn as [Hn H4].
    apply orb_false_iff in Hn. destruct Hn as [Hn H3].
    apply orb_false_iff in Hn. destruct Hn as [H1 H2].
    rewrite H1, H2, H3, H4. reflexivity.
Qed.

Lemma add_derived_climate_indices_spec_witness :
  (forall n,
     has_column (wf_columns (add_derived_climate_indices climate_frame)) n
     = has_column (wf_columns climate_frame) n
       || assigned (wf_columns climate_frame) n)
  /\ Forall2
       (fun r r' =>
          let old := cell (wf_columns climate_frame) (snd r) in
          let new := cell (wf_columns (add_derived_climate_indices climate_frame))
                          (snd r') in
          let has := has_column (wf_columns climate_frame) in
          fst r' = fst r
          /\ (forall n, assigned (wf_columns climate_frame) n = false ->
                        new n = old n)
          /\ (has "pet" = true -> has "ppt" = true ->
              new "aridity_index" = (old "pet" / (old "ppt" + point_one))%float)
          /\ (has "ppt" = true -> has "aet" = true ->
              new "water_balance" = (old "ppt" - old "aet")%float)
          /\ (has "tmax" = true -> has "tmin" = true ->
              new "temp_range" = (old "tmax" - old "tmin")%float)
          /\ (has "soil" = true -> has "def" = true ->
              new "moisture_availability" = (old "soil" - old "def")%float))
       (wf_rows climate_frame)
       (wf_rows (add_derived_climate_indices climate_frame)).
Proof.
  apply (add_derived_climate_indices_spec climate_frame).
  intros r [<- | []]. reflexivity.
Defined.

(** The worked examples of the specification: ppt=100, aet=40, pet=50,
    tmax=30, tmin=10. *)
Lemma derived_indices_examples :
  add_derived_climate_indices climate_frame
  = mkWide ["ppt"; "aet"; "pet"; "tmax"; "tmin";
            "aridity_index"; "water_balance"; "temp_range"]
           [(("A", 1958%Z, 1%Z),
             [100; 40; 50; 30; 10; 50 / hundred_point_one; 60; 20]%float)].
Proof. vm_compute. reflexivity. Qed.

(** Against C7 as stated: a column that is already named like a
    derived index is overwritten, here 999 by 100 - 40. *)
Lemma existing_water_balance_overwritten :
  cell (wf_columns frame_with_water_balance)
       [100; 40; 999]%float "water_balance" = 999%float
  /\ add_derived_climate_indices frame_with_water_balance
     = mkWide ["ppt"; "aet"; "water_balance"]
              [(("A", 1958%Z, 1%Z), [100; 40; 60]%float)].
Proof. split; vm_compute; reflexivity. Qed.

End Derived.

(* ------------------------------------------------------------------ *)
(** ** Grouped statistics *)

Section Aggregation.
Context {R : Reducers}.

Lemma flat_map_map {X Y Z} (h : X -> Y) (f : Y -> list Z) (l : list X) :
  flat_map f (map h l) = flat_map (fun x => f (h x)) l.
Proof.
  induction l as [|x l IH]; simpl; [reflexivity | rewrite IH; reflexivity].
Qed.

Lemma map_flat_map {X Y Z} (h : Y -> Z) (f : X -> list Y) (l : list X) :
  map h (flat_map f l) = flat_map (fun x => map h (f x)) l.
Proof.
  induction l as [|x l IH]; simpl; [reflexivity|].
  rewrite map_app, IH. reflexivity.
Qed.

Lemma find_all_false {X} (f : X -> bool) (l : list X) :
  (forall x, In x l -> f x = false) -> find f l = None.
Proof.
  induction l as [|x l IH]; intro H; simpl; [reflexivity|].
  rewrite (H x) by (left; reflexivity). apply IH. intros y Hy. apply H.
  right. exact Hy.
Qed.

Lemma dict_set_uniform {V} (d : PyDict V) k (s : V) :
  d = map (fun v => (v, s)) (dict_keys d) ->
  dict_set d k s = map (fun v => (v, s)) (dict_keys (dict_set d k s)).
Proof.
  unfold dict_keys. induction d as [|[k0 v0] d IH]; simpl; intro H;
    [reflexivity|].
  injection H as -> Hd. destruct (String.eqb k0 k); simpl.
  - f_equal. exact Hd.
  - f_equal. apply IH. exact Hd.
Qed.

Lemma make_agg_dict_spec vars stats :
  NoDup (dict_keys (make_agg_dict vars stats))
  /\ (forall v, In v (dict_keys (make_agg_dict vars stats)) <-> In v vars)
  /\ make_agg_dict vars stats
     = map (fun v => (v, stats)) (dict_keys (make_agg_dict vars stats)).
Proof.
  unfold make_agg_dict.
  assert (H : forall d : PyDict (list Stat),
             NoDup (dict_keys d) ->
             d = map (fun v => (v, stats)) (dict_keys d) ->
             let d' := fold_left (fun d var => dict_set d var stats) vars d in
             NoDup (dict_keys d')
             /\ (forall v, In v (dict_keys d') <-> In v (dict_keys d) \/ In v vars)
             /\ d' = map (fun v => (v, stats)) (dict_keys d')).
  { induction vars as [|x vars IH]; intros d Hnd Hd; simpl.
    - split; [exact Hnd|]. split; [intuition | exact Hd].
    - destruct (IH (dict_set d x stats) (dict_set_NoDup _ _ _ Hnd)
                   (dict_set_uniform _ _ _ Hd)) as (H1 & H2 & H3).
      split; [exact H1|]. split; [|exact H3].
      intro v. rewrite H2, dict_keys_set. intuition. }
  destruct (H [] (NoDup_nil _) eq_refl) as (H1 & H2 & H3).
  split; [exact H1|]. split; [|exact H3].
  intro v. rewrite H2. simpl. intuition.
Qed.

Lemma group_eqb_eq (a b : list Scalar) : group_eqb a b = true <-> a = b.
Proof.
  unfold group_eqb. destruct (group_eq_dec a b); split; congruence.
Qed.

Lemma present_In (keyed : list (option (list Scalar) * list float)) g cells :
  In (g, cells)
     (flat_map (fun r => match fst r with
                         | Some g => [(g, snd r)]
                         | None => []
                         end) keyed)
  <-> In (Some g, cells) keyed.
Proof.
  rewrite in_flat_map. split.
  - intros ([[g'|] c] & Hin & H); simpl in H; [|contradiction].
    destruct H as [[= -> ->] | []]. exact Hin.
  - intro H. exists (Some g, cells). split; [exact H | left; reflexivity].
Qed.

Lemma group_rows_members (keyed : list (option (list Scalar) * list float)) g :
  group_rows g
    (flat_map (fun r => match fst r with
                        | Some g => [(g, snd r)]
                        | None => []
                        end) keyed)
  = members g keyed.
Proof.
  unfold group_rows, members.
  induction keyed as [|[[g'|] c] keyed IH]; simpl; [reflexivity | |exact IH].
  destruct (group_eqb g' g); simpl; rewrite IH; reflexivity.
Qed.

Lemma flatten_group_columns (group_cols : list string) :
  map flatten_column (map (fun c => (c, "")) group_cols) = group_cols.
Proof.
  rewrite map_map. simpl. apply map_id.
Qed.

(** [groupby(...).agg(...)] succeeds when every variable is a column, and
    computes the grouped statistics. *)
Lemma make_agg_dict_nonempty vars stats :
  vars <> [] -> make_agg_dict vars stats <> [].
Proof.
  intros Hne Hd. destruct vars as [|v vars]; [congruence|].
  destruct (make_agg_dict_spec (v :: vars) stats) as (_ & Hkeys & _).
  rewrite Hd in Hkeys. apply (Hkeys v). left. reflexivity.
Qed.

Lemma groupby_agg_statistics stats cols vars group_cols keyed :
  vars <> [] ->
  (forall v, In v vars -> has_column cols v = true) ->
  exists out,
    groupby_agg cols keyed group_cols (make_agg_dict vars stats) = Ok out
    /\ grouped_statistics stats cols vars group_cols keyed out.
Proof.
  intros Hne Hvars.
  destruct (make_agg_dict_spec vars stats) as (Hnd & Hkeys & Hshape).
  pose proof (make_agg_dict_nonempty vars stats Hne) as Hdict.
  unfold groupby_agg. rewrite find_all_false.
  2:{ intros [v ss] Hin. simpl. apply negb_false_iff. apply Hvars.
      apply Hkeys. unfold dict_keys. apply in_map_iff.
      exists (v, ss). auto. }
  destruct (make_agg_dict vars stats) as [|kv0 d0] eqn:Ed; [congruence|].
  rewrite <- Ed in *. cbn [rbind].
  eexists. split; [reflexivity|].
  exists (dict_keys (make_agg_dict vars stats)).
  split; [exact Hnd|]. split; [exact Hkeys|].
  cbn [agg_columns agg_rows]. split; [|split; [|split]].
  - rewrite map_app, flatten_group_columns. f_equal.
    rewrite Hshape at 1. rewrite flat_map_map, map_flat_map.
    apply flat_map_ext. intro v. cbn [fst snd]. rewrite map_map. reflexivity.
  - rewrite map_map. cbn [fst]. rewrite map_id.
    apply isort_NoDup. apply NoDup_nodup.
  - intro g. rewrite map_map. cbn [fst]. rewrite map_id.
    rewrite isort_In, nodup_In, in_map_iff. split.
    + intros ([g' cells] & Hg & Hin). simpl in Hg. subst g'.
      apply present_In in Hin. eauto.
    + intros (cells & Hin). exists (g, cells). split; [reflexivity|].
      apply present_In. exact Hin.
  - intros g cells Hin. apply in_map_iff in Hin.
    destruct Hin as (g' & [= <- <-] & _).
    rewrite group_rows_members. rewrite Hshape at 1.
    rewrite flat_map_map. reflexivity.
Qed.

Lemma combine_map {X Y} (f : X -> Y) (l : list X) :
  combine l (map f l) = map (fun x => (x, f x)) l.
Proof.
  induction l as [|x l IH]; simpl; [reflexivity | rewrite IH; reflexivity].
Qed.

Lemma compute_climate_summaries_eq df vars :
  compute_climate_summaries df vars
  = groupby_agg (wf_columns df) (keyed_by point_key df) ["accession_id"]
                (make_agg_dict vars [Mean; Std; Min; Max; Median]).
Proof.
  unfold compute_climate_summaries, keyed_by. f_equal.
  apply map_ext. intros [[[i y] m] cells]. reflexivity.
Qed.

Lemma compute_temporal_aggregates_year df vars :
  compute_temporal_aggregates df vars "year"
  = groupby_agg (wf_columns df) (keyed_by year_key df) ["accession_id"; "year"]
                (make_agg_dict vars [Mean; Std; Min; Max]).
Proof.
  unfold compute_temporal_aggregates, keyed_by. cbn [String.eqb Ascii.eqb Bool.eqb].
  f_equal. apply map_ext. intros [[[i y] m] cells]. reflexivity.
Qed.

Lemma compute_temporal_aggregates_season df vars :
  compute_temporal_aggregates df vars "season"
  = groupby_agg (wf_columns df) (keyed_by season_key df)
                ["accession_id"; "year"; "season"]
                (make_agg_dict vars [Mean; Std; Min; Max]).
Proof.
  unfold compute_temporal_aggregates, keyed_by, create_temporal_features.
  cbn [String.eqb Ascii.eqb Bool.eqb rbind season].
  f_equal. rewrite map_map, combine_map, map_map.
  apply map_ext. intros [[[i y] m] cells]. reflexivity.
Qed.

End Aggregation.

(* ------------------------------------------------------------------ *)
(** ** Aggregation modes *)

Section Modes.
Context {R : Reducers}.

Lemma prepare_for_gwas_dispatch vd mode d :
  prepare_for_gwas vd mode d
  = rbind (prepared vd d) (fun df =>
      if String.eqb mode "summary" then
        rbind (compute_climate_summaries df (climate_columns df))
              (fun out => Ok (Aggregated out))
      else if String.eqb mode "annual" then
        rbind (compute_temporal_aggregates df (climate_columns df) "year")
              (fun out => Ok (Aggregated out))
      else if String.eqb mode "seasonal" then
        rbind (compute_temporal_aggregates df (climate_columns df) "season")
              (fun out => Ok (Aggregated out))
      else if String.eqb mode "monthly" then Ok (Monthly df)
      else Err (ValueError ("Unknown aggregation type: " ++ mode))).
Proof.
  unfold prepare_for_gwas, prepared.
  destruct (merge_variables_wide_format vd) as [df|e]; [|reflexivity].
  destruct d; reflexivity.
Qed.

Lemma climate_columns_present df v :
  In v (climate_columns df) -> has_column (wf_columns df) v = true.
Proof.
  unfold climate_columns. intro H. apply filter_In in H.
  apply has_column_In. tauto.
Qed.

(** C8. On the merged frame (with the derived indices when asked for),
    when it has a climate column, the mode [summary] gives one row per
    point with the mean, std, min, max and median of every climate column;
    the modes [annual] and [seasonal] give one row per (point, year) and
    per (point, year, season) with the mean, std, min and max of every
    climate column, and no median. *)
Theorem aggregation_modes_statistics vd d df :
  prepared vd d = Ok df ->
  climate_columns df <> [] ->
  (exists out,
     prepare_for_gwas vd "summary" d = Ok (Aggregated out)
     /\ grouped_statistics [Mean; Std; Min; Max; Median]
          (wf_columns df) (climate_columns df) ["accession_id"]
          (keyed_by point_key df) out)
  /\ (exists out,
        prepare_for_gwas vd "annual" d = Ok (Aggregated out)
        /\ grouped_statistics [Mean; Std; Min; Max]
             (wf_columns df) (climate_columns df) ["accession_id"; "year"]
             (keyed_by year_key df) out)
  /\ (exists out,
        prepare_for_gwas vd "seasonal" d = Ok (Aggregated out)
        /\ grouped_statistics [Mean; Std; Min; Max]
             (wf_columns df) (climate_columns df)
             ["accession_id"; "year"; "season"]
             (keyed_by season_key df) out).
Proof.
  intros Hp Hne. rewrite !prepare_for_gwas_dispatch, Hp.
  cbn [rbind String.eqb Ascii.eqb Bool.eqb].
  rewrite compute_climate_summaries_eq, compute_temporal_aggregates_year,
    compute_temporal_aggregates_season.
  split; [|split].
  - destruct (groupby_agg_statistics [Mean; Std; Min; Max; Median]
                (wf_columns df) (climate_columns df) ["accession_id"]
                (keyed_by point_key df) Hne (climate_columns_present df))
      as (out & Ho & Hs).
    exists out. rewrite Ho. auto.
  - destruct (groupby_agg_statistics [Mean; Std; Min; Max]
                (wf_columns df) (climate_columns df) ["accession_id"; "year"]
                (keyed_by year_key df) Hne (climate_columns_present df))
      as (out & Ho & Hs).
    exists out. rewrite Ho. auto.
  - destruct (groupby_agg_statistics [Mean; Std; Min; Max]
                (wf_columns df) (climate_columns df)
                ["accession_id"; "year"; "season"]
                (keyed_by season_key df) Hne (climate_columns_present df))
      as (out & Ho & Hs).
    exists out. rewrite Ho. auto.
Qed.

Lemma groupby_agg_ok stats cols vars group_cols keyed :
  is_ok (rmap flatten_label group_cols) = true ->
  (forall v, In v vars -> has_column cols v = true) ->
  is_ok (rbind (groupby_agg cols keyed group_cols (make_agg_dict vars stats))
               (fun out => Ok (Aggregated out))) = true.
Proof.
  intros Hg H. destruct vars as [|v vars].
  - unfold groupby_agg. cbn [make_agg_dict fold_left find].
    destruct (rmap flatten_label group_cols); [reflexivity | discriminate Hg].
  - destruct (groupby_agg_statistics stats cols (v :: vars) group_cols keyed)
      as (out & Ho & _); [discriminate | exact H |].
    rewrite Ho. reflexivity.
Qed.

Lemma not_a_choice mode :
  ~ In mode aggregation_choices ->
  String.eqb mode "summary" = false /\ String.eqb mode "annual" = false
  /\ String.eqb mode "seasonal" = false /\ String.eqb mode "monthly" = false.
Proof.
  intro H. unfold aggregation_choices in H. simpl in H.
  repeat split; apply String.eqb_neq; intro E; apply H; subst; tauto.
Qed.

(** C9. [prepare_for_gwas] returns a table for each of the four modes and
    for no other mode: on data that merge, an unknown mode ends in the
    ValueError 'Unknown aggregation type', raised after the merge and the
    derived indices.  The rejection that comes before any extraction is
    the one of [parse_args]: [main] leaves with exit status 2 and the
    world untouched. *)
Theorem unknown_aggregation_rejected :
  (forall vd mode d,
     ~ In mode aggregation_choices ->
     is_ok (prepare_for_gwas vd mode d) = false
     /\ forall df, prepared vd d = Ok df ->
          prepare_for_gwas vd mode d
          = Err (ValueError ("Unknown aggregation type: " ++ mode)))
  /\ (forall vd mode d df,
        In mode aggregation_choices ->
        prepared vd d = Ok df ->
        is_ok (prepare_for_gwas vd mode d) = true)
  /\ (forall cl mode w,
        opt_aggregation cl = Some mode ->
        ~ In mode aggregation_choices ->
        main cl w = (Err (SystemExit 2), w)).
Proof.
  split; [|split].
  - intros vd mode d Hmode.
    destruct (not_a_choice mode Hmode) as (E1 & E2 & E3 & E4).
    rewrite prepare_for_gwas_dispatch.
    destruct (prepared vd d) as [df|e]; cbn [rbind].
    + rewrite E1, E2, E3, E4. split; [reflexivity|]. intros df' _. reflexivity.
    + split; [reflexivity|]. intros df' H. discriminate.
  - intros vd mode d df Hmode Hp.
    rewrite prepare_for_gwas_dispatch, Hp. cbn [rbind].
    unfold aggregation_choices in Hmode. simpl in Hmode.
    destruct Hmode as [<- | [<- | [<- | [<- | []]]]];
      cbn [String.eqb Ascii.eqb Bool.eqb];
      rewrite ?compute_climate_summaries_eq, ?compute_temporal_aggregates_year,
        ?compute_temporal_aggregates_season;
      try reflexivity;
      (apply groupby_agg_ok;
       [reflexivity | apply climate_columns_present]).
  - intros cl mode w Hopt Hmode. unfold main, bind, lift, parse_args.
    rewrite Hopt.
    assert (E : has_column aggregation_choices mode = false).
    { destruct (has_column aggregation_choices mode) eqn:E; [|reflexivity].
      apply has_column_In in E. contradiction. }
    rewrite E. reflexivity.
Qed.

End Modes.

Lemma aggregation_modes_statistics_witness :
  (exists out,
     prepare_for_gwas ppt_tables "summary" false = Ok (Aggregated out)
     /\ grouped_statistics [Mean; Std; Min; Max; Median]
          (wf_columns ppt_frame) (climate_columns ppt_frame) ["accession_id"]
          (keyed_by point_key ppt_frame) out)
  /\ (exists out,
        prepare_for_gwas ppt_tables "annual" false = Ok (Aggregated out)
        /\ grouped_statistics [Mean; Std; Min; Max]
             (wf_columns ppt_frame) (climate_columns ppt_frame)
             ["accession_id"; "year"]
             (keyed_by year_key ppt_frame) out)
  /\ (exists out,
        prepare_for_gwas ppt_tables "seasonal" false = Ok (Aggregated out)
        /\ grouped_statistics [Mean; Std; Min; Max]
             (wf_columns ppt_frame) (climate_columns ppt_frame)
             ["accession_id"; "year"; "season"]
             (keyed_by season_key ppt_frame) out).
Proof.
  apply (@aggregation_modes_statistics textbook_reducers ppt_tables false
           ppt_frame).
  - reflexivity.
  - discriminate.
Defined.

(** Against C8 as stated: the yearly and the seasonal tables have no
    median column; the summary table has one. *)
Lemma temporal_aggregates_have_no_median :
  table_columns (prepare_for_gwas ppt_tables "annual" false)
  = ["accession_id"; "year"; "ppt_mean"; "ppt_std"; "ppt_min"; "ppt_max"]
  /\ table_columns (prepare_for_gwas ppt_tables "seasonal" false)
     = ["accession_id"; "year"; "season";
        "ppt_mean"; "ppt_std"; "ppt_min"; "ppt_max"]
  /\ table_columns (prepare_for_gwas ppt_tables "summary" false)
     = ["accession_id"; "ppt_mean"; "ppt_std"; "ppt_min"; "ppt_max";
        "ppt_median"].
Proof. repeat split; vm_compute; reflexivity. Qed.

(** Without a climate column nothing is aggregated, and the flattening
    takes the plain names of the grouping columns character by
    character. *)
Lemma no_climate_column_example :
  table_columns (prepare_for_gwas season_tables "summary" false)
  = ["a_c_c_e_s_s_i_o_n___i_d"]
  /\ table_columns (prepare_for_gwas season_tables "annual" false)
     = ["a_c_c_e_s_s_i_o_n___i_d"; "y_e_a_r"].
Proof. split; vm_compute; reflexivity. Qed.

(** The summary example of the specification, with the reference
    reductions: the values 1, 2, 3, 4 have mean 2.5, min 1, max 4 and
    median 2.5. *)
Lemma summary_example :
  map (fun s => reduce s [1; 2; 3; 4]%float) [Mean; Min; Max; Median]
  = [2.5; 1; 4; 2.5]%float.
Proof. vm_compute. reflexivity. Qed.

Lemma unknown_aggregation_rejected_witness :
  (is_ok (prepare_for_gwas ppt_tables "weekly" false) = false
   /\ prepare_for_gwas ppt_tables "weekly" false
      = Err (ValueError "Unknown aggregation type: weekly"))
  /\ is_ok (prepare_for_gwas ppt_tables "monthly" false) = true
  /\ main weekly_command_line world_without_tmax
     = (Err (SystemExit 2), world_without_tmax).
Proof.
  destruct (@unknown_aggregation_rejected textbook_reducers) as (H1 & H2 & H3).
  assert (Hweekly : ~ In "weekly" aggregation_choices).
  { simpl. intuition discriminate. }
  split; [|split].
  - destruct (H1 ppt_tables "weekly" false Hweekly) as [Ha Hb].
    split; [exact Ha | exact (Hb ppt_frame eq_refl)].
  - apply (H2 ppt_tables "monthly" false ppt_frame).
    + simpl. tauto.
    + reflexivity.
  - apply (H3 weekly_command_line "weekly" world_without_tmax eq_refl Hweekly).
Defined.

(** Against C9 as stated: when [prepare_for_gwas] is reached with an
    unknown mode, the index has been built and the variable extracted and
    validated before the mode is rejected. *)
Lemma unknown_mode_rejected_after_extraction :
  fst (run_pipeline weekly_args world_without_tmax) = Err (SystemExit 1)
  /\ events (snd (run_pipeline weekly_args world_without_tmax))
     = [EvOpenDataset sample_url; EvFailedAccessions ["B"]; EvCacheWrite;
        EvCacheRead; EvOpenDataset (TERRACLIMATE_URL "aet");
        EvValidationReport]
  /\ fst (extract_all_variables (Some ["aet"]) true true world_without_tmax)
     = Ok [("aet", mkLong "aet" [(("A", 1958%Z, 1%Z), 5%float)])]
  /\ prepare_for_gwas [("aet", mkLong "aet" [(("A", 1958%Z, 1%Z), 5%float)])]
                      "weekly" true
     = Err (ValueError "Unknown aggregation type: weekly").
Proof. repeat split; vm_compute; reflexivity. Qed.

(* ------------------------------------------------------------------ *)
(** ** The two extraction strategies *)

Lemma open_dataset_eq url w :
  open_dataset url w
  = (match dict_get (thredds w) url with
     | Some ds => Ok ds
     | None => Err (OSError url)
     end, emit w (EvOpenDataset url)).
Proof.
  unfold open_dataset, bind, tell. simpl.
  destruct (dict_get (thredds w) url); reflexivity.
Qed.

(** The batched strategy never returns a table: [np.tile] hands back a
    NumPy array, which has no [.year]. *)
Lemma extract_vectorized_all_locations_raises variable spatial_index w :
  is_ok (fst (extract_vectorized_all_locations variable spatial_index w))
  = false.
Proof.
  unfold extract_vectorized_all_locations, bind. rewrite open_dataset_eq.
  destruct (dict_get (thredds w) (TERRACLIMATE_URL variable)) as [ds|];
    [|reflexivity].
  unfold lift, vectorized_arrays. cbn [fst].
  destruct (ds_getitem ds variable) as [a|]; [|reflexivity]. cbn [rbind].
  destruct (da_isel_points a _ _); reflexivity.
Qed.

(** When [time] is not the first stored dimension, the batched read is
    the list of the per-point reads, point by point. *)
Lemma da_isel_points_pointwise a lat_indices lon_indices :
  fst (fst (da_dims a)) <> Time ->
  da_isel_points a lat_indices lon_indices
  = rmap (fun rc => da_isel_point a (fst rc) (snd rc))
         (combine lat_indices lon_indices).
Proof.
  unfold da_isel_points, da_isel_point.
  destruct (da_dims a) as [[d0 d1] d2]. simpl.
  destruct d0; [congruence | reflexivity | reflexivity].
Qed.

(** C1, a defect of the code. On a source stored as (time, lat, lon) the sequential
    strategy returns the four rows of the two points, while the batched
    strategy raises; and the array it had prepared pairs the rows
    (A, 1958-02) and (B, 1958-01) with each other's value. *)
Lemma vectorized_extraction_diverges :
  fst (extract_variable_sequential "tmax" two_cell_index None None
                                   time_first_world)
  = Ok (mkLong "tmax" [(("A", 1958%Z, 1%Z), 1%float);
                       (("A", 1958%Z, 2%Z), 3%float);
                       (("B", 1958%Z, 1%Z), 2%float);
                       (("B", 1958%Z, 2%Z), 4%float)])
  /\ fst (extract_vectorized_all_locations "tmax" two_cell_index
                                           time_first_world)
     = Err (AttributeError "'numpy.ndarray' object has no attribute 'year'")
  /\ vectorized_arrays time_first_dataset "tmax" two_cell_index
     = Ok (["A"; "A"; "B"; "B"],
           NdArray [mkTime 1958 1; mkTime 1958 2; mkTime 1958 1; mkTime 1958 2],
           [1; 2; 3; 4]%float).
Proof. repeat split; vm_compute; reflexivity. Qed.

Lemma cache_round_trip_witness :
  build_spatial_index true
    (snd (build_spatial_index true (world_of_catalog two_point_catalog)))
  = (Ok [("A", (0%nat, 0%nat))],
     emit (snd (build_spatial_index true (world_of_catalog two_point_catalog)))
          EvCacheRead).
Proof.
  destruct (cache_round_trip true (world_of_catalog two_point_catalog))
    as (new & _ & _ & _ & _ & H).
  apply (H [("A", (0%nat, 0%nat))] eq_refl).
  vm_compute. reflexivity.
Defined.

(* ================================================================== *)
(** * Further properties of the code *)
(* ================================================================== *)

(* ------------------------------------------------------------------ *)
(** ** Further facts about spatial_index.py *)

Lemma candidates_nil_iff grid x tol :
  candidates grid x tol = [] <-> ~ reachable grid x tol.
Proof.
  unfold reachable. split.
  - intros H (i & g & Hi & Hlt).
    destruct (candidates_complete _ _ _ _ _ Hi Hlt) as (q & Hq).
    rewrite H in Hq. destruct q; discriminate.
  - intro H. destruct (candidates grid x tol) as [|r cs] eqn:E; [reflexivity|].
    exfalso. apply H.
    destruct (candidates_sound grid x tol 0 r) as (g & Hg & Hlt).
    + rewrite E. reflexivity.
    + eauto.
Qed.

(** X1. [find_nearest_grid_cell] answers [None] exactly when the latitude
    axis or the longitude axis has no grid value whose computed
    difference [np.abs(g - x)] is below the tolerance (an empty grid, a
    tolerance that is not positive or is NaN, a NaN coordinate, a point
    out of reach). *)
Theorem find_nearest_grid_cell_none_iff lat lon grid_lats grid_lons tol :
  find_nearest_grid_cell lat lon grid_lats grid_lons tol = None
  <-> ~ reachable grid_lats lat tol \/ ~ reachable grid_lons lon tol.
Proof.
  rewrite <- !candidates_nil_iff.
  destruct (find_nearest_grid_cell_cases lat lon grid_lats grid_lons tol)
    as [[Hn Hemp] | (row & col & Hf & Hla & Hlo & _)].
  - split; auto.
  - rewrite Hf. split; [discriminate | intros [H | H]; contradiction].
Qed.

Lemma cell_of_in_bounds a grid_lats grid_lons c :
  cell_of a grid_lats grid_lons = Some c ->
  (fst c < List.length grid_lats)%nat /\ (snd c < List.length grid_lons)%nat
  /\ axis_nearest grid_lats (acc_lat a) SPATIAL_TOLERANCE (fst c)
  /\ axis_nearest grid_lons (acc_lon a) SPATIAL_TOLERANCE (snd c).
Proof.
  unfold cell_of. intro H.
  destruct (find_nearest_grid_cell_cases (acc_lat a) (acc_lon a)
              grid_lats grid_lons SPATIAL_TOLERANCE)
    as [[Hn _] | (row & col & Hf & _ & _ & Hr & Hc)]; [congruence|].
  rewrite Hf in H. injection H as <-. simpl.
  pose proof Hr as (g & Hg & _). pose proof Hc as (g' & Hg' & _).
  repeat split; try assumption.
  - apply nth_error_Some. congruence.
  - apply nth_error_Some. congruence.
Qed.

(** X2. In an index that [build_spatial_index] has rebuilt, every entry is
    the cell computed for a catalog row of that id: the cell lies inside
    the grid, and on each axis it is the nearest grid value, within the
    tolerance of the row's coordinate.  The ids of the index are exactly
    the ids of the rows that have a cell. *)
Theorem rebuilt_index_entries use_cache w raw ds :
  accessions_csv w = Some raw ->
  dict_get (thredds w) sample_url = Some ds ->
  use_cache && cache_present w = false ->
  exists idx w',
    build_spatial_index use_cache w = (Ok idx, w')
    /\ (forall id c,
          dict_get idx id = Some c ->
          exists a,
            In a (dropna raw) /\ acc_id a = id
            /\ (fst c < List.length (ds_lat ds))%nat
            /\ (snd c < List.length (ds_lon ds))%nat
            /\ axis_nearest (ds_lat ds) (acc_lat a) SPATIAL_TOLERANCE (fst c)
            /\ axis_nearest (ds_lon ds) (acc_lon a) SPATIAL_TOLERANCE (snd c))
    /\ (forall id,
          In id (dict_keys idx)
          <-> exists a c, In a (dropna raw) /\ acc_id a = id
                          /\ cell_of a (ds_lat ds) (ds_lon ds) = Some c).
Proof.
  intros Hcsv Hds Hc.
  do 2 eexists. split; [apply build_spatial_index_rebuild; eassumption|].
  split.
  - intros id c Hget. rewrite index_accessions_get in Hget. simpl in Hget.
    destruct (last_indexed (dropna raw) (ds_lat ds) (ds_lon ds) id) as [c'|] eqn:E;
      [|discriminate].
    injection Hget as ->.
    destruct (last_indexed_Some _ _ _ _ _ E) as (a & Ha & Hid & Hcell).
    destruct (cell_of_in_bounds _ _ _ _ Hcell) as (H1 & H2 & H3 & H4).
    exists a. auto 8.
  - intro id. split.
    + intro Hin.
      destruct (dict_get (fst (index_accessions (dropna raw) (ds_lat ds)
                                                (ds_lon ds) [] [])) id)
        as [c|] eqn:E.
      * rewrite index_accessions_get in E. simpl in E.
        destruct (last_indexed (dropna raw) (ds_lat ds) (ds_lon ds) id) as [c'|] eqn:El;
          [|discriminate].
        destruct (last_indexed_Some _ _ _ _ _ El) as (a & Ha & Hid & Hcell).
        eauto.
      * apply dict_get_None in E. contradiction.
    + intros (a & c & Ha & Hid & Hcell).
      destruct (dict_get (fst (index_accessions (dropna raw) (ds_lat ds)
                                                (ds_lon ds) [] [])) id)
        as [c'|] eqn:E.
      * apply dict_get_In in E. unfold dict_keys. apply in_map_iff.
        exists (id, c'). auto.
      * exfalso. rewrite index_accessions_get in E. simpl in E.
        destruct (last_indexed (dropna raw) (ds_lat ds) (ds_lon ds) id) eqn:El;
          [discriminate|].
        rewrite last_indexed_None in El. rewrite (El a Ha Hid) in Hcell.
        discriminate.
Qed.

Lemma rebuilt_index_entries_witness :
  exists idx w',
    build_spatial_index false (world_of_catalog two_point_catalog) = (Ok idx, w')
    /\ (forall id c,
          dict_get idx id = Some c ->
          exists a,
            In a (dropna two_point_catalog) /\ acc_id a = id
            /\ (fst c < List.length (ds_lat unit_grid_dataset))%nat
            /\ (snd c < List.length (ds_lon unit_grid_dataset))%nat
            /\ axis_nearest (ds_lat unit_grid_dataset) (acc_lat a)
                            SPATIAL_TOLERANCE (fst c)
            /\ axis_nearest (ds_lon unit_grid_dataset) (acc_lon a)
                            SPATIAL_TOLERANCE (snd c))
    /\ (forall id,
          In id (dict_keys idx)
          <-> exists a c, In a (dropna two_point_catalog) /\ acc_id a = id
                          /\ cell_of a (ds_lat unit_grid_dataset)
                                     (ds_lon unit_grid_dataset) = Some c).
Proof.
  apply (rebuilt_index_entries false (world_of_catalog two_point_catalog)
           two_point_catalog unit_grid_dataset); reflexivity.
Defined.

(** What a call of [build_spatial_index] leaves untouched. *)
Lemma build_spatial_index_frame use_cache w :
  accessions_csv (snd (build_spatial_index use_cache w)) = accessions_csv w
  /\ thredds (snd (build_spatial_index use_cache w)) = thredds w
  /\ START_YEAR (snd (build_spatial_index use_cache w)) = START_YEAR w
  /\ END_YEAR (snd (build_spatial_index use_cache w)) = END_YEAR w
  /\ failures_log (snd (build_spatial_index use_cache w)) = failures_log w.
Proof.
  destruct (build_spatial_index_cases use_cache w)
    as [(cf & -> & Hcf & Hb)
       | (Hc & [(Hcsv & Hb) | [(Hds & Hb) | (idx & failed & Hb)]])];
    rewrite Hb; simpl; try (repeat split; reflexivity).
  unfold world_after_rebuild. destruct failed, use_cache; repeat split; reflexivity.
Qed.

Lemma rebuild_result w :
  fst (build_spatial_index false w)
  = match accessions_csv w with
    | None => Err (FileNotFoundError ACCESSIONS_FILE)
    | Some raw =>
        match dict_get (thredds w) sample_url with
        | None => Err (OSError sample_url)
        | Some ds =>
            Ok (fst (index_accessions (dropna raw) (ds_lat ds) (ds_lon ds) [] []))
        end
    end.
Proof.
  destruct (accessions_csv w) as [raw|] eqn:E1.
  - destruct (dict_get (thredds w) sample_url) as [ds|] eqn:E2.
    + rewrite (build_spatial_index_rebuild false w raw ds E1 E2 eq_refl).
      reflexivity.
    + unfold build_spatial_index, bind, cache_exists. cbn [andb].
      unfold load_accessions. rewrite E1.
      change (TERRACLIMATE_URL (nth 0 CLIMATE_VARIABLES "")) with sample_url.
      unfold open_dataset, bind, tell. cbn [thredds emit]. rewrite E2.
      reflexivity.
  - unfold build_spatial_index, bind, cache_exists. cbn [andb].
    unfold load_accessions. rewrite E1. reflexivity.
Qed.

(** X3. With the cache disabled, building the index twice in a row gives
    the same outcome: the same mapping, or the same error. *)
Theorem rebuild_idempotent w :
  fst (build_spatial_index false (snd (build_spatial_index false w)))
  = fst (build_spatial_index false w).
Proof.
  destruct (build_spatial_index_frame false w) as (H1 & H2 & _).
  rewrite !rebuild_result, H1, H2. reflexivity.
Qed.

Lemma rebuild_keeps_cache w :
  cache_file (snd (build_spatial_index false w)) = cache_file w.
Proof.
  destruct (build_spatial_index_cases false w)
    as [(cf & H & _) | (_ & [(_ & Hb) | [(_ & Hb) | (i & f & Hb)]])];
    try discriminate; rewrite Hb; try reflexivity.
  apply cache_after_rebuild.
Qed.

(** X4. The flag [--rebuild-index] does not reach the extraction when a
    cache file exists: [main] first calls [build_spatial_index] with the
    cache off, which leaves the file as it was, and then
    [extract_all_variables] with the cache on, which loads the old mapping
    and extracts with it; the mapping that was just rebuilt is not
    used. *)
Theorem rebuild_flag_keeps_cached_index w idx0 idx w1 vars sequential :
  cache_file w = Some (Pickled idx0) ->
  build_spatial_index false w = (Ok idx, w1) ->
  cache_file w1 = Some (Pickled idx0)
  /\ extract_all_variables (Some vars) true sequential w1
     = extract_each vars idx0 sequential [] (emit w1 EvCacheRead).
Proof.
  intros Hcache Hb.
  assert (Hc1 : cache_file w1 = Some (Pickled idx0)).
  { pose proof (rebuild_keeps_cache w) as H. rewrite Hb in H. simpl in H.
    congruence. }
  split; [exact Hc1|].
  unfold extract_all_variables, bind.
  rewrite (build_spatial_index_cached w1 (Pickled idx0) Hc1). reflexivity.
Qed.

Lemma rebuild_flag_keeps_cached_index_witness :
  cache_file (snd (build_spatial_index false stale_cache_world))
  = Some (Pickled [("Z", (0%nat, 0%nat))])
  /\ extract_all_variables (Some ["aet"]) true true
       (snd (build_spatial_index false stale_cache_world))
     = extract_each ["aet"] [("Z", (0%nat, 0%nat))] true []
         (emit (snd (build_spatial_index false stale_cache_world)) EvCacheRead).
Proof.
  apply (rebuild_flag_keeps_cached_index stale_cache_world
           [("Z", (0%nat, 0%nat))] [("A", (0%nat, 0%nat))]).
  - reflexivity.
  - vm_compute. reflexivity.
Defined.

(* ------------------------------------------------------------------ *)
(** ** Facts about the header handling of load_accessions *)

Lemma firstn_expected n :
  (3 <= n)%nat -> firstn n expected_cols = expected_cols.
Proof.
  intro H. do 3 (destruct n as [|n]; [lia|]).
  unfold expected_cols. cbn [firstn]. rewrite firstn_nil. reflexivity.
Qed.

(** X6. The header handling of [load_accessions].  A file that has the
    three expected columns is kept as it is, less the rows without a
    latitude or a longitude.  Otherwise a file of exactly three columns
    is read by position, whatever its headers; a file of more than three
    columns is not: renaming it raises a ValueError, although the code
    means to take its first three columns; and a file of fewer than
    three columns is left alone, so that dropping the rows raises a
    KeyError unless both coordinate columns are there. *)
Theorem load_accessions_header_cases df :
  (forallb (has_column (csv_columns df)) expected_cols = true ->
   load_accessions_frame df
   = Ok (mkCsv (csv_columns df)
           (filter (fun cells =>
                      negb (is_missing (csv_get (csv_columns df) cells "latitude"))
                      && negb (is_missing
                                 (csv_get (csv_columns df) cells "longitude")))
                   (csv_rows df))))
  /\ (forallb (has_column (csv_columns df)) expected_cols = false ->
      (List.length (csv_columns df) = 3%nat ->
       load_accessions_frame df
       = Ok (mkCsv expected_cols
               (filter (fun cells =>
                          negb (is_missing (nth_error cells 1))
                          && negb (is_missing (nth_error cells 2)))
                       (csv_rows df))))
      /\ ((3 < List.length (csv_columns df))%nat ->
          load_accessions_frame df = Err (ValueError "Length mismatch"))
      /\ ((List.length (csv_columns df) < 3)%nat ->
          has_column (csv_columns df) "latitude"
          && has_column (csv_columns df) "longitude" = false ->
          exists label, load_accessions_frame df = Err (KeyError label))).
Proof.
  unfold load_accessions_frame. split.
  - intro Hall. rewrite Hall. cbn [negb rbind].
    unfold expected_cols in Hall. cbn [forallb] in Hall.
    apply andb_prop in Hall as [_ Hall]. apply andb_prop in Hall as [Hla Hall].
    apply andb_prop in Hall as [Hlo _].
    unfold dropna_subset. cbn [find]. rewrite Hla, Hlo. cbn [negb].
    f_equal. f_equal. apply filter_ext. intro cells. cbn [forallb].
    rewrite andb_true_r. reflexivity.
  - intro Hnot. rewrite Hnot. cbn [negb]. split; [|split].
    + intro H3. rewrite H3. cbn [Nat.leb firstn expected_cols].
      unfold set_columns. rewrite H3. cbn [List.length Nat.eqb rbind].
      unfold dropna_subset. cbn. f_equal. f_equal.
      apply filter_ext. intros [|a [|b [|c cells]]]; cbn; try reflexivity.
      rewrite andb_true_r. reflexivity.
    + intro Hgt.
      destruct (3 <=? List.length (csv_columns df))%nat eqn:E;
        [|apply Nat.leb_gt in E; lia].
      rewrite firstn_expected by lia. unfold set_columns.
      cbn [List.length expected_cols].
      destruct (3 =? List.length (csv_columns df))%nat eqn:E';
        [apply Nat.eqb_eq in E'; lia|].
      reflexivity.
    + intros Hlt Hcoord.
      destruct (3 <=? List.length (csv_columns df))%nat eqn:E;
        [apply Nat.leb_le in E; lia|].
      cbn [rbind]. unfold dropna_subset. cbn [find].
      destruct (has_column (csv_columns df) "latitude"); cbn [negb];
        [|eauto].
      cbn [andb] in Hcoord. rewrite Hcoord. cbn [negb]. eauto.
Qed.

Lemma load_accessions_header_examples :
  load_accessions_frame three_column_file
  = Ok (mkCsv expected_cols [[CStr "A"; CNum 0; CNum 0]])
  /\ load_accessions_frame four_column_file = Err (ValueError "Length mismatch").
Proof. split; reflexivity. Qed.

(** On a file with the three expected columns, in this order, the frame
    is the one [load_accessions] and [dropna] stand for. *)
Lemma load_accessions_frame_typed rows typed :
  Forall2 (fun cells r => accession_row cells = Some r) rows typed ->
  exists kept,
    load_accessions_frame (mkCsv expected_cols rows)
    = Ok (mkCsv expected_cols kept)
    /\ Forall2 (fun cells a =>
                  accession_row cells
                  = Some (mkRow (acc_id a) (Some (acc_lat a)) (Some (acc_lon a))))
               kept (dropna typed).
Proof.
  unfold load_accessions_frame. cbn [csv_columns forallb negb rbind].
  unfold dropna_subset. cbn [csv_columns csv_rows find].
  intro H. eexists. split; [reflexivity|].
  induction H as [|cells r rows typed Hrow _ IH]; [constructor|].
  cbn [filter dropna].
  destruct cells as [|[|id|] [|la [|lo [|]]]]; try discriminate Hrow.
  destruct la as [qa| |], lo as [qo| |]; try discriminate Hrow;
    cbn in Hrow; injection Hrow as <-; cbn -[is_nan];
    repeat match goal with
           | |- context [is_nan ?x] => destruct (is_nan x)
           end;
    cbn -[is_nan]; try exact IH.
  constructor; [reflexivity | exact IH].
Qed.

(* ------------------------------------------------------------------ *)
(** ** Further facts about extract.py *)

Lemma rmap_Forall2 {A B} (f : A -> Result B) (l : list A) (ys : list B) :
  rmap f l = Ok ys -> Forall2 (fun x y => f x = Ok y) l ys.
Proof.
  revert ys. induction l as [|x l IH]; intros ys H; simpl in H.
  - injection H as <-. constructor.
  - destruct (f x) as [y|] eqn:E; [|discriminate]. simpl in H.
    destruct (rmap f l) as [ys'|]; [|discriminate]. simpl in H.
    injection H as <-. constructor; auto.
Qed.

Lemma filter_all {A} (l : list A) : filter (fun _ => true) l = l.
Proof. induction l; simpl; congruence. Qed.

Lemma zip_rows_keys id (ts : list Timestamp) :
  forall data, List.length data = List.length ts ->
    map fst (zip_rows (repeat id (List.length ts)) (map year ts) (map month ts) data)
    = point_keys id ts.
Proof.
  induction ts as [|t ts IH]; intros [|x data] H; simpl in *;
    try discriminate; [reflexivity|].
  injection H as H. rewrite (IH _ H). reflexivity.
Qed.

Lemma zip_rows_In id (ts : list Timestamp) :
  forall data i y m x,
    In ((i, y, m), x)
       (zip_rows (repeat id (List.length ts)) (map year ts) (map month ts) data) ->
    i = id
    /\ exists pos, nth_error ts pos = Some (mkTime y m)
                   /\ nth_error data pos = Some x.
Proof.
  induction ts as [|t ts IH]; intros [|x0 data] i y m x H; simpl in H;
    try contradiction.
  destruct H as [[= <- <- <- <-] | H].
  - split; [reflexivity|]. exists 0%nat. destruct t. auto.
  - destruct (IH _ _ _ _ _ H) as (Hid & pos & H1 & H2).
    split; [exact Hid|]. exists (S pos). auto.
Qed.

(** One point's table, read back. *)
Lemma extract_timeseries_inv ds id r c var ts t :
  extract_timeseries_for_accession ds id r c var (DatetimeIndex ts) = Ok t ->
  exists a data,
    ds_getitem ds var = Ok a
    /\ da_isel_point a r c = Ok data
    /\ List.length data = List.length ts
    /\ t = mkLong var (zip_rows (repeat id (List.length ts))
                                (map year ts) (map month ts) data).
Proof.
  unfold extract_timeseries_for_accession. intro H.
  destruct (ds_getitem ds var) as [a|] eqn:Ha; [|discriminate]. simpl in H.
  destruct (da_isel_point a r c) as [data|] eqn:Hd; [|discriminate].
  simpl in H. unfold data_frame in H.
  rewrite ?repeat_length, ?length_map, ?Nat.eqb_refl in H. simpl in H.
  destruct (List.length ts =? List.length data)%nat eqn:E; [|discriminate].
  apply Nat.eqb_eq in E. injection H as <-.
  exists a, data. rewrite ?length_map. repeat split; auto.
Qed.

Lemma rmap_ext {A B} (f g : A -> Result B) (l : list A) :
  (forall x, f x = g x) -> rmap f l = rmap g l.
Proof.
  intro H. induction l as [|x l IH]; simpl; [reflexivity|].
  rewrite H, IH. reflexivity.
Qed.

(** The year filter and the extraction loop: with a year bound the
    selection raises; without one the loop runs over the time axis of the
    source. *)
Lemma extract_from_dataset_eq ds var idx s e :
  extract_from_dataset ds var idx s e
  = match s, e with
    | None, None =>
        match ds_time ds with
        | [] =>
            Err (IndexError "index 0 is out of bounds for axis 0 with size 0")
        | _ =>
            rbind (rmap (fun item =>
                     extract_timeseries_for_accession
                       ds (fst item) (fst (snd item)) (snd (snd item)) var
                       (DatetimeIndex (ds_time ds)))
                   idx)
                  (pd_concat var)
        end
    | _, _ => Err (ValueError dict_like_label)
    end.
Proof.
  assert (Hext : forall d ti,
            rmap (fun item : string * (nat * nat) =>
                    let '(accession_id, (lat_idx, lon_idx)) := item in
                    extract_timeseries_for_accession d accession_id lat_idx
                                                     lon_idx var ti) idx
            = rmap (fun item =>
                      extract_timeseries_for_accession d (fst item)
                        (fst (snd item)) (snd (snd item)) var ti) idx).
  { intros d ti. apply rmap_ext. intros [i [r c]]. reflexivity. }
  unfold extract_from_dataset, ds_sel_time, time_index_of,
    get_time_coordinates, dict_items.
  destruct s as [s0|], e as [e0|]; cbn [rbind axis_values]; try reflexivity.
  rewrite Hext. reflexivity.
Qed.

Lemma extract_from_dataset_inv ds var idx s e t :
  extract_from_dataset ds var idx s e = Ok t ->
  s = None /\ e = None /\ ds_time ds <> [] /\ idx <> [] /\ lt_var t = var
  /\ exists frames,
      Forall2 (fun item f =>
                 extract_timeseries_for_accession
                   ds (fst item) (fst (snd item)) (snd (snd item)) var
                   (DatetimeIndex (ds_time ds)) = Ok f)
              idx frames
      /\ lt_rows t = List.concat (map lt_rows frames).
Proof.
  rewrite extract_from_dataset_eq. intro H.
  destruct s, e; try discriminate H.
  split; [reflexivity|]. split; [reflexivity|].
  destruct (ds_time ds) as [|t0 times] eqn:Hk; [discriminate|].
  split; [discriminate|].
  match type of H with
  | rbind ?r _ = _ => destruct r as [frames|] eqn:Hr; [|discriminate]
  end.
  apply rmap_Forall2 in Hr. cbn [rbind] in H. unfold pd_concat in H.
  destruct frames as [|f frames]; [discriminate|].
  injection H as <-. split.
  - intros ->. inversion Hr.
  - split; [reflexivity|]. exists (f :: frames). auto.
Qed.

Lemma frames_keys (d : Dataset) var ts (idx : SpatialIndex) frames :
  Forall2 (fun item f =>
             extract_timeseries_for_accession d (fst item) (fst (snd item))
               (snd (snd item)) var (DatetimeIndex ts) = Ok f) idx frames ->
  map fst (List.concat (map lt_rows frames))
  = flat_map (fun item => point_keys (fst item) ts) idx.
Proof.
  induction 1 as [|item f idx frames H _ IH]; [reflexivity|].
  cbn [map List.concat flat_map]. rewrite map_app, IH. f_equal.
  apply extract_timeseries_inv in H as (a & data & _ & _ & Hl & ->).
  cbn [lt_rows]. apply zip_rows_keys, Hl.
Qed.

Lemma kept_times_all (times : list Timestamp) :
  kept_times None None times = times.
Proof. unfold kept_times, in_year_range. cbn [andb]. apply filter_all. Qed.

Lemma point_keys_NoDup (idx : SpatialIndex) (times : list Timestamp) :
  NoDup (dict_keys idx) -> NoDup times ->
  NoDup (flat_map (fun item => point_keys (fst item) times) idx).
Proof.
  unfold dict_keys. intros Hidx Htimes.
  induction idx as [|[id cell] idx IH]; cbn [flat_map map fst] in *;
    [constructor|].
  inversion Hidx as [|? ? Hnin Hnd]; subst. apply NoDup_app.
  - unfold point_keys. clear - Htimes.
    induction Htimes as [|t times Hnin _ IH]; cbn [map]; constructor; [|exact IH].
    intro Hin. apply in_map_iff in Hin as (t' & [= Hy Hm] & Hin).
    destruct t, t'. cbn in Hy, Hm. subst. contradiction.
  - apply IH, Hnd.
  - intros [[i y] m] H1 H2. unfold point_keys in H1.
    apply in_map_iff in H1 as (t & [= <- _ _] & _).
    apply in_flat_map in H2 as (item & Hitem & H2).
    unfold point_keys in H2. apply in_map_iff in H2 as (t' & [= Hi _ _] & _).
    apply Hnin. rewrite <- Hi. apply in_map, Hitem.
Qed.

(** X7. [extract_variable_sequential] returns a table only when it is
    called without a year bound.  The rows are then keyed, in order, by
    every indexed point paired with every time step of the source: each
    point has one row per time step, and no key is repeated when no point
    and no time step is. *)
Theorem extract_variable_sequential_keys var idx s e w t w' :
  extract_variable_sequential var idx s e w = (Ok t, w') ->
  s = None /\ e = None
  /\ exists ds,
       dict_get (thredds w) (TERRACLIMATE_URL var) = Some ds
       /\ lt_var t = var
       /\ map fst (lt_rows t)
          = flat_map (fun item => point_keys (fst item) (ds_time ds)) idx
       /\ (NoDup (dict_keys idx) -> NoDup (ds_time ds) ->
           NoDup (map fst (lt_rows t))).
Proof.
  unfold extract_variable_sequential, bind. rewrite open_dataset_eq.
  destruct (dict_get (thredds w) (TERRACLIMATE_URL var)) as [ds|];
    [|discriminate].
  unfold lift. intros [= H _].
  apply extract_from_dataset_inv in H
    as (Hs & He & _ & _ & Hv & frames & Hf & Hrows).
  split; [exact Hs|]. split; [exact He|]. exists ds.
  assert (Hkeys : map fst (lt_rows t)
                  = flat_map (fun item => point_keys (fst item) (ds_time ds))
                             idx).
  { rewrite Hrows. eapply frames_keys, Hf. }
  split; [reflexivity|]. split; [exact Hv|]. split; [exact Hkeys|].
  intros Hidx Htimes. rewrite Hkeys.
  apply point_keys_NoDup; assumption.
Qed.

Lemma extract_variable_sequential_keys_witness :
  exists t,
    fst (extract_variable_sequential "tmax" two_cell_index None None
                                     three_year_world) = Ok t
    /\ map fst (lt_rows t)
       = [("A", 1958, 12); ("A", 1959, 1); ("A", 1960, 1);
          ("B", 1958, 12); ("B", 1959, 1); ("B", 1960, 1)]%Z
    /\ NoDup (map fst (lt_rows t)).
Proof.
  destruct (extract_variable_sequential "tmax" two_cell_index None None
                                        three_year_world)
    as [[t|e] w'] eqn:E; [|vm_compute in E; discriminate].
  destruct (extract_variable_sequential_keys _ _ _ _ _ _ _ E)
    as (_ & _ & ds & H1 & _ & H3 & H4).
  vm_compute in H1. injection H1 as <-.
  exists t. split; [reflexivity|]. split; [exact H3|].
  apply H4; vm_compute; repeat constructor; simpl; intuition discriminate.
Defined.

(* ------------------------------------------------------------------ *)
(** ** The values of the extracted rows *)

Lemma Forall2_In_r {A B} (R : A -> B -> Prop) l l' y :
  Forall2 R l l' -> In y l' -> exists x, In x l /\ R x y.
Proof.
  induction 1 as [|x y' l l' H _ IH]; intros Hin; [contradiction|].
  destruct Hin as [<- | Hin].
  - exists x. split; [left; reflexivity | exact H].
  - destruct (IH Hin) as (x' & H1 & H2). exists x'. split; [right|]; auto.
Qed.

Lemma Forall2_In_l {A B} (R : A -> B -> Prop) l l' x :
  Forall2 R l l' -> In x l -> exists y, In y l' /\ R x y.
Proof.
  induction 1 as [|x' y l l' H _ IH]; intros Hin; [contradiction|].
  destruct Hin as [<- | Hin].
  - exists y. split; [left; reflexivity | exact H].
  - destruct (IH Hin) as (y' & H1 & H2). exists y'. split; [right|]; auto.
Qed.

Lemma rmap_seq_nth {B} (f : nat -> Result B) n :
  forall start ys pos y,
    rmap f (seq start n) = Ok ys ->
    nth_error ys pos = Some y -> f (start + pos)%nat = Ok y.
Proof.
  induction n as [|n IH]; intros start ys pos y H Hn; simpl in H.
  - injection H as <-. destruct pos; discriminate.
  - destruct (f start) as [y0|] eqn:E; [|discriminate]. simpl in H.
    destruct (rmap f (seq (S start) n)) as [ys'|] eqn:E'; [|discriminate].
    simpl in H. injection H as <-.
    destruct pos as [|pos]; simpl in Hn.
    + injection Hn as <-. rewrite Nat.add_0_r. exact E.
    + rewrite Nat.add_succ_r. apply (IH (S start) ys' pos y E' Hn).
Qed.

Lemma timeseries_values d id r c var ts f i y m x :
  extract_timeseries_for_accession d id r c var (DatetimeIndex ts) = Ok f ->
  In ((i, y, m), x) (lt_rows f) ->
  i = id
  /\ exists a pos,
       ds_getitem d var = Ok a
       /\ nth_error ts pos = Some (mkTime y m)
       /\ da_get a pos r c = Ok x.
Proof.
  intros H Hin.
  apply extract_timeseries_inv in H as (a & data & Ha & Hd & _ & ->).
  cbn [lt_rows] in Hin. apply zip_rows_In in Hin as (-> & pos & H1 & H2).
  split; [reflexivity|]. exists a, pos. repeat split; auto.
  unfold da_isel_point in Hd. apply (rmap_seq_nth _ _ 0%nat _ pos x Hd H2).
Qed.

(** X8. Every value that [extract_variable_sequential] returns for a
    point, year and month is the value the source holds, at the grid cell
    the index gives that point, for a time step with that year and
    month: values are not moved between points or time steps. *)
Theorem extract_variable_sequential_values
    var idx s e w t w' ds a i y m x :
  extract_variable_sequential var idx s e w = (Ok t, w') ->
  dict_get (thredds w) (TERRACLIMATE_URL var) = Some ds ->
  dict_get (ds_vars ds) var = Some a ->
  In ((i, y, m), x) (lt_rows t) ->
  exists r c tpos,
    In (i, (r, c)) idx
    /\ nth_error (ds_time ds) tpos = Some (mkTime y m)
    /\ da_get a tpos r c = Ok x.
Proof.
  unfold extract_variable_sequential, bind. rewrite open_dataset_eq.
  intros H Hds Ha Hin. rewrite Hds in H. unfold lift in H.
  injection H as H _.
  apply extract_from_dataset_inv in H
    as (_ & _ & _ & _ & _ & frames & Hf & Hrows).
  rewrite Hrows in Hin. apply in_concat in Hin as (rows & Hrows' & Hin).
  apply in_map_iff in Hrows' as (f & <- & Hfin).
  destruct (Forall2_In_r _ _ _ _ Hf Hfin) as ([id [r c]] & Hitem & Hx).
  cbn [fst snd] in Hx.
  destruct (timeseries_values _ _ _ _ _ _ _ _ _ _ _ Hx Hin)
    as (-> & a' & pos & Ha' & Hpos & Hget).
  unfold ds_getitem in Ha'. rewrite Ha in Ha'. injection Ha' as <-.
  exists r, c, pos. auto.
Qed.

Lemma extract_variable_sequential_values_witness :
  exists r c tpos,
    In ("B", (r, c)) two_cell_index
    /\ nth_error (ds_time three_year_dataset) tpos = Some (mkTime 1960 1)
    /\ da_get three_year_array tpos r c = Ok 6%float.
Proof.
  eapply (extract_variable_sequential_values
            "tmax" two_cell_index None None three_year_world
            _ _ three_year_dataset three_year_array "B" 1960%Z 1%Z 6%float).
  - vm_compute. reflexivity.
  - vm_compute. reflexivity.
  - vm_compute. reflexivity.
  - vm_compute. auto 10.
Defined.

(* ------------------------------------------------------------------ *)
(** ** Failures and results of the extraction *)

(** X9. What [extract_variable_sequential] raises, and in which order the
    causes are met: the source is opened once whatever happens; a source
    that does not open gives OSError; a year bound, lower or upper, gives
    the ValueError of [ds.sel], whatever the years and the source hold;
    without a bound, a source with no time step gives IndexError, before
    the variable is looked up; an empty index gives the ValueError of
    [pd.concat]; a source that lacks the variable gives KeyError at the
    first point. *)
Theorem extract_variable_sequential_failures var idx s e w :
  snd (extract_variable_sequential var idx s e w)
  = emit w (EvOpenDataset (TERRACLIMATE_URL var))
  /\ (dict_get (thredds w) (TERRACLIMATE_URL var) = None ->
      fst (extract_variable_sequential var idx s e w)
      = Err (OSError (TERRACLIMATE_URL var)))
  /\ (forall ds,
        dict_get (thredds w) (TERRACLIMATE_URL var) = Some ds ->
        (s <> None \/ e <> None ->
         fst (extract_variable_sequential var idx s e w)
         = Err (ValueError dict_like_label))
        /\ (s = None -> e = None -> ds_time ds = [] ->
            fst (extract_variable_sequential var idx s e w)
            = Err (IndexError
                     "index 0 is out of bounds for axis 0 with size 0"))
        /\ (s = None -> e = None -> ds_time ds <> [] -> idx = [] ->
            fst (extract_variable_sequential var idx s e w)
            = Err (ValueError "No objects to concatenate"))
        /\ (s = None -> e = None -> ds_time ds <> [] -> idx <> [] ->
            dict_get (ds_vars ds) var = None ->
            fst (extract_variable_sequential var idx s e w)
            = Err (KeyError var))).
Proof.
  unfold extract_variable_sequential, bind. rewrite open_dataset_eq.
  destruct (dict_get (thredds w) (TERRACLIMATE_URL var)) as [ds0|];
    unfold lift; cbn [fst snd].
  2: { split; [reflexivity|]. split; [reflexivity|]. intros ds H. discriminate. }
  split; [reflexivity|]. split; [intro H; discriminate|].
  intros ds [= <-]. rewrite extract_from_dataset_eq.
  split; [|split; [|split]].
  - intros [H | H]; destruct s, e; try reflexivity; contradiction H; reflexivity.
  - intros -> -> ->. reflexivity.
  - intros -> -> Ht ->. destruct (ds_time ds0); [contradiction Ht|]; reflexivity.
  - intros -> -> Ht Hidx Hvar. destruct (ds_time ds0); [contradiction Ht; reflexivity|].
    destruct idx as [|[id [r c]] idx]; [congruence|].
    cbn [rmap fst snd]. unfold extract_timeseries_for_accession, ds_getitem.
    rewrite Hvar. reflexivity.
Qed.

Lemma collect_get out vars :
  forall results v,
    dict_get (collect out vars results) v
    = match (if in_dec string_dec v vars then out v
             else Err (KeyError v)) with
      | Ok df => Some df
      | Err _ => dict_get results v
      end.
Proof.
  unfold collect.
  induction vars as [|x vars IH]; intros results v; cbn [fold_left].
  - destruct (in_dec string_dec v []) as [[]|]. reflexivity.
  - rewrite IH.
    destruct (in_dec string_dec v vars) as [Hin|Hnin];
      destruct (in_dec string_dec v (x :: vars)) as [Hin'|Hnin'];
      try (exfalso; apply Hnin'; right; exact Hin).
    + destruct (out v) as [dv|ev] eqn:Ev; [reflexivity|].
      destruct (out x) as [df|] eqn:Ex; [|reflexivity].
      apply dict_get_set_other. intros ->. congruence.
    + destruct Hin' as [->|Hin']; [|contradiction].
      destruct (out v) as [df|]; [apply dict_get_set_same | reflexivity].
    + destruct (out x) as [df|]; [|reflexivity].
      apply dict_get_set_other. intros ->. apply Hnin'. left. reflexivity.
Qed.

Lemma collect_NoDup out vars :
  forall results,
    NoDup (dict_keys results) -> NoDup (dict_keys (collect out vars results)).
Proof.
  unfold collect. induction vars as [|x vars IH]; intros results H;
    cbn [fold_left]; [exact H|].
  apply IH. destruct (out x); [apply dict_set_NoDup|]; exact H.
Qed.

Lemma outcome_lt_var server s e v idx sequential df :
  outcome server s e v idx sequential = Ok df -> lt_var df = v.
Proof.
  unfold outcome. destruct (dict_get server (TERRACLIMATE_URL v)) as [ds|];
    [|discriminate].
  destruct sequential; intro H;
    apply extract_from_dataset_inv in H as (_ & _ & _ & _ & H & _); exact H.
Qed.

(** X10. Once the index is there, [extract_all_variables] returns a
    mapping that holds each requested variable whose extraction succeeds,
    once, with the table that extraction returns, and nothing else; each
    table carries the column of its variable. *)
Theorem extract_all_variables_results
    vars use_cached_index sequential w idx w0 :
  build_spatial_index use_cached_index w = (Ok idx, w0) ->
  exists results w',
    extract_all_variables (Some vars) use_cached_index sequential w
    = (Ok results, w')
    /\ NoDup (dict_keys results)
    /\ (forall v df,
          dict_get results v = Some df
          <-> In v vars /\ fst (extract_one v idx sequential w0) = Ok df)
    /\ (forall v df, In (v, df) results -> lt_var df = v).
Proof.
  intro Hidx.
  destruct (extract_each_spec vars idx sequential [] w0) as (w' & Hr & _).
  set (out := fun v => outcome (thredds w0) (START_YEAR w0) (END_YEAR w0)
                               v idx sequential) in *.
  exists (collect out vars []), w'.
  unfold extract_all_variables, bind. rewrite Hidx, Hr.
  assert (Hnd : NoDup (dict_keys (collect out vars [])))
    by (apply collect_NoDup; constructor).
  assert (Hget : forall v df,
             dict_get (collect out vars []) v = Some df
             <-> In v vars /\ out v = Ok df).
  { intros v df. rewrite collect_get.
    destruct (in_dec string_dec v vars) as [Hin|Hnin].
    - destruct (out v) as [d|e]; cbn [dict_get]; split.
      + intros [= ->]. auto.
      + intros [_ [= ->]]. reflexivity.
      + discriminate.
      + intros [_ H]. discriminate.
    - cbn [dict_get]. split; [discriminate | tauto]. }
  split; [reflexivity|]. split; [exact Hnd|]. split.
  - intros v df. rewrite extract_one_outcome. cbn [fst]. apply Hget.
  - intros v df Hin.
    apply (dict_get_NoDup_In _ _ _ Hnd) in Hin.
    apply Hget in Hin as [_ Hout]. apply outcome_lt_var in Hout. exact Hout.
Qed.

Lemma extract_all_variables_results_witness :
  exists results w',
    extract_all_variables (Some ["tmax"; "aet"; "aet"]) true true
                          cached_world_without_tmax
    = (Ok results, w')
    /\ NoDup (dict_keys results)
    /\ (forall v df,
          dict_get results v = Some df
          <-> In v ["tmax"; "aet"; "aet"]
              /\ fst (extract_one v [("A", (0%nat, 0%nat))] true
                                  (emit cached_world_without_tmax EvCacheRead))
                 = Ok df)
    /\ (forall v df, In (v, df) results -> lt_var df = v).
Proof.
  apply (extract_all_variables_results
           ["tmax"; "aet"; "aet"] true true cached_world_without_tmax
           [("A", (0%nat, 0%nat))]
           (emit cached_world_without_tmax EvCacheRead)).
  vm_compute. reflexivity.
Defined.

Lemma build_spatial_index_set_years use_cache w s e :
  build_spatial_index use_cache (set_years w s e)
  = (fst (build_spatial_index use_cache w),
     set_years (snd (build_spatial_index use_cache w)) s e).
Proof.
  destruct w as [csv cache server sy ey log evs].
  unfold build_spatial_index, cache_exists, pickle_load, load_accessions,
    pickle_dump, open_dataset, tell, ret, get_grid_coordinates, bind, set_years,
    emit, set_cache.
  cbn -[nth TERRACLIMATE_URL index_accessions].
  destruct use_cache, cache as [[idx|]|], csv as [rows|];
    cbn -[nth TERRACLIMATE_URL index_accessions]; try reflexivity.
  all: destruct (dict_get server (TERRACLIMATE_URL (nth 0 CLIMATE_VARIABLES "")))
         as [ds|];
    cbn -[nth TERRACLIMATE_URL index_accessions]; try reflexivity.
  all: destruct (index_accessions (dropna rows) (ds_lat ds) (ds_lon ds) [] [])
    as [si [|x xs]]; reflexivity.
Qed.

(** X11. With [sequential=False] the configured year range plays no
    part: [extract_all_variables] returns the same tables whatever
    [START_YEAR] and [END_YEAR] are, all time steps included. *)
Theorem parallel_extraction_ignores_year_range
    vars use_cached_index w s e :
  fst (extract_all_variables vars use_cached_index false (set_years w s e))
  = fst (extract_all_variables vars use_cached_index false w).
Proof.
  unfold extract_all_variables, bind.
  rewrite build_spatial_index_set_years.
  destruct (build_spatial_index use_cached_index w) as [[idx|err] w0];
    cbn [fst snd]; [|reflexivity].
  set (vs := match vars with Some vs => vs | None => CLIMATE_VARIABLES end).
  destruct (extract_each_spec vs idx false [] w0) as (w1 & H1 & _).
  destruct (extract_each_spec vs idx false [] (set_years w0 s e))
    as (w2 & H2 & _).
  rewrite H1, H2. reflexivity.
Qed.

(* ------------------------------------------------------------------ *)
(** ** The configured year range *)

Lemma outcome_year_range server s e v idx :
  s <> None \/ e <> None ->
  outcome server s e v idx true
  = match dict_get server (TERRACLIMATE_URL v) with
    | Some _ => Err (ValueError dict_like_label)
    | None => Err (OSError (TERRACLIMATE_URL v))
    end.
Proof.
  intro H. unfold outcome.
  destruct (dict_get server (TERRACLIMATE_URL v)) as [ds|]; [|reflexivity].
  rewrite extract_from_dataset_eq.
  destruct H as [H | H]; destruct s, e; try reflexivity;
    contradiction H; reflexivity.
Qed.

Lemma collect_all_errors out vars results :
  (forall v, In v vars -> is_ok (out v) = false) ->
  collect out vars results = results
  /\ logged out vars
     = map (fun v => (v, match out v with
                         | Ok _ => EmptyString
                         | Err e => error_message e
                         end)) vars.
Proof.
  unfold collect, logged. revert results.
  induction vars as [|x vars IH]; intros results H; [auto|].
  cbn [fold_left flat_map map].
  assert (Hx : is_ok (out x) = false) by (apply H; left; reflexivity).
  destruct (out x) as [df|err]; [discriminate|].
  destruct (IH results (fun v Hv => H v (or_intror Hv))) as [H1 H2].
  split; [exact H1|]. cbn [app]. f_equal. exact H2.
Qed.

Lemma extract_each_year_range vs idx w0 :
  START_YEAR w0 <> None \/ END_YEAR w0 <> None ->
  exists w',
    extract_each vs idx true [] w0 = (Ok [], w')
    /\ failures_log w'
       = failures_log w0
         ++ map (fun v =>
                   (v, match dict_get (thredds w0) (TERRACLIMATE_URL v) with
                       | Some _ => dict_like_label
                       | None => TERRACLIMATE_URL v
                       end)) vs.
Proof.
  intro Hrange.
  destruct (extract_each_spec vs idx true [] w0) as (w' & Hr & Hl & _).
  exists w'.
  set (out := fun v => outcome (thredds w0) (START_YEAR w0) (END_YEAR w0)
                               v idx true) in *.
  assert (Hout : forall v,
            out v = match dict_get (thredds w0) (TERRACLIMATE_URL v) with
                    | Some _ => Err (ValueError dict_like_label)
                    | None => Err (OSError (TERRACLIMATE_URL v))
                    end).
  { intro v. unfold out. apply outcome_year_range, Hrange. }
  destruct (collect_all_errors out vs []) as [Hc Hlg].
  { intros v _. rewrite Hout.
    destruct (dict_get (thredds w0) (TERRACLIMATE_URL v)); reflexivity. }
  rewrite Hr, Hc. split; [reflexivity|].
  rewrite Hl, Hlg. f_equal. apply map_ext. intro v. rewrite Hout.
  destruct (dict_get (thredds w0) (TERRACLIMATE_URL v)); reflexivity.
Qed.

(** X12. A configured year range defeats the sequential extraction.  With
    [START_YEAR] or [END_YEAR] set, no variable is extracted: once the
    index is there, [extract_all_variables] returns the empty mapping and
    logs one line for every requested variable, in order, which holds the
    ValueError of [ds.sel] when the source of the variable opens and the
    OSError otherwise. *)
Theorem year_range_extracts_nothing vars use_cached_index w idx w0 :
  build_spatial_index use_cached_index w = (Ok idx, w0) ->
  START_YEAR w <> None \/ END_YEAR w <> None ->
  exists w',
    extract_all_variables vars use_cached_index true w = (Ok [], w')
    /\ failures_log w'
       = failures_log w
         ++ map (fun v =>
                   (v, match dict_get (thredds w) (TERRACLIMATE_URL v) with
                       | Some _ => dict_like_label
                       | None => TERRACLIMATE_URL v
                       end))
                (match vars with Some vs => vs | None => CLIMATE_VARIABLES end).
Proof.
  intros Hidx Hrange.
  destruct (build_spatial_index_frame use_cached_index w)
    as (_ & Hth & Hs & He & Hlog).
  rewrite Hidx in Hth, Hs, He, Hlog. cbn [snd] in Hth, Hs, He, Hlog.
  unfold extract_all_variables, bind. rewrite Hidx.
  rewrite <- Hth, <- Hlog. apply extract_each_year_range.
  rewrite Hs, He. exact Hrange.
Qed.

Lemma year_range_extracts_nothing_witness :
  exists w',
    extract_all_variables (Some ["tmax"; "tmin"]) true true ranged_world
    = (Ok [], w')
    /\ failures_log w'
       = failures_log ranged_world
         ++ map (fun v =>
                   (v, match dict_get (thredds ranged_world)
                                      (TERRACLIMATE_URL v) with
                       | Some _ => dict_like_label
                       | None => TERRACLIMATE_URL v
                       end))
                ["tmax"; "tmin"].
Proof.
  apply (year_range_extracts_nothing (Some ["tmax"; "tmin"]) true ranged_world
           two_cell_index (emit ranged_world EvCacheRead)).
  - vm_compute. reflexivity.
  - left. discriminate.
Defined.

(* ------------------------------------------------------------------ *)
(** ** Further facts about transform.py *)

Lemma rows_with_unique {X} (k : Key) (rows : list (Key * X)) :
  NoDup (map fst rows) -> (List.length (rows_with k rows) <= 1)%nat.
Proof.
  unfold rows_with. induction rows as [|[k' x] rows IH]; intro H; cbn.
  - lia.
  - inversion H as [|? ? Hnin Hnd]; subst.
    destruct (key_eqb k' k) eqn:E; cbn [map List.length].
    + apply key_eqb_eq in E. subst k'.
      assert (Hnil : rows_with k rows = []) by (apply rows_with_nil; exact Hnin).
      unfold rows_with in Hnil. rewrite Hnil. cbn. lia.
    + apply IH, Hnd.
Qed.

Lemma or_default_single {X} (d : X) (l : list X) :
  (List.length l <= 1)%nat -> exists x, or_default d l = [x].
Proof.
  destruct l as [|x [|y l]]; cbn; intro H; [eauto | eauto | lia].
Qed.

Lemma flat_map_singletons {X} (g : Key -> list (Key * X)) (keys : list Key) :
  (forall k, exists c, g k = [(k, c)]) ->
  map fst (flat_map g keys) = keys.
Proof.
  intro H. induction keys as [|k keys IH]; [reflexivity|].
  cbn [flat_map]. destruct (H k) as (c & ->). cbn. rewrite IH. reflexivity.
Qed.

Lemma outer_merge_unique_keys left var right :
  NoDup (wide_keys left) -> NoDup (map fst right) ->
  wide_keys (outer_merge left var right)
  = isort key_leb (nodup key_eq_dec (wide_keys left ++ map fst right)).
Proof.
  intros Hl Hr. unfold outer_merge, wide_keys. cbn [wf_rows].
  apply flat_map_singletons. intro k.
  destruct (or_default_single (repeat nan (List.length (wf_columns left)))
              (rows_with k (wf_rows left)) (rows_with_unique k _ Hl))
    as (cells & ->).
  destruct (or_default_single nan (rows_with k right)
              (rows_with_unique k _ Hr)) as (x & ->).
  cbn. eauto.
Qed.

Lemma outer_merge_rectangular left var right :
  rectangular left -> rectangular (outer_merge left var right).
Proof.
  intros Hrect [k cells'] Hin. cbn [snd].
  apply outer_merge_rows in Hin as (_ & cells & x & -> & Hc & _).
  unfold outer_merge. cbn [wf_columns]. rewrite !length_app. cbn [List.length].
  f_equal. destruct Hc as [Hc | [_ ->]].
  - apply (Hrect (k, cells) Hc).
  - apply repeat_length.
Qed.

Lemma merge_each_one_row_per_key rest :
  forall df out,
    merge_each df rest = Ok out ->
    rectangular df ->
    rectangular out
    /\ (NoDup (wide_keys df) ->
        (forall vt, In vt rest -> NoDup (long_keys (snd vt))) ->
        NoDup (wide_keys out)).
Proof.
  induction rest as [|[var t] rest IH]; intros df out H Hrect.
  - injection H as <-. auto.
  - cbn [merge_each] in H. unfold select_var in H.
    destruct (String.eqb (lt_var t) var); [|discriminate]. cbn [rbind] in H.
    destruct (IH _ _ H (outer_merge_rectangular df var (lt_rows t) Hrect))
      as [H1 H2].
    split; [exact H1|]. intros Hnd Hall. apply H2.
    + rewrite outer_merge_unique_keys;
        [| exact Hnd | apply (Hall (var, t)); left; reflexivity].
      apply isort_NoDup, NoDup_nodup.
    + intros vt Hin. apply Hall. right. exact Hin.
Qed.

(** X13. The frame that [merge_variables_wide_format] returns is a table:
    every row holds one cell per value column; and when no input table
    repeats a key, no key is repeated in the result, so a point has one
    row per year and month. *)
Theorem merge_variables_wide_format_one_row_per_key variable_data out :
  merge_variables_wide_format variable_data = Ok out ->
  rectangular out
  /\ ((forall vt, In vt variable_data -> NoDup (long_keys (snd vt))) ->
      NoDup (wide_keys out)).
Proof.
  destruct variable_data as [|[v df] rest]; [discriminate|].
  cbn [merge_variables_wide_format]. intro H.
  assert (Hrect : rectangular (wide_of_long df)).
  { intros [k cells] Hin. unfold wide_of_long in Hin. cbn [wf_rows] in Hin.
    apply in_map_iff in Hin as (r & [= <- <-] & _). reflexivity. }
  destruct (merge_each_one_row_per_key rest _ _ H Hrect) as [H1 H2].
  split; [exact H1|]. intro Hall. apply H2.
  - unfold wide_keys, wide_of_long. cbn [wf_rows]. rewrite map_map. cbn [fst].
    apply (Hall (v, df)). left. reflexivity.
  - intros vt Hin. apply Hall. right. exact Hin.
Qed.

Lemma merge_variables_wide_format_one_row_per_key_witness :
  rectangular
    (mkWide ["ppt"; "aet"; "pet"]
            [(("A", 1958%Z, 1%Z), [100; 40; 50]%float);
             (("A", 1958%Z, 2%Z), [80; nan; nan]%float);
             (("B", 1958%Z, 1%Z), [5; nan; nan]%float);
             (("C", 1958%Z, 1%Z), [nan; 7; nan]%float)])
  /\ ((forall vt, In vt example_tables -> NoDup (long_keys (snd vt))) ->
      NoDup (wide_keys
               (mkWide ["ppt"; "aet"; "pet"]
                  [(("A", 1958%Z, 1%Z), [100; 40; 50]%float);
                   (("A", 1958%Z, 2%Z), [80; nan; nan]%float);
                   (("B", 1958%Z, 1%Z), [5; nan; nan]%float);
                   (("C", 1958%Z, 1%Z), [nan; 7; nan]%float)]))).
Proof.
  apply (merge_variables_wide_format_one_row_per_key example_tables).
  vm_compute. reflexivity.
Defined.

Lemma add_derived_rectangular df :
  rectangular df -> rectangular (add_derived_climate_indices df).
Proof.
  intro H. rewrite add_derived_as_steps.
  repeat (apply derive_spec). exact H.
Qed.

Lemma row_get_present cols name :
  forall cells,
    has_column cols name = true ->
    List.length cells = List.length cols ->
    row_get cols cells name = Some (cell cols cells name).
Proof.
  unfold cell.
  induction cols as [|c cols IH]; intros cells Hhas Hlen; [discriminate|].
  destruct cells as [|x cells]; [discriminate|].
  cbn [row_get]. destruct (String.eqb c name) eqn:E; [reflexivity|].
  rewrite has_column_cons in Hhas.
  rewrite String.eqb_sym, E in Hhas. cbn [orb] in Hhas.
  injection Hlen as Hlen. rewrite (IH cells Hhas Hlen). reflexivity.
Qed.

Lemma row_set_same cols name v :
  forall cells, row_get cols cells name = Some v ->
                row_set cols cells name v = cells.
Proof.
  induction cols as [|c cols IH]; intros cells H; [discriminate|].
  destruct cells as [|x cells]; [discriminate|].
  cbn [row_get row_set] in *. destruct (String.eqb c name).
  - injection H as ->. reflexivity.
  - rewrite (IH cells H). reflexivity.
Qed.

(** A guarded assignment changes nothing on a frame that already holds
    the value it would compute. *)
Lemma derive_fixed name a b f df :
  rectangular df ->
  (has_column (wf_columns df) a && has_column (wf_columns df) b = true ->
   has_column (wf_columns df) name = true
   /\ forall r, In r (wf_rows df) ->
        cell (wf_columns df) (snd r) name
        = f (cell (wf_columns df) (snd r) a) (cell (wf_columns df) (snd r) b)) ->
  derive name a b f df = df.
Proof.
  intros Hrect H. unfold derive.
  destruct (has_column (wf_columns df) a && has_column (wf_columns df) b);
    [|reflexivity].
  destruct (H eq_refl) as [Hhas Hcell]. unfold assign, cols_set.
  rewrite Hhas. destruct df as [cols rows]. cbn [wf_columns wf_rows] in *.
  f_equal. rewrite <- (map_id rows) at 2. apply map_ext_in.
  intros [k cells] Hin. cbn [fst snd]. f_equal.
  apply row_set_same. pose proof (Hcell _ Hin) as Hc. cbn [snd] in Hc.
  rewrite <- Hc.
  apply row_get_present; [exact Hhas|]. apply (Hrect _ Hin).
Qed.

(** X14. [add_derived_climate_indices] is idempotent on tables: applied
    to its own result it changes nothing, so the derived columns can be
    recomputed safely. *)
Theorem add_derived_climate_indices_idempotent df :
  rectangular df ->
  add_derived_climate_indices (add_derived_climate_indices df)
  = add_derived_climate_indices df.
Proof.
  intro Hrect.
  pose proof (add_derived_rectangular df Hrect) as Hrect'.
  destruct (add_derived_closed_form df Hrect) as [Hcols Hrows].
  set (df' := add_derived_climate_indices df) in *.
  assert (Hrow : forall r', In r' (wf_rows df') ->
            exists r : Key * list float, forall n,
              cell (wf_columns df') (snd r') n
              = derived_cell (wf_columns df) (snd r) n).
  { intros r' Hin. destruct (Forall2_In_r _ _ _ _ Hrows Hin) as (r & _ & _ & H).
    exists r. exact H. }
  rewrite (add_derived_as_steps df').
  assert (Hstep : forall name a b f,
            assigned (wf_columns df) a = false ->
            assigned (wf_columns df) b = false ->
            (has_column (wf_columns df) a && has_column (wf_columns df) b = true ->
             assigned (wf_columns df) name = true
             /\ forall cells,
                  derived_cell (wf_columns df) cells name
                  = f (derived_cell (wf_columns df) cells a)
                      (derived_cell (wf_columns df) cells b)) ->
            derive name a b f df' = df').
  { intros name a b f Ha Hb Hspec. apply derive_fixed; [exact Hrect'|].
    rewrite !Hcols, Ha, Hb, !orb_false_r. intro Hg.
    destruct (Hspec Hg) as [Hassigned Hcell].
    rewrite Hassigned. split; [apply orb_true_r|].
    intros r' Hin. destruct (Hrow r' Hin) as (r & Hr). rewrite !Hr.
    apply Hcell. }
  rewrite !Hstep; try reflexivity.
  all: intro Hg; apply andb_prop in Hg as [Ha Hb];
    unfold assigned, derived_cell;
    cbn [String.eqb Ascii.eqb Bool.eqb andb orb];
    rewrite Ha, Hb; split; reflexivity.
Qed.

Lemma add_derived_climate_indices_idempotent_witness :
  add_derived_climate_indices (add_derived_climate_indices climate_frame)
  = add_derived_climate_indices climate_frame.
Proof.
  apply add_derived_climate_indices_idempotent.
  intros r [<- | []]. reflexivity.
Defined.

(* ------------------------------------------------------------------ *)
(** ** The period quarter *)

Section Periods.
Context {R : Reducers}.

Lemma rmap_quarter_of months :
  forallb valid_month months = true ->
  rmap quarter_of months = Ok (map (fun m => (m - 1) / 3 + 1)%Z months).
Proof.
  induction months as [|m months IH]; cbn [forallb rmap map]; [reflexivity|].
  intro H. apply andb_prop in H as [Hm Hrest].
  unfold quarter_of at 1. unfold valid_month in Hm. rewrite Hm.
  cbn [rbind]. rewrite (IH Hrest). reflexivity.
Qed.

Lemma rmap_quarter_of_invalid months :
  forallb valid_month months = false ->
  is_ok (rmap quarter_of months) = false.
Proof.
  induction months as [|m months IH]; cbn [forallb rmap]; [discriminate|].
  intro H. unfold quarter_of at 1. fold (valid_month m).
  destruct (valid_month m); [|reflexivity]. cbn [andb rbind] in *.
  specialize (IH H). destruct (rmap quarter_of months); [discriminate|].
  reflexivity.
Qed.

Lemma valid_dates_valid_months (df : WideFrame) :
  forallb (fun r => valid_date (fst r)) (wf_rows df) = true ->
  forallb valid_month (map (fun r => snd (fst r)) (wf_rows df)) = true.
Proof.
  induction (wf_rows df) as [|[[[i y] m] cells] rows IH];
    cbn [forallb map fst snd]; [reflexivity|].
  intro H. apply andb_prop in H as [H1 H2]. unfold valid_date in H1.
  apply andb_prop in H1 as [_ H1]. rewrite H1. apply IH, H2.
Qed.

(** X15. The period [quarter] of [compute_temporal_aggregates], which no
    aggregation mode of [prepare_for_gwas] reaches: on rows with
    calendar months it gives one row per (point, year, quarter), the
    quarter of month m being (m - 1) // 3 + 1, with the mean, std, min
    and max of every variable; a month outside 1..12, which the period
    [season] lets drop out silently, makes it raise; and a period other
    than [year], [season] and [quarter] is rejected by a ValueError that
    names it. *)
Theorem compute_temporal_aggregates_quarter df vars :
  vars <> [] ->
  (forall v, In v vars -> has_column (wf_columns df) v = true) ->
  (forallb (fun r => valid_date (fst r)) (wf_rows df) = true ->
   exists out,
     compute_temporal_aggregates df vars "quarter" = Ok out
     /\ grouped_statistics [Mean; Std; Min; Max] (wf_columns df) vars
          ["accession_id"; "year"; "quarter"] (keyed_by quarter_key df) out)
  /\ (forallb valid_month (map (fun r => snd (fst r)) (wf_rows df)) = false ->
      is_ok (compute_temporal_aggregates df vars "quarter") = false
      /\ is_ok (compute_temporal_aggregates df vars "season") = true)
  /\ (forall period,
        ~ In period ["year"; "season"; "quarter"] ->
        compute_temporal_aggregates df vars period
        = Err (ValueError ("Unknown aggregation period: " ++ period))).
Proof.
  intros Hne Hvars. split; [|split].
  - intro Hvalid. apply valid_dates_valid_months in Hvalid.
    unfold compute_temporal_aggregates.
    cbn [String.eqb Ascii.eqb Bool.eqb].
    unfold create_temporal_features. rewrite (rmap_quarter_of _ Hvalid).
    cbn [rbind quarter]. rewrite map_map, combine_map, map_map.
    destruct (groupby_agg_statistics [Mean; Std; Min; Max] (wf_columns df)
                vars ["accession_id"; "year"; "quarter"]
                (keyed_by quarter_key df) Hne Hvars) as (out & Ho & Hs).
    exists out. split; [|exact Hs]. rewrite <- Ho. unfold keyed_by.
    f_equal. apply map_ext. intros [[[i y] m] cells]. reflexivity.
  - intro Hbad. split.
    + unfold compute_temporal_aggregates.
      cbn [String.eqb Ascii.eqb Bool.eqb].
      unfold create_temporal_features.
      pose proof (rmap_quarter_of_invalid _ Hbad) as H.
      destruct (rmap quarter_of _); [discriminate|]. reflexivity.
    + rewrite compute_temporal_aggregates_season.
      destruct (groupby_agg_statistics [Mean; Std; Min; Max] (wf_columns df)
                  vars ["accession_id"; "year"; "season"]
                  (keyed_by season_key df) Hne Hvars) as (out & Ho & _).
      rewrite Ho. reflexivity.
  - intros period Hp. unfold compute_temporal_aggregates.
    assert (E1 : String.eqb period "year" = false).
    { apply String.eqb_neq. intros ->. apply Hp. simpl. auto. }
    assert (E2 : String.eqb period "season" = false).
    { apply String.eqb_neq. intros ->. apply Hp. simpl. auto. }
    assert (E3 : String.eqb period "quarter" = false).
    { apply String.eqb_neq. intros ->. apply Hp. simpl. auto. }
    rewrite E1, E2, E3. reflexivity.
Qed.

End Periods.

Lemma compute_temporal_aggregates_quarter_witness :
  (forallb (fun r => valid_date (fst r)) (wf_rows ppt_frame) = true ->
   exists out,
     compute_temporal_aggregates ppt_frame ["ppt"] "quarter" = Ok out
     /\ grouped_statistics [Mean; Std; Min; Max] (wf_columns ppt_frame) ["ppt"]
          ["accession_id"; "year"; "quarter"] (keyed_by quarter_key ppt_frame)
          out)
  /\ (forallb valid_month (map (fun r => snd (fst r)) (wf_rows ppt_frame))
      = false ->
      is_ok (compute_temporal_aggregates ppt_frame ["ppt"] "quarter") = false
      /\ is_ok (compute_temporal_aggregates ppt_frame ["ppt"] "season") = true)
  /\ (forall period,
        ~ In period ["year"; "season"; "quarter"] ->
        compute_temporal_aggregates ppt_frame ["ppt"] period
        = Err (ValueError ("Unknown aggregation period: " ++ period))).
Proof.
  apply (compute_temporal_aggregates_quarter (R := textbook_reducers)
           ppt_frame ["ppt"]).
  - discriminate.
  - intros v [<- | []]. reflexivity.
Defined.

(** The two periods on a frame with a month 13: [quarter] raises,
    [season] drops the row and aggregates the rest. *)
Lemma month_13_quarter_and_season :
  compute_temporal_aggregates frame_with_month_13 ["ppt"] "quarter"
  = Err (ValueError "cannot assemble the datetimes: month must be in 1..12")
  /\ option_map (map fst)
       (match compute_temporal_aggregates frame_with_month_13 ["ppt"] "season"
        with Ok out => Some (agg_rows out) | Err _ => None end)
     = Some [[SStr "A"; SInt 1958; SStr "Winter"]].
Proof. split; vm_compute; reflexivity. Qed.

(* ------------------------------------------------------------------ *)
(** ** Facts about main.py *)

Section Pipeline.
Context {R : Reducers}.

Lemma extract_all_variables_columns_named vars c s w results w' :
  extract_all_variables vars c s w = (Ok results, w') ->
  columns_named results.
Proof.
  unfold extract_all_variables, bind.
  destruct (build_spatial_index c w) as [[idx|e] w0]; [|discriminate].
  set (vs := match vars with Some vs => vs | None => CLIMATE_VARIABLES end).
  destruct (extract_each_spec vs idx s [] w0) as (w1 & H1 & _).
  rewrite H1. intros [= <- _].
  set (out := fun v => outcome (thredds w0) (START_YEAR w0) (END_YEAR w0)
                               v idx s).
  assert (Hnd : NoDup (dict_keys (collect out vs [])))
    by (apply collect_NoDup; constructor).
  apply Forall_forall. intros [v df] Hin. cbn [fst snd].
  apply (dict_get_NoDup_In _ _ _ Hnd) in Hin.
  rewrite collect_get in Hin.
  destruct (in_dec string_dec v vs); cbn [dict_get] in Hin; [|discriminate].
  destruct (out v) as [d|] eqn:E; cbn [dict_get] in Hin; [|discriminate].
  injection Hin as <-. apply outcome_lt_var in E. exact E.
Qed.

Lemma merge_ok vd :
  vd <> [] -> columns_named vd ->
  exists out, merge_variables_wide_format vd = Ok out
              /\ wf_columns out = dict_keys vd.
Proof.
  intros Hne Hcn. destruct vd as [|[v df] rest]; [congruence|].
  inversion Hcn as [|? ? Hv Hrest]; subst. cbn [fst snd] in Hv.
  destruct (merge_each_merged rest [(v, df)] (wide_of_long df) Hrest
              (merged_first v df Hv)) as (out & Ho & Hm & _).
  exists out. split; [exact Ho | exact Hm].
Qed.

Lemma prepare_for_gwas_ok vd mode d :
  vd <> [] -> columns_named vd -> In mode aggregation_choices ->
  is_ok (prepare_for_gwas vd mode d) = true.
Proof.
  intros Hne Hcn Hmode.
  destruct (merge_ok vd Hne Hcn) as (out & Ho & _).
  rewrite prepare_for_gwas_dispatch. unfold prepared. rewrite Ho.
  cbn [rbind].
  unfold aggregation_choices in Hmode. simpl in Hmode.
  destruct Hmode as [<- | [<- | [<- | [<- | []]]]];
    cbn [String.eqb Ascii.eqb Bool.eqb];
    rewrite ?compute_climate_summaries_eq, ?compute_temporal_aggregates_year,
      ?compute_temporal_aggregates_season;
    try reflexivity;
    (apply groupby_agg_ok; [reflexivity | apply climate_columns_present]).
Qed.

(** X16. Whatever [extract_all_variables] returns, when it is not empty,
    goes through the transformation: the tables merge into one frame with
    one value column per extracted variable, in the order of the
    mapping, and [prepare_for_gwas] returns a table for each of the four
    aggregation modes, with or without the derived indices. *)
Theorem extracted_tables_always_prepare
    vars use_cached_index sequential w results w' :
  extract_all_variables vars use_cached_index sequential w = (Ok results, w') ->
  results <> [] ->
  (exists out, merge_variables_wide_format results = Ok out
               /\ wf_columns out = dict_keys results)
  /\ (forall mode d, In mode aggregation_choices ->
        is_ok (prepare_for_gwas results mode d) = true).
Proof.
  intros H Hne. apply extract_all_variables_columns_named in H.
  split; [apply merge_ok; assumption|].
  intros mode d Hmode. apply prepare_for_gwas_ok; assumption.
Qed.

Lemma build_spatial_index_catchable use_cache w e :
  fst (build_spatial_index use_cache w) = Err e -> is_Exception e = true.
Proof.
  destruct (build_spatial_index_cases use_cache w)
    as [(cf & -> & Hcf & Hb)
       | (Hc & [(Hcsv & Hb) | [(Hds & Hb) | (idx & failed & Hb)]])];
    rewrite Hb; cbn [fst]; try (intros [= <-]; reflexivity);
    try discriminate.
  destruct cf; [discriminate|]. intros [= <-]. reflexivity.
Qed.

Lemma extract_all_variables_catchable vars c s w e :
  fst (extract_all_variables vars c s w) = Err e -> is_Exception e = true.
Proof.
  unfold extract_all_variables, bind.
  destruct (build_spatial_index c w) as [[idx|e'] w0] eqn:Hb.
  - set (vs := match vars with Some vs => vs | None => CLIMATE_VARIABLES end).
    destruct (extract_each_spec vs idx s [] w0) as (w1 & H1 & _).
    rewrite H1. discriminate.
  - cbn [fst]. intros [= <-].
    apply (build_spatial_index_catchable c w). rewrite Hb. reflexivity.
Qed.

Lemma save_dataframe_ok name format w :
  fst (save_dataframe name format w) = Ok tt.
Proof.
  unfold save_dataframe, bind, tell, ret.
  destruct (String.eqb format "parquet" || String.eqb format "both");
    destruct (String.eqb format "csv" || String.eqb format "both");
    reflexivity.
Qed.

Lemma save_each_ok format vd : forall w, fst (save_each vd format w) = Ok tt.
Proof.
  induction vd as [|[v df] vd IH]; intro w; [reflexivity|].
  cbn [save_each]. unfold bind.
  pose proof (save_dataframe_ok (v ++ "_monthly") format w) as H.
  destruct (save_dataframe (v ++ "_monthly") format w) as [r w1].
  cbn [fst] in H. subst r. apply IH.
Qed.

(** [run_pipeline] on an aggregation mode that [parse_args] accepts. *)
Lemma run_pipeline_eq args w :
  In (args_aggregation args) aggregation_choices ->
  run_pipeline args w
  = match build_spatial_index (negb (args_rebuild_index args))
                              (override_years args w) with
    | (Err _, w2) => (Err (SystemExit 1), w2)
    | (Ok _, w2) =>
        match extract_all_variables (requested_variables args) true true w2 with
        | (Err _, w3) => (Err (SystemExit 1), w3)
        | (Ok [], w3) => (Err (SystemExit 1), w3)
        | (Ok variable_data, w3) =>
            (Ok tt, after_saving args variable_data w3)
        end
    end.
Proof.
  intro Hmode. unfold run_pipeline.
  change (bind ?c ?k w) with
    (match c w with (Ok a, w') => k a w' | (Err e, w') => (Err e, w') end).
  cbv beta iota.
  fold (override_years args w). fold (requested_variables args).
  fold (output_name args).
  unfold bind at 1.
  destruct (build_spatial_index (negb (args_rebuild_index args))
                                (override_years args w))
    as [[idx|e] w2] eqn:Hb.
  2: { rewrite (build_spatial_index_catchable
                  (negb (args_rebuild_index args)) (override_years args w) e);
         [reflexivity|].
       rewrite Hb. reflexivity. }
  unfold bind at 1.
  destruct (extract_all_variables (requested_variables args) true true w2)
    as [[vd|e] w3] eqn:He.
  2: { rewrite (extract_all_variables_catchable
                  (requested_variables args) true true w2 e); [reflexivity|].
       rewrite He. reflexivity. }
  destruct vd as [|p vd]; [reflexivity|].
  assert (Hp : is_ok (prepare_for_gwas (p :: vd) (args_aggregation args)
                                        (args_derived args)) = true).
  { apply prepare_for_gwas_ok; [discriminate | | exact Hmode].
    eapply extract_all_variables_columns_named, He. }
  unfold after_saving, bind, lift.
  destruct ((if args_no_validation args then ret tt
             else validate_extraction (p :: vd)) w3) as [[[]|e] w4] eqn:Hv.
  2: { destruct (args_no_validation args); discriminate. }
  destruct (prepare_for_gwas (p :: vd) (args_aggregation args)
                             (args_derived args)) as [final_df|e];
    [|discriminate].
  pose proof (save_dataframe_ok (output_name args) (args_format args) w4) as Hs.
  destruct (save_dataframe (output_name args) (args_format args) w4)
    as [r w5]. cbn [fst] in Hs. subst r.
  destruct (String.eqb (args_aggregation args) "monthly").
  - pose proof (save_each_ok (args_format args) (p :: vd) w5) as Hs.
    destruct (save_each (p :: vd) (args_format args) w5) as [r w6].
    cbn [fst] in Hs. subst r. reflexivity.
  - reflexivity.
Qed.

Lemma parse_args_cases cl :
  (exists args,
     parse_args cl = Ok args
     /\ In (args_aggregation args) aggregation_choices
     /\ In (args_format args) format_choices)
  \/ parse_args cl = Err (SystemExit 2).
Proof.
  unfold parse_args.
  destruct (has_column aggregation_choices _) eqn:Ea; cbn [negb]; [|auto].
  destruct (has_column format_choices _) eqn:Ef; cbn [negb]; [|auto].
  left. eexists. split; [reflexivity|]. cbn [args_aggregation args_format].
  split; apply has_column_In; assumption.
Qed.

Lemma main_eq cl w :
  main cl w
  = match parse_args cl with
    | Ok args => run_pipeline args w
    | Err e => (Err e, w)
    end.
Proof. unfold main, bind, lift. destruct (parse_args cl); reflexivity. Qed.








(** The order of the tokens decides between the help and a refused
    value. *)
Lemma help_before_and_after_a_refused_value w :
  main_from_argv [TRebuildIndex; THelp; TAggregation "weekly"] w
  = (Err (SystemExit 0), w)
  /\ main_from_argv [TAggregation "weekly"; THelp] w
     = (Err (SystemExit 2), w).
Proof. split; reflexivity. Qed.

(** X26. The options [--start-year] and [--end-year] defeat the
    pipeline: with a start year or an end year other than 0 among the
    accepted options, [main] leaves with exit status 1, whatever the
    catalog, the cache and the sources are: when the index is there,
    every extraction fails at [ds.sel] and nothing is extracted. *)
Theorem main_with_year_bound_fails cl args w :
  parse_args cl = Ok args ->
  truthy (args_start_year args) || truthy (args_end_year args) = true ->
  fst (main cl w) = Err (SystemExit 1).
Proof.
  intros Hp Hyear. rewrite main_eq, Hp.
  destruct (parse_args_cases cl) as [(args' & Hp' & Hmode & _) | Hp'];
    [|congruence].
  assert (args' = args) by congruence. subst args'.
  rewrite (run_pipeline_eq args w Hmode).
  destruct (build_spatial_index_frame (negb (args_rebuild_index args))
                                      (override_years args w))
    as (_ & _ & Hs & He & _).
  destruct (build_spatial_index (negb (args_rebuild_index args))
                                (override_years args w))
    as [[idx|e] w2]; [|reflexivity].
  cbn [snd] in Hs, He.
  assert (Hrange : START_YEAR w2 <> None \/ END_YEAR w2 <> None).
  { rewrite Hs, He. unfold override_years, set_years. cbn [START_YEAR END_YEAR].
    apply orb_true_iff in Hyear as [H | H]; [left | right]; rewrite H;
      unfold truthy in H;
      [destruct (args_start_year args) | destruct (args_end_year args)];
      discriminate. }
  unfold extract_all_variables, bind.
  destruct (build_spatial_index_frame true w2) as (_ & _ & Hs2 & He2 & _).
  destruct (build_spatial_index true w2) as [[idx2|e2] w3]; [|reflexivity].
  cbn [snd] in Hs2, He2.
  destruct (extract_each_year_range
              (match requested_variables args with
               | Some vs => vs
               | None => CLIMATE_VARIABLES
               end) idx2 w3) as (w4 & H4 & _).
  { rewrite Hs2, He2. exact Hrange. }
  rewrite H4. reflexivity.
Qed.

Lemma saved_events w w' evs :
  events w' = events w ++ evs ->
  saved w' = saved w ++ flat_map (fun ev => match ev with
                                            | EvSave name format => [(name, format)]
                                            | _ => []
                                            end) evs.
Proof. unfold saved. intros ->. apply flat_map_app. Qed.

Lemma saved_emit w ev :
  saved (emit w ev)
  = saved w ++ match ev with EvSave name format => [(name, format)] | _ => [] end.
Proof.
  rewrite (saved_events w (emit w ev) [ev] eq_refl). cbn [flat_map].
  rewrite app_nil_r. reflexivity.
Qed.

Lemma build_spatial_index_saved use_cache w :
  saved (snd (build_spatial_index use_cache w)) = saved w.
Proof.
  destruct (build_spatial_index_cases use_cache w)
    as [(cf & -> & Hcf & Hb)
       | (Hc & [(Hcsv & Hb) | [(Hds & Hb) | (idx & failed & Hb)]])];
    rewrite Hb; cbn [snd]; rewrite ?saved_emit, ?app_nil_r; try reflexivity.
  rewrite (saved_events w _ _ (events_after_rebuild use_cache w idx failed)).
  destruct failed, use_cache; cbn [flat_map app]; apply app_nil_r.
Qed.

Lemma traced_saves_nothing out vars :
  flat_map (fun ev => match ev with
                      | EvSave name format => [(name, format)]
                      | _ => []
                      end) (traced out vars) = [].
Proof.
  unfold traced. induction vars as [|v vars IH]; [reflexivity|].
  cbn [flat_map]. rewrite flat_map_app, IH.
  destruct (out v); reflexivity.
Qed.

Lemma extract_all_variables_saved vars c s w :
  saved (snd (extract_all_variables vars c s w)) = saved w.
Proof.
  unfold extract_all_variables, bind.
  pose proof (build_spatial_index_saved c w) as Hb.
  destruct (build_spatial_index c w) as [[idx|e] w0]; cbn [snd] in *;
    [|exact Hb].
  set (vs := match vars with Some vs => vs | None => CLIMATE_VARIABLES end).
  destruct (extract_each_spec vs idx s [] w0) as (w1 & H1 & _ & He & _).
  rewrite H1. cbn [snd].
  rewrite (saved_events w0 w1 _ He), traced_saves_nothing, app_nil_r.
  exact Hb.
Qed.

Lemma save_dataframe_saved name format w :
  saved (snd (save_dataframe name format w)) = saved w ++ files name format.
Proof.
  unfold save_dataframe, files, bind, tell, ret.
  destruct (String.eqb format "parquet" || String.eqb format "both");
    destruct (String.eqb format "csv" || String.eqb format "both");
    cbn [snd]; rewrite ?saved_emit, <- ?app_assoc, ?app_nil_r; reflexivity.
Qed.

Lemma save_each_saved format vd :
  forall w,
    saved (snd (save_each vd format w))
    = saved w ++ flat_map (fun v => files (v ++ "_monthly") format)
                          (dict_keys vd).
Proof.
  induction vd as [|[v df] vd IH]; intro w.
  - cbn. rewrite app_nil_r. reflexivity.
  - cbn [save_each dict_keys map flat_map fst]. unfold bind.
    pose proof (save_dataframe_ok (v ++ "_monthly") format w) as Hok.
    pose proof (save_dataframe_saved (v ++ "_monthly") format w) as Hs.
    destruct (save_dataframe (v ++ "_monthly") format w) as [r w1].
    cbn [fst snd] in *. subst r. rewrite IH, Hs, <- app_assoc. reflexivity.
Qed.

Lemma after_saving_saved args vd w :
  saved (after_saving args vd w)
  = saved w ++ files (output_name args) (args_format args)
    ++ (if String.eqb (args_aggregation args) "monthly"
        then flat_map (fun v => files (v ++ "_monthly") (args_format args))
                      (dict_keys vd)
        else []).
Proof.
  unfold after_saving, bind.
  assert (Hv : exists w4,
            (if args_no_validation args then ret tt
             else validate_extraction vd) w = (Ok tt, w4)
            /\ saved w4 = saved w).
  { destruct (args_no_validation args).
    - exists w. auto.
    - eexists. split; [reflexivity|]. rewrite saved_emit. apply app_nil_r. }
  destruct Hv as (w4 & -> & <-).
  pose proof (save_dataframe_ok (output_name args) (args_format args) w4) as Hok.
  pose proof (save_dataframe_saved (output_name args) (args_format args) w4)
    as Hs.
  destruct (save_dataframe (output_name args) (args_format args) w4) as [r w5].
  cbn [fst snd] in *. subst r.
  destruct (String.eqb (args_aggregation args) "monthly").
  - rewrite save_each_saved, Hs, <- app_assoc. reflexivity.
  - cbn [ret snd]. rewrite Hs, app_nil_r. reflexivity.
Qed.

Lemma files_nonempty name format :
  In format format_choices -> files name format <> [].
Proof.
  unfold format_choices. simpl.
  intros [<- | [<- | [<- | []]]]; discriminate.
Qed.

(** X18. The tables [main] saves: a run that does not end normally
    saves none; a run that ends normally saves the final table under the
    name of its aggregation mode, once per requested format and at least
    once, and in the mode [monthly] then one table per extracted
    variable, in the order of extraction. *)
Theorem main_output_files cl w :
  (fst (main cl w) <> Ok tt -> saved (snd (main cl w)) = saved w)
  /\ (forall args,
        parse_args cl = Ok args ->
        fst (main cl w) = Ok tt ->
        files (output_name args) (args_format args) <> []
        /\ exists idx w2 variable_data w3,
             build_spatial_index (negb (args_rebuild_index args))
                                 (override_years args w) = (Ok idx, w2)
             /\ extract_all_variables (requested_variables args) true true w2
                = (Ok variable_data, w3)
             /\ saved (snd (main cl w))
                = saved w ++ files (output_name args) (args_format args)
                  ++ (if String.eqb (args_aggregation args) "monthly"
                      then flat_map (fun v => files (v ++ "_monthly")
                                                    (args_format args))
                                    (dict_keys variable_data)
                      else [])).
Proof.
  rewrite main_eq.
  destruct (parse_args_cases cl) as [(args & Hp & Hmode & Hfmt) | Hp];
    rewrite Hp.
  2: { split; [reflexivity|]. intros a H. discriminate H. }
  rewrite (run_pipeline_eq args w Hmode).
  pose proof (build_spatial_index_saved (negb (args_rebuild_index args))
                                        (override_years args w)) as Hb1.
  destruct (build_spatial_index (negb (args_rebuild_index args))
                                (override_years args w))
    as [[idx|e] w2] eqn:Hb; cbn [snd] in Hb1.
  2: { split; [intros _; exact Hb1|]. intros a _ H. discriminate H. }
  pose proof (extract_all_variables_saved (requested_variables args)
                                          true true w2) as He1.
  destruct (extract_all_variables (requested_variables args) true true w2)
    as [[[|p vd]|e] w3] eqn:He; cbn [fst snd] in *.
  - split; [intros _; rewrite He1, Hb1; reflexivity|].
    intros a _ H. discriminate H.
  - split; [congruence|]. intros a [= <-] _.
    split; [apply files_nonempty, Hfmt|].
    exists idx, w2, (p :: vd), w3. rewrite Hb, He.
    split; [reflexivity|]. split; [reflexivity|].
    rewrite after_saving_saved, He1, Hb1. reflexivity.
  - split; [intros _; rewrite He1, Hb1; reflexivity|].
    intros a _ H. discriminate H.
Qed.

End Pipeline.

Lemma extracted_tables_always_prepare_witness :
  (exists out,
     merge_variables_wide_format
       [("aet", mkLong "aet" [(("A", 1958%Z, 1%Z), 5%float)])] = Ok out
     /\ wf_columns out
        = dict_keys [("aet", mkLong "aet" [(("A", 1958%Z, 1%Z), 5%float)])])
  /\ (forall mode d,
        In mode aggregation_choices ->
        is_ok (prepare_for_gwas
                 [("aet", mkLong "aet" [(("A", 1958%Z, 1%Z), 5%float)])]
                 mode d) = true).
Proof.
  eapply (extracted_tables_always_prepare
            (Some ["aet"]) true true cached_world_without_tmax).
  - vm_compute. reflexivity.
  - discriminate.
Defined.

Lemma main_with_year_bound_fails_witness :
  fst (main start_year_command_line two_variable_world) = Err (SystemExit 1)
  /\ fst (main tmax_command_line two_variable_world) = Ok tt.
Proof.
  split; [|vm_compute; reflexivity].
  apply (@main_with_year_bound_fails textbook_reducers start_year_command_line
           (mkArgs (Some "tmax") "summary" "parquet" false false true
                   (Some 1959%Z) None));
    reflexivity.
Defined.

(** A run for the monthly tables of [aet] and [tmax] in both formats, on
    a server without [tmax]: the final table and the table of [aet] are
    written, each twice. *)
Lemma main_monthly_example :
  fst (main monthly_command_line world_without_tmax) = Ok tt
  /\ saved (snd (main monthly_command_line world_without_tmax))
     = [("climate_data_monthly", "parquet"); ("climate_data_monthly", "csv");
        ("aet_monthly", "parquet"); ("aet_monthly", "csv")].
Proof. split; vm_compute; reflexivity. Qed.

(* ------------------------------------------------------------------ *)
(** ** Facts about the parsing of --variables *)

Lemma visible_not_space c : visible c = true -> is_space c = false.
Proof.
  unfold visible, is_space. intro H. apply andb_prop in H as [H1 H2].
  apply Nat.leb_le in H1. apply Nat.leb_le in H2.
  apply orb_false_iff. split.
  - apply Nat.eqb_neq. lia.
  - apply andb_false_iff. right. apply Nat.leb_gt. lia.
Qed.

Lemma split_commas_comma_free s :
  comma_free s = true -> split_commas s = [s].
Proof.
  induction s as [|c s IH]; cbn; [reflexivity|].
  intro H. apply andb_prop in H as [Hc Hs].
  apply negb_true_iff in Hc. rewrite Hc, (IH Hs). reflexivity.
Qed.

Lemma split_commas_app s rest :
  comma_free s = true ->
  split_commas (s ++ "," ++ rest)%string = s :: split_commas rest.
Proof.
  induction s as [|c s IH]; cbn; [reflexivity|].
  intro H. apply andb_prop in H as [Hc Hs].
  apply negb_true_iff in Hc. rewrite Hc.
  cbn in IH. rewrite (IH Hs). reflexivity.
Qed.

Lemma split_commas_concat tokens :
  tokens <> [] ->
  Forall (fun t => comma_free t = true) tokens ->
  split_commas (String.concat "," tokens) = tokens.
Proof.
  induction tokens as [|t tokens IH]; [congruence|].
  intros _ H. inversion H as [|? ? Ht Hrest]; subst.
  destruct tokens as [|t' tokens].
  - cbn. apply split_commas_comma_free, Ht.
  - cbn [String.concat]. rewrite split_commas_app by exact Ht.
    f_equal. apply IH; [discriminate | exact Hrest].
Qed.

Lemma comma_free_app a b :
  comma_free (a ++ b)%string = comma_free a && comma_free b.
Proof.
  induction a as [|c a IH]; cbn; [reflexivity|].
  rewrite IH, andb_assoc. reflexivity.
Qed.

Lemma blank_comma_free s : blank s = true -> comma_free s = true.
Proof.
  induction s as [|c s IH]; cbn; [reflexivity|].
  intro H. apply andb_prop in H as [Hc Hs]. rewrite (IH Hs), andb_true_r.
  apply negb_true_iff, Ascii.eqb_neq. intros ->. discriminate Hc.
Qed.

Lemma lstrip_blank l s : blank l = true -> lstrip (l ++ s)%string = lstrip s.
Proof.
  induction l as [|c l IH]; cbn; [reflexivity|].
  intro H. apply andb_prop in H as [Hc Hl]. rewrite Hc. apply IH, Hl.
Qed.

Lemma lstrip_tight s : starts_tight s = true -> lstrip s = s.
Proof.
  destruct s as [|c s]; cbn; [discriminate|].
  intro H. apply visible_not_space in H. rewrite H. reflexivity.
Qed.

Lemma rstrip_blank r : blank r = true -> rstrip r = "".
Proof.
  induction r as [|c r IH]; cbn; [reflexivity|].
  intro H. apply andb_prop in H as [Hc Hr]. rewrite (IH Hr), Hc. reflexivity.
Qed.

Lemma rstrip_app_blank s r : blank r = true -> rstrip (s ++ r)%string = rstrip s.
Proof.
  intro H. induction s as [|c s IH]; cbn; [apply rstrip_blank, H|].
  rewrite IH. reflexivity.
Qed.

Lemma rstrip_tight s : ends_tight s = true -> rstrip s = s.
Proof.
  induction s as [|c s IH]; [discriminate|].
  destruct s as [|c' s'].
  - cbn. intro H. apply visible_not_space in H. rewrite H. reflexivity.
  - intro H. change (ends_tight (String c (String c' s')))
      with (ends_tight (String c' s')) in H.
    change (rstrip (String c (String c' s')))
      with (match rstrip (String c' s') with
            | EmptyString => if is_space c then EmptyString
                             else String c EmptyString
            | r => String c r
            end).
    rewrite (IH H). reflexivity.
Qed.

Lemma ends_tight_app l s :
  ends_tight s = true -> ends_tight (l ++ s)%string = true.
Proof.
  intro H. induction l as [|c l IH]; [exact H|].
  cbn [append]. destruct (l ++ s)%string as [|c' t] eqn:E.
  - destruct l; [cbn in E; subst s; discriminate | discriminate].
  - exact IH.
Qed.

Lemma string_app_assoc (a b c : string) :
  ((a ++ b) ++ c)%string = (a ++ b ++ c)%string.
Proof. induction a as [|x a IH]; cbn; [reflexivity | rewrite IH; reflexivity]. Qed.

Lemma strip_padded token name :
  variable_name name = true -> padded token name -> strip token = name.
Proof.
  unfold variable_name. intros Hn (l & r & Hl & Hr & ->).
  apply andb_prop in Hn as [Hn He]. apply andb_prop in Hn as [_ Hs].
  unfold strip.
  rewrite <- string_app_assoc.
  rewrite rstrip_app_blank by exact Hr.
  rewrite rstrip_tight by (apply ends_tight_app, He).
  rewrite lstrip_blank by exact Hl. apply lstrip_tight, Hs.
Qed.

Lemma padded_comma_free token name :
  variable_name name = true -> padded token name -> comma_free token = true.
Proof.
  unfold variable_name. intros Hn (l & r & Hl & Hr & ->).
  apply andb_prop in Hn as [Hn _]. apply andb_prop in Hn as [Hc _].
  rewrite !comma_free_app, Hc, !blank_comma_free by assumption. reflexivity.
Qed.

Lemma padded_nonempty token name :
  variable_name name = true -> padded token name -> token <> "".
Proof.
  unfold variable_name. intros Hn (l & r & _ & _ & ->).
  apply andb_prop in Hn as [Hn _]. apply andb_prop in Hn as [_ Hs].
  destruct name; [discriminate|]. destruct l; discriminate.
Qed.

(** X19. The option --variables is read back as it is meant: names
    separated by commas, each with or without blanks around it, give
    exactly these names, in order; an absent or empty option stands for
    all variables. *)
Theorem requested_variables_round_trip args tokens names :
  args_variables args = Some (String.concat "," tokens) ->
  names <> [] ->
  Forall (fun n => variable_name n = true) names ->
  Forall2 padded tokens names ->
  requested_variables args = Some names.
Proof.
  intros Hargs Hne Hnames Hpad. unfold requested_variables. rewrite Hargs.
  assert (Htok : Forall (fun t => comma_free t = true) tokens).
  { clear Hargs Hne. induction Hpad as [|t n ts ns Hp _ IH]; constructor.
    - inversion Hnames; subst. eapply padded_comma_free; eassumption.
    - apply IH. inversion Hnames; assumption. }
  assert (Hts : tokens <> []).
  { intros ->. inversion Hpad. congruence. }
  assert (Hnonempty : String.concat "," tokens <> "").
  { destruct Hpad as [|t n ts ns Hp Hrest]; [congruence|].
    inversion Hnames; subst.
    pose proof (padded_nonempty _ _ H1 Hp) as Ht.
    destruct ts; cbn; [exact Ht|]. destruct t; [congruence | discriminate]. }
  apply String.eqb_neq in Hnonempty. rewrite Hnonempty.
  rewrite split_commas_concat by assumption. f_equal.
  clear Hargs Hne Htok Hts Hnonempty.
  induction Hpad as [|t n ts ns Hp _ IH]; [reflexivity|].
  inversion Hnames; subst. cbn [map]. f_equal.
  - apply strip_padded; assumption.
  - apply IH. assumption.
Qed.

Lemma requested_variables_round_trip_witness :
  requested_variables
    (mkArgs (Some "tmax, tmin ,ppt") "summary" "parquet" false false true
            None None)
  = Some ["tmax"; "tmin"; "ppt"].
Proof.
  apply (requested_variables_round_trip _ ["tmax"; " tmin "; "ppt"]).
  - reflexivity.
  - discriminate.
  - repeat constructor.
  - constructor; [exists "", ""; auto|].
    constructor; [exists " ", " "; auto|].
    constructor; [exists "", ""; auto|]. constructor.
Defined.

(** What stands for all variables, and what an empty field does. *)
Lemma requested_variables_edge_cases :
  requested_variables
    (mkArgs None "summary" "parquet" false false true None None) = None
  /\ requested_variables
       (mkArgs (Some "") "summary" "parquet" false false true None None) = None
  /\ requested_variables
       (mkArgs (Some "tmax,") "summary" "parquet" false false true None None)
     = Some ["tmax"; ""].
Proof. repeat split; reflexivity. Qed.

(* ------------------------------------------------------------------ *)
(** ** Facts about validate.py *)

Lemma fold_min_spec (l : list Z) :
  forall y, (forall x, In x (y :: l) -> (fold_left Z.min l y <= x)%Z)
            /\ In (fold_left Z.min l y) (y :: l).
Proof.
  induction l as [|a l IH]; intro y; cbn [fold_left].
  - split; [intros x [<- | []]; lia | left; reflexivity].
  - destruct (IH (Z.min y a)) as [H1 H2]. split.
    + intros x [<- | [<- | Hin]].
      * specialize (H1 (Z.min y a) (or_introl eq_refl)). lia.
      * specialize (H1 (Z.min y a) (or_introl eq_refl)). lia.
      * apply H1. right. exact Hin.
    + destruct H2 as [H2 | H2].
      * rewrite <- H2. destruct (Z.min_spec y a) as [[_ ->] | [_ ->]];
          [left | right; left]; reflexivity.
      * right. right. exact H2.
Qed.

Lemma fold_max_spec (l : list Z) :
  forall y, (forall x, In x (y :: l) -> (x <= fold_left Z.max l y)%Z)
            /\ In (fold_left Z.max l y) (y :: l).
Proof.
  induction l as [|a l IH]; intro y; cbn [fold_left].
  - split; [intros x [<- | []]; lia | left; reflexivity].
  - destruct (IH (Z.max y a)) as [H1 H2]. split.
    + intros x [<- | [<- | Hin]].
      * specialize (H1 (Z.max y a) (or_introl eq_refl)). lia.
      * specialize (H1 (Z.max y a) (or_introl eq_refl)). lia.
      * apply H1. right. exact Hin.
    + destruct H2 as [H2 | H2].
      * rewrite <- H2. destruct (Z.max_spec y a) as [[_ ->] | [_ ->]];
          [right; left | left]; reflexivity.
      * right. right. exact H2.
Qed.

Lemma calendar_In lo hi y m :
  In (y, m) (calendar lo hi) <-> (lo <= y <= hi /\ 1 <= m <= 12)%Z.
Proof.
  unfold calendar. rewrite in_prod_iff, !in_map_iff. split.
  - intros [(k & <- & Hk) (j & <- & Hj)].
    apply in_seq in Hk. apply in_seq in Hj. lia.
  - intros [Hy Hm]. split.
    + exists (Z.to_nat (y - lo)). split; [lia|]. apply in_seq. lia.
    + exists (Z.to_nat m). split; [lia|]. apply in_seq. lia.
Qed.

Lemma calendar_length lo hi :
  (lo <= hi)%Z ->
  Z.of_nat (List.length (calendar lo hi)) = ((hi - lo + 1) * 12)%Z.
Proof.
  intro H. unfold calendar.
  rewrite length_prod, !length_map, !length_seq. lia.
Qed.

Lemma NoDup_map_inj {A B} (f : A -> B) (l : list A) :
  (forall x y, In x l -> In y l -> f x = f y -> x = y) ->
  NoDup l -> NoDup (map f l).
Proof.
  intros Hinj Hnd. induction Hnd as [|x l Hnin Hnd IH]; cbn; constructor.
  - intro Hin. apply in_map_iff in Hin as (y & Hy & Hin).
    assert (y = x) by (apply Hinj; [right; exact Hin | left; reflexivity | exact Hy]).
    subst y. contradiction.
  - apply IH. intros a b Ha Hb. apply Hinj; right; assumption.
Qed.

Lemma NoDup_prod {A B} (l : list A) (l' : list B) :
  NoDup l -> NoDup l' -> NoDup (list_prod l l').
Proof.
  intros Hl Hl'. induction Hl as [|x l Hnin Hl IH]; cbn; [constructor|].
  apply NoDup_app.
  - apply NoDup_map_inj; [|exact Hl']. intros a b _ _ [= ->]. reflexivity.
  - exact IH.
  - intros [a b] H1 H2. apply in_map_iff in H1 as (b' & [= <- <-] & _).
    apply in_prod_iff in H2 as [H2 _]. contradiction.
Qed.

Lemma calendar_NoDup lo hi : NoDup (calendar lo hi).
Proof.
  unfold calendar. apply NoDup_prod.
  - apply NoDup_map_inj; [|apply seq_NoDup]. intros a b _ _ H. lia.
  - apply NoDup_map_inj; [|apply seq_NoDup]. intros a b _ _ H. lia.
Qed.

(** Counting: a duplicate-free part of a duplicate-free list is shorter
    exactly when it misses an element. *)
Lemma shorter_iff_missing {A} (dec : forall a b : A, {a = b} + {a <> b})
    (P C : list A) :
  NoDup P -> NoDup C -> incl P C ->
  ((List.length P < List.length C)%nat
   <-> exists x, In x C /\ ~ In x P).
Proof.
  intros HP HC Hincl. split.
  - intro Hlt.
    destruct (filter (fun x => if in_dec dec x P then false else true) C)
      as [|x l] eqn:E.
    + exfalso.
      assert (Hall : incl C P).
      { intros x Hx. destruct (in_dec dec x P) as [Hin|Hnin] eqn:Ed; [exact Hin|].
        assert (Hf : In x (filter (fun x => if in_dec dec x P then false else true) C)).
        { apply filter_In. split; [exact Hx|]. rewrite Ed. reflexivity. }
        rewrite E in Hf. contradiction. }
      pose proof (NoDup_incl_length HC Hall). lia.
    + assert (Hx : In x (x :: l)) by (left; reflexivity).
      rewrite <- E in Hx. apply filter_In in Hx as [Hx Hb].
      exists x. split; [exact Hx|].
      destruct (in_dec dec x P); [discriminate | assumption].
  - intros (x & Hx & Hnin).
    assert (Hnd : NoDup (x :: P)) by (constructor; assumption).
    assert (Hi : incl (x :: P) C).
    { intros a [<- | Ha]; [exact Hx | apply Hincl, Ha]. }
    pose proof (NoDup_incl_length Hnd Hi) as H. cbn in H. lia.
Qed.

Lemma filter_split_length {A} (p q : A -> bool) (l : list A) :
  (forall x, In x l -> xorb (p x) (q x) = true) ->
  (List.length (filter p l) + List.length (filter q l) = List.length l)%nat.
Proof.
  induction l as [|x l IH]; intro H; [reflexivity|].
  cbn [filter]. specialize (IH (fun a Ha => H a (or_intror Ha))).
  specialize (H x (or_introl eq_refl)).
  destruct (p x), (q x); try discriminate; cbn [List.length]; lia.
Qed.

Lemma insert_sorted_length {A} (leb : A -> A -> bool) x (l : list A) :
  List.length (insert_sorted leb x l) = S (List.length l).
Proof.
  induction l as [|y l IH]; cbn; [reflexivity|].
  destruct (leb x y); cbn; [reflexivity | rewrite IH; reflexivity].
Qed.

Lemma isort_length {A} (leb : A -> A -> bool) (l : list A) :
  List.length (isort leb l) = List.length l.
Proof.
  induction l as [|x l IH]; cbn; [reflexivity|].
  rewrite insert_sorted_length. unfold isort in IH. rewrite IH. reflexivity.
Qed.

(** The distinct (year, month) pairs of a point are the pairs under which
    the table has a row for it. *)
Lemma point_pairs_In (rows : list (Key * float)) id y m :
  In (y, m)
     (nodup year_month_eq_dec
        (map (fun r => (snd (fst (fst r)), snd (fst r)))
             (filter (fun r => String.eqb (fst (fst (fst r))) id) rows)))
  <-> In (id, y, m) (map fst rows).
Proof.
  rewrite nodup_In, !in_map_iff. split.
  - intros ([[[i y'] m'] x] & [= <- <-] & Hin).
    apply filter_In in Hin as [Hin E]. cbn in E.
    apply String.eqb_eq in E. subst i.
    exists ((id, y', m'), x). auto.
  - intros ([[[i y'] m'] x] & [= <- <- <-] & Hin).
    exists ((i, y', m'), x). split; [reflexivity|].
    apply filter_In. split; [exact Hin|]. cbn. apply String.eqb_refl.
Qed.

Lemma coverage_In (rows : list (Key * float)) id c :
  In (id, c) (coverage rows)
  <-> In id (map (fun r => fst (fst (fst r))) rows)
      /\ c = List.length
               (nodup year_month_eq_dec
                  (map (fun r => (snd (fst (fst r)), snd (fst r)))
                       (filter (fun r => String.eqb (fst (fst (fst r))) id)
                               rows))).
Proof.
  unfold coverage. rewrite in_map_iff. split.
  - intros (i & [= <- <-] & Hin). apply isort_In, nodup_In in Hin. auto.
  - intros [Hin ->]. exists id. split; [reflexivity|].
    apply isort_In, nodup_In. exact Hin.
Qed.

(** X20. What [check_temporal_coverage] reports on a table with calendar
    months: the first and the last year of the table, shared by all
    points; twelve months for each year from the first to the last as
    the expected number; as incomplete exactly the points of the table
    that lack a row for some month of some year in that range; and every
    point as either complete or incomplete. *)
Theorem check_temporal_coverage_complete df report :
  check_temporal_coverage df = Ok report ->
  Forall (fun r => valid_month (snd (fst r)) = true) (lt_rows df) ->
  (forall i y m, In (i, y, m) (long_keys df) ->
                 (min_year report <= y <= max_year report)%Z)
  /\ (exists i m, In (i, min_year report, m) (long_keys df))
  /\ (exists i m, In (i, max_year report, m) (long_keys df))
  /\ expected_months report
     = ((max_year report - min_year report + 1) * 12)%Z
  /\ (forall i,
        In i (dict_keys (incomplete_accessions report))
        <-> (exists y m, In (i, y, m) (long_keys df))
            /\ exists y m,
                 (min_year report <= y <= max_year report)%Z
                 /\ (1 <= m <= 12)%Z
                 /\ ~ In (i, y, m) (long_keys df))
  /\ accessions_with_incomplete_coverage report
     = List.length (incomplete_accessions report)
  /\ (accessions_with_complete_coverage report
      + accessions_with_incomplete_coverage report
      = List.length
          (nodup string_dec (map (fun k => fst (fst k)) (long_keys df))))%nat.
Proof.
  unfold check_temporal_coverage, long_keys. intros H Hvalid.
  set (rows := lt_rows df) in *.
  set (pairs := fun id =>
         nodup year_month_eq_dec
           (map (fun r : Key * float => (snd (fst (fst r)), snd (fst r)))
                (filter (fun r : Key * float =>
                           String.eqb (fst (fst (fst r))) id) rows))).
  cbv zeta in H.
  match type of H with
  | match ?l with [] => _ | _ :: _ => _ end = _ =>
      destruct l as [|y0 years] eqn:Hyears; [discriminate|]
  end.
  injection H as <-.
  cbn [min_year max_year expected_months incomplete_accessions
       accessions_with_complete_coverage accessions_with_incomplete_coverage].
  set (lo := fold_left Z.min years y0).
  set (hi := fold_left Z.max years y0).
  destruct (fold_min_spec years y0) as [Hlo Hlo_in].
  destruct (fold_max_spec years y0) as [Hhi Hhi_in].
  fold lo in Hlo, Hlo_in. fold hi in Hhi, Hhi_in.
  rewrite <- Hyears in Hlo, Hlo_in, Hhi, Hhi_in.
  assert (Hyear : forall i y m, In (i, y, m) (map fst rows) ->
                                In y (map (fun r : Key * float =>
                                             snd (fst (fst r))) rows)).
  { intros i y m Hin. apply in_map_iff in Hin as ([[[i' y'] m'] x] & Heq & Hin).
    cbn in Heq. injection Heq as <- <- <-.
    apply in_map_iff. exists ((i', y', m'), x). auto. }
  assert (Hback : forall y, In y (map (fun r : Key * float =>
                                         snd (fst (fst r))) rows) ->
                            exists i m, In (i, y, m) (map fst rows)).
  { intros y Hin. apply in_map_iff in Hin as ([[[i' y'] m'] x] & <- & Hin).
    exists i', m'. apply in_map_iff. exists ((i', y', m'), x). auto. }
  assert (Hbounds : forall i y m, In (i, y, m) (map fst rows) ->
                                  (lo <= y <= hi)%Z).
  { intros i y m Hin. apply Hyear in Hin. split; [apply Hlo | apply Hhi]; exact Hin. }
  assert (Hmonth : forall i y m, In (i, y, m) (map fst rows) -> (1 <= m <= 12)%Z).
  { intros i y m Hin. apply in_map_iff in Hin as ([[[i' y'] m'] x] & Heq & Hin).
    cbn in Heq. injection Heq as <- <- <-.
    rewrite Forall_forall in Hvalid. specialize (Hvalid _ Hin).
    cbn in Hvalid. unfold valid_month in Hvalid. lia. }
  assert (Hlohi : (lo <= hi)%Z).
  { destruct (Hback _ Hlo_in) as (i & m & Hin).
    destruct (Hbounds _ _ _ Hin). lia. }
  assert (Hincl : forall id, incl (pairs id) (calendar lo hi)).
  { intros id [y m] Hin. apply point_pairs_In in Hin. apply calendar_In.
    split; [eapply Hbounds | eapply Hmonth]; exact Hin. }
  assert (Hnd : forall id, NoDup (pairs id))
    by (intro; apply NoDup_nodup).
  assert (Hlt : forall id,
            (Z.of_nat (List.length (pairs id)) <? (hi - lo + 1) * 12)%Z = true
            <-> exists y m, (lo <= y <= hi)%Z /\ (1 <= m <= 12)%Z
                            /\ ~ In (id, y, m) (map fst rows)).
  { intro id. rewrite Z.ltb_lt, <- (calendar_length lo hi Hlohi), <- Nat2Z.inj_lt.
    rewrite (shorter_iff_missing year_month_eq_dec _ _ (Hnd id)
               (calendar_NoDup lo hi) (Hincl id)).
    split.
    - intros ([y m] & Hc & Hn). apply calendar_In in Hc as [Hy Hm].
      exists y, m. repeat split; try lia.
      intro Hin. apply Hn. apply point_pairs_In. exact Hin.
    - intros (y & m & Hy & Hm & Hn). exists (y, m). split.
      + apply calendar_In. auto.
      + intro Hin. apply Hn. apply point_pairs_In in Hin. exact Hin. }
  assert (Hle : forall id,
            (Z.of_nat (List.length (pairs id)) <= (hi - lo + 1) * 12)%Z).
  { intro id. rewrite <- (calendar_length lo hi Hlohi). apply Nat2Z.inj_le.
    apply NoDup_incl_length; [apply Hnd | apply Hincl]. }
  split; [exact Hbounds|].
  split; [apply Hback, Hlo_in|].
  split; [apply Hback, Hhi_in|].
  split; [reflexivity|].
  split; [|split; [reflexivity|]].
  - intro i. unfold dict_keys. rewrite in_map_iff. split.
    + intros ([i' c] & <- & Hin). apply filter_In in Hin as [Hin Hc].
      apply coverage_In in Hin as [Hid ->]. cbn [fst snd] in *.
      split.
      * apply in_map_iff in Hid as ([[[i0 y] m] x] & <- & Hin).
        exists y, m. apply in_map_iff. exists ((i0, y, m), x). auto.
      * apply Hlt. exact Hc.
    + intros [(y & m & Hin) Hmiss].
      exists (i, List.length (pairs i)). split; [reflexivity|].
      apply filter_In. split.
      * apply coverage_In. split; [|reflexivity].
        apply in_map_iff in Hin as (r & Hr & Hin).
        apply in_map_iff. exists r. split; [|exact Hin].
        destruct r as [k x]. cbn in Hr |- *. subst k. reflexivity.
      * cbn [snd]. apply Hlt. exact Hmiss.
  - rewrite filter_split_length.
    + unfold coverage. rewrite length_map, isort_length, map_map. reflexivity.
    + intros [id c] Hin. apply coverage_In in Hin as [_ ->]. cbn [snd].
      specialize (Hle id). unfold pairs in Hle.
      match goal with
      | |- xorb (?a =? ?b)%Z (?a <? ?b)%Z = true =>
          assert (Hle' : (a <= b)%Z) by exact Hle;
          revert Hle'; generalize a; generalize b; intros b' a' Hle';
          destruct (Z.eqb_spec a' b'); destruct (Z.ltb_spec a' b');
            cbn; try reflexivity; lia
      end.
Qed.

Lemma check_temporal_coverage_complete_witness :
  exists report,
    check_temporal_coverage coverage_table = Ok report
    /\ incomplete_accessions report = [("A", 23%nat); ("B", 1%nat)]
    /\ (forall i,
          In i (dict_keys (incomplete_accessions report))
          <-> (exists y m, In (i, y, m) (long_keys coverage_table))
              /\ exists y m,
                   (min_year report <= y <= max_year report)%Z
                   /\ (1 <= m <= 12)%Z
                   /\ ~ In (i, y, m) (long_keys coverage_table)).
Proof.
  eexists. split; [vm_compute; reflexivity|]. split; [reflexivity|].
  eapply (check_temporal_coverage_complete coverage_table).
  - vm_compute. reflexivity.
  - unfold coverage_table. cbn [lt_rows].
    repeat (constructor; [reflexivity|]). constructor.
Defined.

(* ------------------------------------------------------------------ *)
(** ** The trace of the extraction, and a cache that does not load *)

(** X21. The effects of [extract_all_variables] after the index is
    there: it opens the source of each requested variable once, in the
    order of the request, reports each failure once, right after the
    attempt, appends one line per failure to the failure log, in the same
    order, and leaves the cache file and the configured years as they
    are. *)
Theorem extract_all_variables_trace
    vars use_cached_index sequential w idx w0 :
  build_spatial_index use_cached_index w = (Ok idx, w0) ->
  exists results w',
    extract_all_variables (Some vars) use_cached_index sequential w
    = (Ok results, w')
    /\ events w'
       = events w0
         ++ flat_map (fun v =>
              EvOpenDataset (TERRACLIMATE_URL v)
              :: match fst (extract_one v idx sequential w0) with
                 | Ok _ => []
                 | Err e => [EvExtractionError v e]
                 end) vars
    /\ failures_log w'
       = failures_log w0
         ++ flat_map (fun v =>
              match fst (extract_one v idx sequential w0) with
              | Ok _ => []
              | Err e => [(v, error_message e)]
              end) vars
    /\ cache_file w' = cache_file w0
    /\ START_YEAR w' = START_YEAR w0
    /\ END_YEAR w' = END_YEAR w0.
Proof.
  intro Hidx.
  destruct (extract_each_spec vars idx sequential [] w0)
    as (w' & Hr & Hl & He & Ht & Hs & Hy & Hc).
  do 2 eexists. unfold extract_all_variables, bind. rewrite Hidx, Hr.
  split; [reflexivity|].
  assert (Hone : forall v,
            fst (extract_one v idx sequential w0)
            = outcome (thredds w0) (START_YEAR w0) (END_YEAR w0) v idx
                      sequential)
    by (intro v; rewrite extract_one_outcome; reflexivity).
  split; [|split; [|split; [exact Hc|split; assumption]]].
  - rewrite He. f_equal. unfold traced. apply flat_map_ext.
    intro v. rewrite Hone. reflexivity.
  - rewrite Hl. f_equal. unfold logged. apply flat_map_ext.
    intro v. rewrite Hone. reflexivity.
Qed.

Lemma extract_all_variables_trace_witness :
  exists results w',
    extract_all_variables (Some ["tmax"; "aet"; "tmax"]) true true
                          cached_world_without_tmax
    = (Ok results, w')
    /\ events w'
       = events (emit cached_world_without_tmax EvCacheRead)
         ++ flat_map (fun v =>
              EvOpenDataset (TERRACLIMATE_URL v)
              :: match fst (extract_one v [("A", (0%nat, 0%nat))] true
                                        (emit cached_world_without_tmax
                                              EvCacheRead)) with
                 | Ok _ => []
                 | Err e => [EvExtractionError v e]
                 end) ["tmax"; "aet"; "tmax"]
    /\ failures_log w'
       = failures_log (emit cached_world_without_tmax EvCacheRead)
         ++ flat_map (fun v =>
              match fst (extract_one v [("A", (0%nat, 0%nat))] true
                                     (emit cached_world_without_tmax
                                           EvCacheRead)) with
              | Ok _ => []
              | Err e => [(v, error_message e)]
              end) ["tmax"; "aet"; "tmax"]
    /\ cache_file w'
       = cache_file (emit cached_world_without_tmax EvCacheRead)
    /\ START_YEAR w' = START_YEAR (emit cached_world_without_tmax EvCacheRead)
    /\ END_YEAR w' = END_YEAR (emit cached_world_without_tmax EvCacheRead).
Proof.
  apply (extract_all_variables_trace
           ["tmax"; "aet"; "tmax"] true true cached_world_without_tmax
           [("A", (0%nat, 0%nat))]
           (emit cached_world_without_tmax EvCacheRead)).
  vm_compute. reflexivity.
Defined.

(** The log of that run: [tmax] fails twice and is logged twice. *)
Lemma failure_log_example :
  failures_log
    (snd (extract_all_variables (Some ["tmax"; "aet"; "tmax"]) true true
                                cached_world_without_tmax))
  = [("tmax", TERRACLIMATE_URL "tmax"); ("tmax", TERRACLIMATE_URL "tmax")].
Proof. vm_compute. reflexivity. Qed.

Section CorruptCache.
Context {R : Reducers}.

(** X22. A cache file that does not load stops every run of [main] that
    gets past the command line, with exit status 1, and is left in
    place: --rebuild-index does not help, since the extraction loads the
    cache again after the rebuild. *)
Theorem corrupt_cache_stops_main cl w :
  cache_file w = Some Corrupt ->
  is_ok (parse_args cl) = true ->
  fst (main cl w) = Err (SystemExit 1)
  /\ cache_file (snd (main cl w)) = Some Corrupt
  /\ saved (snd (main cl w)) = saved w.
Proof.
  intros Hcache Hparse. rewrite main_eq.
  destruct (parse_args_cases cl) as [(args & Hp & Hmode & _) | Hp];
    rewrite Hp in *; [|discriminate].
  rewrite (run_pipeline_eq args w Hmode).
  assert (Hc1 : cache_file (override_years args w) = Some Corrupt)
    by exact Hcache.
  assert (Hs1 : saved (override_years args w) = saved w) by reflexivity.
  destruct (args_rebuild_index args); cbn [negb].
  - pose proof (rebuild_keeps_cache (override_years args w)) as Hk.
    pose proof (build_spatial_index_saved false (override_years args w)) as Hs.
    destruct (build_spatial_index false (override_years args w))
      as [[idx|e] w2]; cbn [fst snd] in *.
    + unfold extract_all_variables, bind.
      rewrite (build_spatial_index_cached w2 Corrupt) by congruence.
      cbn [fst snd]. rewrite saved_emit, app_nil_r.
      split; [reflexivity|]. split; [|congruence].
      cbn [cache_file emit]. congruence.
    + split; [reflexivity|]. split; congruence.
  - rewrite (build_spatial_index_cached _ Corrupt Hc1). cbn [fst snd].
    rewrite saved_emit, app_nil_r.
    split; [reflexivity|]. split; [exact Hc1 | exact Hs1].
Qed.

End CorruptCache.

Lemma corrupt_cache_stops_main_witness :
  fst (main rebuild_command_line corrupt_cache_world) = Err (SystemExit 1)
  /\ cache_file (snd (main rebuild_command_line corrupt_cache_world))
     = Some Corrupt
  /\ saved (snd (main rebuild_command_line corrupt_cache_world))
     = saved corrupt_cache_world.
Proof.
  apply (corrupt_cache_stops_main (R := textbook_reducers)
           rebuild_command_line corrupt_cache_world); reflexivity.
Defined.

(** The events of that run: the rebuild succeeds, then the cache is read
    and the run stops. *)
Lemma corrupt_cache_example :
  events (snd (main rebuild_command_line corrupt_cache_world))
  = [EvOpenDataset sample_url; EvFailedAccessions ["B"]; EvCacheRead].
Proof. vm_compute. reflexivity. Qed.

(* ------------------------------------------------------------------ *)
(** ** The derived indices in the final table *)

Section DerivedOutput.
Context {R : Reducers}.

Lemma merge_rectangular vd out :
  merge_variables_wide_format vd = Ok out -> rectangular out.
Proof.
  destruct vd as [|[v df] rest]; [discriminate|].
  cbn [merge_variables_wide_format]. intro H.
  assert (Hrect : rectangular (wide_of_long df)).
  { intros [k cells] Hin. unfold wide_of_long in Hin. cbn [wf_rows] in Hin.
    apply in_map_iff in Hin as (r & [= <- <-] & _). reflexivity. }
  apply (merge_each_one_row_per_key rest _ _ H Hrect).
Qed.

Lemma assigned_climate_column cols n :
  assigned cols n = true -> has_column non_climate_columns n = false.
Proof.
  unfold assigned. intro H.
  repeat (apply orb_prop in H as [H | H]);
    repeat (apply andb_prop in H as [H _]);
    apply String.eqb_eq in H; subst n; reflexivity.
Qed.

Lemma statistics_columns stats cols vars group_cols keyed out n s :
  grouped_statistics stats cols vars group_cols keyed out ->
  In n vars -> In s stats ->
  In (flatten_column (n, stat_name s)) (agg_columns out).
Proof.
  intros (order & _ & Hord & Hcols & _) Hn Hs. rewrite Hcols.
  apply in_or_app. right. apply in_flat_map. exists n.
  split; [apply Hord, Hn|]. apply in_map_iff. exists s. auto.
Qed.

(** X23. With add_derived, a derived index whose two source variables
    were extracted is in the final table of every aggregation mode: as a
    column of the monthly table, and with one column per statistic in
    the aggregated ones (five for [summary], four for [annual] and
    [seasonal]). *)
Theorem derived_indices_in_final_table variable_data n :
  variable_data <> [] ->
  columns_named variable_data ->
  assigned (dict_keys variable_data) n = true ->
  In n (table_columns (prepare_for_gwas variable_data "monthly" true))
  /\ (forall s, In s [Mean; Std; Min; Max; Median] ->
        In (flatten_column (n, stat_name s))
           (table_columns (prepare_for_gwas variable_data "summary" true)))
  /\ (forall s, In s [Mean; Std; Min; Max] ->
        In (flatten_column (n, stat_name s))
           (table_columns (prepare_for_gwas variable_data "annual" true))
        /\ In (flatten_column (n, stat_name s))
              (table_columns (prepare_for_gwas variable_data "seasonal" true))).
Proof.
  intros Hne Hcn Hn.
  destruct (merge_ok variable_data Hne Hcn) as (df & Hm & Hcols).
  pose proof (merge_rectangular _ _ Hm) as Hrect.
  destruct (add_derived_closed_form df Hrect) as [Hhas _].
  set (df' := add_derived_climate_indices df) in *.
  assert (Hcol : has_column (wf_columns df') n = true).
  { rewrite Hhas, Hcols, Hn. apply orb_true_r. }
  assert (Hclim : In n (climate_columns df')).
  { unfold climate_columns. apply filter_In. split.
    - apply has_column_In, Hcol.
    - rewrite (assigned_climate_column _ _ Hn). reflexivity. }
  assert (Hnon : climate_columns df' <> []).
  { intro E. rewrite E in Hclim. contradiction. }
  rewrite !prepare_for_gwas_dispatch. unfold prepared. rewrite Hm.
  cbn [rbind String.eqb Ascii.eqb Bool.eqb]. fold df'.
  rewrite compute_climate_summaries_eq, compute_temporal_aggregates_year,
    compute_temporal_aggregates_season.
  split; [|split].
  - cbn [table_columns]. apply in_or_app. right. apply has_column_In, Hcol.
  - intros s Hs.
    destruct (groupby_agg_statistics [Mean; Std; Min; Max; Median]
                (wf_columns df') (climate_columns df') ["accession_id"]
                (keyed_by point_key df') Hnon (climate_columns_present df'))
      as (out & Ho & Hst).
    rewrite Ho. cbn [rbind table_columns].
    eapply statistics_columns; eassumption.
  - intros s Hs. split.
    + destruct (groupby_agg_statistics [Mean; Std; Min; Max]
                  (wf_columns df') (climate_columns df')
                  ["accession_id"; "year"]
                  (keyed_by year_key df') Hnon (climate_columns_present df'))
        as (out & Ho & Hst).
      rewrite Ho. cbn [rbind table_columns].
      eapply statistics_columns; eassumption.
    + destruct (groupby_agg_statistics [Mean; Std; Min; Max]
                  (wf_columns df') (climate_columns df')
                  ["accession_id"; "year"; "season"]
                  (keyed_by season_key df') Hnon (climate_columns_present df'))
        as (out & Ho & Hst).
      rewrite Ho. cbn [rbind table_columns].
      eapply statistics_columns; eassumption.
Qed.

End DerivedOutput.

Lemma derived_indices_in_final_table_witness :
  In "aridity_index"
     (table_columns (prepare_for_gwas example_tables "monthly" true))
  /\ (forall s, In s [Mean; Std; Min; Max; Median] ->
        In (flatten_column ("aridity_index", stat_name s))
           (table_columns (prepare_for_gwas example_tables "summary" true)))
  /\ (forall s, In s [Mean; Std; Min; Max] ->
        In (flatten_column ("aridity_index", stat_name s))
           (table_columns (prepare_for_gwas example_tables "annual" true))
        /\ In (flatten_column ("aridity_index", stat_name s))
              (table_columns (prepare_for_gwas example_tables "seasonal" true))).
Proof.
  apply (derived_indices_in_final_table (R := textbook_reducers)
           example_tables "aridity_index").
  - discriminate.
  - repeat constructor.
  - reflexivity.
Defined.

(** The columns of the summary of [example_tables]: the three variables
    and the two indices they allow. *)
Lemma summary_columns_example :
  table_columns (prepare_for_gwas example_tables "summary" true)
  = ["accession_id";
     "ppt_mean"; "ppt_std"; "ppt_min"; "ppt_max"; "ppt_median";
     "aet_mean"; "aet_std"; "aet_min"; "aet_max"; "aet_median";
     "pet_mean"; "pet_std"; "pet_min"; "pet_max"; "pet_median";
     "aridity_index_mean"; "aridity_index_std"; "aridity_index_min";
     "aridity_index_max"; "aridity_index_median";
     "water_balance_mean"; "water_balance_std"; "water_balance_min";
     "water_balance_max"; "water_balance_median"].
Proof. vm_compute. reflexivity. Qed.

(* ------------------------------------------------------------------ *)
(** ** The batched extraction *)

(** X24. [extract_vectorized_all_locations] returns a table on no input:
    it opens the source once and raises; when the source opens, holds
    the variable and covers the cells of the index, so that the three
    arrays are built, what it raises is the AttributeError of
    [time_array.year], [np.tile] having turned the time index into a
    NumPy array; and every error it raises is one [except Exception]
    catches. *)
Theorem extract_vectorized_all_locations_never_returns
    variable spatial_index w :
  snd (extract_vectorized_all_locations variable spatial_index w)
  = emit w (EvOpenDataset (TERRACLIMATE_URL variable))
  /\ exists e,
       fst (extract_vectorized_all_locations variable spatial_index w) = Err e
       /\ is_Exception e = true
       /\ (forall ds,
             dict_get (thredds w) (TERRACLIMATE_URL variable) = Some ds ->
             is_ok (vectorized_arrays ds variable spatial_index) = true ->
             e = AttributeError
                   "'numpy.ndarray' object has no attribute 'year'").
Proof.
  unfold extract_vectorized_all_locations, bind. rewrite open_dataset_eq.
  destruct (dict_get (thredds w) (TERRACLIMATE_URL variable)) as [ds|].
  2: { split; [reflexivity|]. eexists. split; [reflexivity|].
       split; [reflexivity|]. intros ds H. discriminate H. }
  unfold lift. cbn [fst snd]. split; [reflexivity|].
  destruct (vectorized_arrays ds variable spatial_index)
    as [[[ids times] data]|e] eqn:E.
  - assert (Hnd : exists ts, times = NdArray ts).
    { unfold vectorized_arrays in E.
      destruct (ds_getitem ds variable) as [a|]; [|discriminate].
      cbn [rbind] in E.
      destruct (da_isel_points a _ _); [|discriminate].
      cbn [rbind] in E. injection E as _ <- _. unfold np_tile. eauto. }
    destruct Hnd as (ts & ->). cbn [rbind dt_year].
    eexists. split; [reflexivity|]. split; [reflexivity|].
    intros ds' [= <-] _. reflexivity.
  - cbn [rbind]. exists e. split; [reflexivity|]. split.
    + unfold vectorized_arrays in E.
      destruct (ds_getitem ds variable) as [a|] eqn:Ea.
      * cbn [rbind] in E.
        destruct (da_isel_points a _ _) as [d|e'] eqn:Ed; [discriminate|].
        cbn [rbind] in E. injection E as <-.
        unfold da_isel_points in Ed.
        assert (Hc : forall X (l : list X) (f : X -> Result (list float)),
                   (forall x, catchable (f x)) -> catchable (rmap f l))
          by (intros; apply catchable_rmap; assumption).
        destruct (da_dims a) as [[[| |] d1] d2];
          (eapply Hc; [|exact Ed]); intro x;
          apply catchable_rmap; intro y; apply catchable_da_get.
      * cbn [rbind] in E. injection E as <-.
        unfold ds_getitem in Ea.
        destruct (dict_get (ds_vars ds) variable); [discriminate|].
        injection Ea as <-. reflexivity.
    + intros ds' [= <-] H. rewrite E in H. discriminate H.
Qed.

(* ------------------------------------------------------------------ *)
(** ** Sources with a common time axis *)

Lemma outcome_long_keys server s e v idx df :
  outcome server s e v idx true = Ok df ->
  exists ds,
    dict_get server (TERRACLIMATE_URL v) = Some ds
    /\ long_keys df
       = flat_map (fun item =>
                     point_keys (fst item) (kept_times s e (ds_time ds))) idx.
Proof.
  unfold outcome.
  destruct (dict_get server (TERRACLIMATE_URL v)) as [ds|]; [|discriminate].
  intro H. exists ds. split; [reflexivity|].
  apply extract_from_dataset_inv in H
    as (-> & -> & _ & _ & _ & frames & Hf & Hrows).
  rewrite kept_times_all. unfold long_keys. rewrite Hrows.
  eapply frames_keys, Hf.
Qed.

Lemma filled_cells k (tables : PyDict LongTable) cells :
  (forall vt, In vt tables -> In k (long_keys (snd vt))) ->
  Forall2 (cell_from k) tables cells ->
  Forall2 (fun vt x => In (k, x) (lt_rows (snd vt))) tables cells.
Proof.
  intros Hall H.
  induction H as [|vt x tables cells [Hx | [Hx _]] _ IH]; [constructor| |].
  - constructor; [exact Hx|]. apply IH. intros vt' H'. apply Hall. right. exact H'.
  - exfalso. apply Hx, Hall. left. reflexivity.
Qed.

(** X25. When the sources of the extracted variables share their time
    axis, the outer join of [merge_variables_wide_format] has nothing to
    fill in: every table of [extract_all_variables] has the same keys,
    the merged frame has these keys, and each cell of each row is a
    value of the table of its column under the key of the row. *)
Theorem common_time_axis_merges_without_gaps
    vars use_cached_index w results w' times :
  extract_all_variables vars use_cached_index true w = (Ok results, w') ->
  results <> [] ->
  (forall v ds, In v (dict_keys results) ->
                dict_get (thredds w) (TERRACLIMATE_URL v) = Some ds ->
                ds_time ds = times) ->
  exists idx out,
    fst (build_spatial_index use_cached_index w) = Ok idx
    /\ merge_variables_wide_format results = Ok out
    /\ (forall v t, In (v, t) results ->
          long_keys t
          = flat_map (fun item =>
                        point_keys (fst item)
                                   (kept_times (START_YEAR w) (END_YEAR w) times))
                     idx)
    /\ (forall k, In k (wide_keys out)
                  <-> In k (flat_map
                              (fun item =>
                                 point_keys (fst item)
                                   (kept_times (START_YEAR w) (END_YEAR w) times))
                              idx))
    /\ (forall k cells, In (k, cells) (wf_rows out) ->
          Forall2 (fun vt x => In (k, x) (lt_rows (snd vt))) results cells).
Proof.
  intros Hext Hne Htimes.
  pose proof (extract_all_variables_columns_named _ _ _ _ _ _ Hext) as Hcn.
  unfold extract_all_variables, bind in Hext.
  destruct (build_spatial_index_frame use_cached_index w)
    as (_ & Hth & Hs & He & _).
  destruct (build_spatial_index use_cached_index w) as [[idx|err] w0];
    [|discriminate].
  cbn [fst snd] in *.
  set (vs := match vars with Some vs => vs | None => CLIMATE_VARIABLES end) in *.
  destruct (extract_each_spec vs idx true [] w0) as (w1 & H1 & _).
  rewrite H1 in Hext. injection Hext as Hres _.
  set (out := fun v => outcome (thredds w0) (START_YEAR w0) (END_YEAR w0)
                               v idx true) in *.
  assert (Hnd : NoDup (dict_keys results))
    by (rewrite <- Hres; apply collect_NoDup; constructor).
  assert (Hkeys : forall v t, In (v, t) results ->
            long_keys t
            = flat_map (fun item =>
                          point_keys (fst item)
                            (kept_times (START_YEAR w) (END_YEAR w) times))
                       idx).
  { intros v t Hin.
    assert (Hv : In v (dict_keys results)) by (apply (in_map fst) in Hin; exact Hin).
    apply (dict_get_NoDup_In _ _ _ Hnd) in Hin.
    rewrite <- Hres, collect_get in Hin.
    destruct (in_dec string_dec v vs); cbn [dict_get] in Hin; [|discriminate].
    destruct (out v) as [d|] eqn:E; cbn [dict_get] in Hin; [|discriminate].
    injection Hin as ->. unfold out in E.
    apply outcome_long_keys in E as (ds & Hds & Hk).
    rewrite Hth in Hds. rewrite (Htimes v ds Hv Hds), Hs, He in Hk. exact Hk. }
  destruct results as [|[v0 t0] rest] eqn:Er; [congruence|].
  inversion Hcn as [|? ? Hv0 Hrest]; subst.
  destruct (merge_each_merged rest [(v0, t0)] (wide_of_long t0) Hrest
              (merged_first v0 t0 Hv0)) as (o & Ho & _ & Hcells & Hwk).
  cbn [app] in Hcells, Hwk.
  exists idx, o. split; [reflexivity|]. split; [exact Ho|].
  split; [exact Hkeys|].
  assert (Hwide : forall k,
            In k (wide_keys o)
            <-> In k (flat_map
                        (fun item =>
                           point_keys (fst item)
                             (kept_times (START_YEAR w) (END_YEAR w) times))
                        idx)).
  { intro k. rewrite Hwk. split.
    - intros ([v t] & Hin & Hk). cbn [snd] in Hk.
      rewrite (Hkeys v t Hin) in Hk. exact Hk.
    - intro Hk. exists (v0, t0). split; [left; reflexivity|]. cbn [snd].
      rewrite (Hkeys v0 t0 (or_introl eq_refl)). exact Hk. }
  split; [exact Hwide|].
  intros k cells Hin.
  assert (Hk : In k (wide_keys o)) by (apply (in_map fst) in Hin; exact Hin).
  apply Hwide in Hk.
  apply filled_cells; [|apply Hcells, Hin].
  intros [v t] Hvt. cbn [snd]. rewrite (Hkeys v t Hvt). exact Hk.
Qed.

Lemma common_time_axis_merges_without_gaps_witness :
  exists idx out,
    fst (build_spatial_index true two_variable_world) = Ok idx
    /\ merge_variables_wide_format
         [("tmax", mkLong "tmax"
                     [(("A", 1958%Z, 12%Z), 1%float); (("A", 1959%Z, 1%Z), 3%float);
                      (("A", 1960%Z, 1%Z), 5%float); (("B", 1958%Z, 12%Z), 2%float);
                      (("B", 1959%Z, 1%Z), 4%float); (("B", 1960%Z, 1%Z), 6%float)]);
          ("tmin", mkLong "tmin"
                     [(("A", 1958%Z, 12%Z), 0%float); (("A", 1959%Z, 1%Z), 2%float);
                      (("A", 1960%Z, 1%Z), 4%float); (("B", 1958%Z, 12%Z), 1%float);
                      (("B", 1959%Z, 1%Z), 3%float); (("B", 1960%Z, 1%Z), 5%float)])]
       = Ok out
    /\ wide_keys out
       = [("A", 1958%Z, 12%Z); ("A", 1959%Z, 1%Z); ("A", 1960%Z, 1%Z);
          ("B", 1958%Z, 12%Z); ("B", 1959%Z, 1%Z); ("B", 1960%Z, 1%Z)].
Proof.
  destruct (common_time_axis_merges_without_gaps
              (Some ["tmax"; "tmin"]) true two_variable_world
              [("tmax", mkLong "tmax"
                     [(("A", 1958%Z, 12%Z), 1%float); (("A", 1959%Z, 1%Z), 3%float);
                      (("A", 1960%Z, 1%Z), 5%float); (("B", 1958%Z, 12%Z), 2%float);
                      (("B", 1959%Z, 1%Z), 4%float); (("B", 1960%Z, 1%Z), 6%float)]);
               ("tmin", mkLong "tmin"
                     [(("A", 1958%Z, 12%Z), 0%float); (("A", 1959%Z, 1%Z), 2%float);
                      (("A", 1960%Z, 1%Z), 4%float); (("B", 1958%Z, 12%Z), 1%float);
                      (("B", 1959%Z, 1%Z), 3%float); (("B", 1960%Z, 1%Z), 5%float)])]
              (snd (extract_all_variables (Some ["tmax"; "tmin"]) true true
                                          two_variable_world))
              [mkTime 1958 12; mkTime 1959 1; mkTime 1960 1])
    as (idx & out & Hidx & Hout & _).
  - vm_compute. reflexivity.
  - discriminate.
  - intros v ds [<- | [<- | []]] H; vm_compute in H; injection H as <-;
      reflexivity.
  - exists idx, out. split; [exact Hidx|]. split; [exact Hout|].
    vm_compute in Hout. injection Hout as <-. reflexivity.
Defined.
